(** * Plate-text parser and OCR normaliser of park-app

    A shallow embedding of the three server variants of the repository:

    - [Api]     : [api/ocr.py]            (PaddleOCR, threshold 0.5)
    - [Backend] : [backend/app.py]        (PaddleOCR, threshold 0.3, sorted)
    - [Simple]  : [backend/simple_app.py] (Tesseract)

    Python [str] values are sequences of Unicode code points; they are
    modelled as lists of code points ([N]).  The result dictionary of the
    parsers is a finite map from key strings to Python strings.  The
    regular expressions of the source are written in a small pattern
    language whose matcher follows the backtracking discipline of
    Python's [re] module (leftmost start, greedy repetition). *)

From Stdlib Require Import NArith ZArith QArith Lqa List Ascii String Sorting Permutation.
From Stdlib Require Import SpecFloat DecimalString.
From stdpp Require Import gmap strings list fin_maps.

Import ListNotations.
Local Open Scope N_scope.

(** ** Code points and string literals *)

Definition char := N.
Definition pystr := list char.

(** The source files are UTF-8; literals are decoded the same way. *)
Fixpoint utf8_decode (bs : list N) : pystr :=
  match bs with
  | [] => []
  | b0 :: r0 =>
      if b0 <? 128 then b0 :: utf8_decode r0
      else if b0 <? 224 then
        match r0 with
        | b1 :: r1 => ((b0 - 192) * 64 + (b1 - 128)) :: utf8_decode r1
        | _ => []
        end
      else if b0 <? 240 then
        match r0 with
        | b1 :: b2 :: r2 =>
            ((b0 - 224) * 4096 + (b1 - 128) * 64 + (b2 - 128)) :: utf8_decode r2
        | _ => []
        end
      else
        match r0 with
        | b1 :: b2 :: b3 :: r3 =>
            ((b0 - 240) * 262144 + (b1 - 128) * 4096 + (b2 - 128) * 64 + (b3 - 128))
              :: utf8_decode r3
        | _ => []
        end
  end.

Definition lit (s : string) : pystr :=
  utf8_decode (List.map N_of_ascii (list_ascii_of_string s)).

Definition SPACE : char := 32.
Definition LF : char := 10.
Definition CR : char := 13.
Definition HYPHEN : char := 45.          (* '-'  U+002D *)
Definition MINUS : char := 8722.         (* '−'  U+2212 *)
Definition LONG_DASH : char := 12540.    (* 'ー' U+30FC *)
Definition HIRA_A : char := 12354.       (* 'あ' U+3042 *)
Definition HIRA_N : char := 12435.       (* 'ん' U+3093 *)

(** ** Character classes of Python's [re] on [str] patterns *)

(** [\s], [str.split()] and [str.strip()] all use the same predicate
    (Unicode white space). *)
Definition whitespace_chars : list char :=
  [9; 10; 11; 12; 13; 28; 29; 30; 31; 32; 133; 160; 5760;
   8192; 8193; 8194; 8195; 8196; 8197; 8198; 8199; 8200; 8201; 8202;
   8232; 8233; 8239; 8287; 12288].

Definition is_space (c : char) : bool := existsb (N.eqb c) whitespace_chars.

(** [\d] is the Unicode category Nd (here of Unicode 14, as Python 3.11
    has it); every block of decimal digits is a run of ten consecutive code
    points, listed here by its digit zero. *)
Definition digit_zeros : list char :=
  [48; 1632; 1776; 1984; 2406; 2534; 2662; 2790; 2918; 3046; 3174; 3302;
   3430; 3558; 3664; 3792; 3872; 4160; 4240; 6112; 6160; 6470; 6608; 6784;
   6800; 6992; 7088; 7232; 7248; 42528; 43216; 43264; 43472; 43504; 43600;
   44016; 65296; 66720; 68912; 69734; 69872; 69942; 70096; 70384; 70736;
   70864; 71248; 71360; 71472; 71904; 72016; 72784; 73040; 73120; 92768;
   92864; 93008; 120782; 120792; 120802; 120812; 120822; 123200; 123632;
   125264; 130032].

Definition is_digit (c : char) : bool :=
  existsb (fun z => (z <=? c) && (c <=? z + 9)) digit_zeros.

(** [[^\d\s]] *)
Definition not_digit_space (c : char) : bool := negb (is_digit c) && negb (is_space c).

(** [[あ-ん]] *)
Definition is_hiragana (c : char) : bool := (HIRA_A <=? c) && (c <=? HIRA_N).

(** A character class given by the listed characters, as [[-−ー]]. *)
Definition one_of (cs : pystr) (c : char) : bool := existsb (N.eqb c) cs.

(** ** String operations *)

(** [s.replace(a, b)] for one-character [a] and [b]. *)
Definition replace_char (a b : char) (s : pystr) : pystr :=
  List.map (fun c => if c =? a then b else c) s.

(** [re.sub(r'\s+', ' ', s)]: every maximal run of white space becomes one
    space.  [in_run] records that the previous character was white space. *)
Fixpoint sub_spaces_from (in_run : bool) (s : pystr) : pystr :=
  match s with
  | [] => []
  | c :: r =>
      if is_space c
      then (if in_run then sub_spaces_from true r else SPACE :: sub_spaces_from true r)
      else c :: sub_spaces_from false r
  end.

Definition sub_spaces (s : pystr) : pystr := sub_spaces_from false s.

Fixpoint lstrip (s : pystr) : pystr :=
  match s with
  | [] => []
  | c :: r => if is_space c then lstrip r else s
  end.

Definition rstrip (s : pystr) : pystr := rev (lstrip (rev s)).

(** [s.strip()] *)
Definition strip (s : pystr) : pystr := rstrip (lstrip s).

(** [s.split()]: the maximal runs of non-white-space characters.  [cur] is
    the word being read, in reverse. *)
Fixpoint split_from (cur : pystr) (s : pystr) : list pystr :=
  match s with
  | [] => match cur with [] => [] | _ => [rev cur] end
  | c :: r =>
      if is_space c
      then match cur with
           | [] => split_from [] r
           | _ => rev cur :: split_from [] r
           end
      else split_from (c :: cur) r
  end.

Definition split (s : pystr) : list pystr := split_from [] s.

(** [sep.join(parts)] *)
Fixpoint join (sep : pystr) (parts : list pystr) : pystr :=
  match parts with
  | [] => []
  | [p] => p
  | p :: ps => p ++ sep ++ join sep ps
  end.

(** [needle in hay] *)
Fixpoint starts_with (needle hay : pystr) : bool :=
  match needle, hay with
  | [], _ => true
  | _ :: _, [] => false
  | a :: n', b :: h' => (a =? b) && starts_with n' h'
  end.

Fixpoint contains (needle hay : pystr) : bool :=
  starts_with needle hay ||
  match hay with
  | [] => false
  | _ :: h' => contains needle h'
  end.

(** [s[:n]] and [s[n:]] *)
Definition slice_to (n : nat) (s : pystr) : pystr := firstn n s.
Definition slice_from (n : nat) (s : pystr) : pystr := skipn n s.

(** ** Regular expressions

    Every pattern of the source is a sequence of greedy, bounded or
    unbounded repetitions of one character class; an atom records the class,
    the bounds and the number of the capture group it lies in (0 for none).
    [\d{3}] is [rep is_digit 3 3], [\s*] is [star is_space], and so on. *)

Record atom := Atom {
  a_class : char -> bool;
  a_min : nat;
  a_max : option nat;
  a_group : nat
}.

Definition pattern := list atom.

(** A match object: the text consumed by each atom, tagged with its group. *)
Definition re_match := list (nat * pystr).

Definition rep (cls : char -> bool) (lo hi : nat) (g : nat) : atom := Atom cls lo (Some hi) g.
Definition star (cls : char -> bool) : atom := Atom cls 0 None 0.

(** Length of the longest prefix of [s] whose characters are all in [cls]. *)
Fixpoint span (cls : char -> bool) (s : pystr) : nat :=
  match s with
  | [] => 0%nat
  | c :: r => if cls c then S (span cls r) else 0%nat
  end.

Definition cap (hi : option nat) (n : nat) : nat :=
  match hi with
  | Some h => Nat.min h n
  | None => n
  end.

(** Greedy repetition with backtracking: the atom takes [lo + d] characters;
    when the rest of the pattern fails it gives one back. *)
Fixpoint backtrack (k : pystr -> option re_match) (g lo : nat) (s : pystr) (d : nat)
  : option re_match :=
  match k (skipn (lo + d) s) with
  | Some m => Some ((g, firstn (lo + d) s) :: m)
  | None =>
      match d with
      | O => None
      | S d' => backtrack k g lo s d'
      end
  end.

(** Match the pattern at the beginning of [s]. *)
Fixpoint match_here (p : pattern) (s : pystr) : option re_match :=
  match p with
  | [] => Some []
  | a :: rest =>
      let n := cap (a_max a) (span (a_class a) s) in
      if (n <? a_min a)%nat then None
      else backtrack (match_here rest) (a_group a) (a_min a) s (n - a_min a)
  end.

(** [re.search(p, s)]: the match at the leftmost position that has one. *)
Fixpoint search (p : pattern) (s : pystr) : option re_match :=
  match match_here p s with
  | Some m => Some m
  | None =>
      match s with
      | [] => None
      | _ :: r => search p r
      end
  end.

(** [m.group(g)] *)
Fixpoint group (g : nat) (m : re_match) : pystr :=
  match m with
  | [] => []
  | (h, piece) :: m' => if (h =? g)%nat then piece ++ group g m' else group g m'
  end.

(** ** The result dictionary *)

Abbreviation plate := (gmap string pystr).

(** [{'region': '', 'classification': '', 'hiragana': '', 'number': '',
      'full_text': clean_text}] *)
Definition new_result (clean_text : pystr) : plate :=
  <["full_text" := clean_text]>
    (<["number" := []]>
       (<["hiragana" := []]>
          (<["classification" := []]>
             (<["region" := []]> ∅)))).

(** [for region in regions: if region in clean_text: result['region'] = region; break] *)
Fixpoint find_region (regions : list pystr) (clean_text : pystr) (result : plate) : plate :=
  match regions with
  | [] => result
  | region :: rest =>
      if contains region clean_text
      then <["region" := region]> result
      else find_region rest clean_text result
  end.

(** [f"{number[:2]}-{number[2:]}"] *)
Definition hyphenate (number : pystr) : pystr :=
  slice_to 2 number ++ [HYPHEN] ++ slice_from 2 number.

Definition separators2 : pystr := Eval vm_compute in lit "-−".
Definition separators3 : pystr := Eval vm_compute in lit "-−ー".

(** OCR lines as the engine returns them: the recognised text and its
    confidence.  Confidences are finite floats, that is, rationals; the
    source only compares them. *)
Record ocr_line := OcrLine { line_text : pystr; line_confidence : Q }.

(** PaddleOCR returns a list of pages; a page without text is [None]. *)
Definition paddle_result := list (option (list ocr_line)).

(** [not result or not result[0]] *)
Definition first_page (result : paddle_result) : option (list ocr_line) :=
  match result with
  | Some (l :: ls) :: _ => Some (l :: ls)
  | _ => None
  end.

Definition Qgtb (a b : Q) : bool := negb (Qle_bool a b).

(** [0.5] and [0.3] as the doubles Python reads them. *)
Definition threshold_half : Q := 1 # 2.
Definition threshold_03 : Q := 5404319552844595 # 18014398509481984.

(** ** Exceptions and console output

    An exception is represented by its message, [str(e)].

    [print] encodes its line for [sys.stdout].  The stream is taken as
    Python opens it under a UTF-8 locale: encoding [utf-8], error handler
    [strict].  Every code point is then written except the surrogates
    U+D800..U+DFFF, on which the encoder raises [UnicodeEncodeError]; the
    message names the first run of surrogates of the line. *)

Definition exn := pystr.

Definition bind {A B : Type} (x : exn + A) (f : A -> exn + B) : exn + B :=
  match x with
  | inl e => inl e
  | inr a => f a
  end.

Definition is_surrogate (c : char) : bool := (55296 <=? c) && (c <=? 57343).

(** [str(n)] for a position. *)
Definition decimal (n : nat) : pystr := lit (NilZero.string_of_uint (Nat.to_uint n)).

Definition hex_digit (d : N) : char := if d <? 10 then 48 + d else 87 + d.

(** The escape [\uXXXX] of a code point below U+10000, as [repr] and the
    messages of the codecs write it. *)
Definition escape_u (c : char) : pystr :=
  [92; 117; hex_digit (c / 4096 mod 16); hex_digit (c / 256 mod 16);
   hex_digit (c / 16 mod 16); hex_digit (c mod 16)].

(** [str(e)] of the [UnicodeEncodeError] for a run of [n] surrogates that
    starts with [c] at position [start]. *)
Definition surrogates_not_allowed (c : char) (start n : nat) : exn :=
  if (n =? 1)%nat
  then lit "'utf-8' codec can't encode character '" ++ escape_u c ++
       lit "' in position " ++ decimal start ++ lit ": surrogates not allowed"
  else lit "'utf-8' codec can't encode characters in position " ++ decimal start ++
       lit "-" ++ decimal (start + n - 1) ++ lit ": surrogates not allowed".

(** [sys.stdout.write(line)], read from position [pos] on. *)
Fixpoint write_from (pos : nat) (line : pystr) : exn + unit :=
  match line with
  | [] => inr tt
  | c :: rest =>
      if is_surrogate c
      then inl (surrogates_not_allowed c pos (S (span is_surrogate rest)))
      else write_from (S pos) rest
  end.

(** [print(line)]: the line, then a line feed. *)
Definition print (line : pystr) : exn + unit := write_from 0 line.

(** [print(f"...{result}")]: a dictionary is formatted with [repr] of its
    keys and values, which writes a surrogate as its escape, so that the
    encoder meets surrogates in the literal part of the line only. *)
Definition print_with_dict (line : pystr) (result : plate) : exn + unit := print line.

(** ** [api/ocr.py] *)
Module Api.

(** The loop of [extract_text_from_paddle_result]: [texts.append(text)] for
    every line with [confidence > 0.5].  Every line of a PaddleOCR page is
    [[box, (text, confidence)]], so the guard [len(line) >= 2] holds. *)
Fixpoint collect (lines : list ocr_line) : list pystr :=
  match lines with
  | [] => []
  | line :: rest =>
      let text := line_text line in
      let confidence := line_confidence line in
      if Qgtb confidence threshold_half
      then text :: collect rest
      else collect rest
  end.

Definition extract_text_from_paddle_result (result : paddle_result) : pystr :=
  match first_page result with
  | None => []
  | Some lines => join [SPACE] (collect lines)
  end.

Definition regions : list pystr := Eval vm_compute in List.map lit
  ["品川"; "新宿"; "練馬"; "世田谷"; "杉並"; "江東"; "足立"; "葛飾"; "江戸川";
   "板橋"; "台東"; "墨田"; "荒川"; "北"; "豊島"; "中野"; "目黒"; "大田"; "港";
   "千代田"; "中央"; "文京"; "渋谷"; "横浜"; "川崎"; "相模"; "湘南"; "名古屋";
   "大阪"; "神戸"; "京都"; "福岡"; "札幌"; "仙台"; "広島"]%string.

Definition hiragana_list : pystr := Eval vm_compute in lit
  "あいうえおかきくけこさしすせそたちつてとなにぬねのはひふへほまみむめもやゆよらりるれろわをん".

(** [([^\d\s]{1,4})\s*(\d{3})\s*([あ-ん])\s*(\d{1,2}[-−]\d{2})] *)
Definition pattern1 : pattern :=
  [rep not_digit_space 1 4 1; star is_space; rep is_digit 3 3 2; star is_space;
   rep is_hiragana 1 1 3; star is_space;
   rep is_digit 1 2 4; rep (one_of separators2) 1 1 4; rep is_digit 2 2 4].

(** [([^\d\s]{1,4})\s*(\d{3})\s*([あ-ん])\s*(\d{4})] *)
Definition pattern2 : pattern :=
  [rep not_digit_space 1 4 1; star is_space; rep is_digit 3 3 2; star is_space;
   rep is_hiragana 1 1 3; star is_space; rep is_digit 4 4 4].

(** [f'([{hiragana_list}])'] *)
Definition hiragana_pattern : pattern := [rep (one_of hiragana_list) 1 1 1].

(** [(\d{1,2}[-−]\d{2})], [(\d{4})], [(\d{3})] *)
Definition number_patterns : list pattern :=
  [ [rep is_digit 1 2 1; rep (one_of separators2) 1 1 1; rep is_digit 2 2 1];
    [rep is_digit 4 4 1];
    [rep is_digit 3 3 1] ].

(** [for pattern in number_patterns: ... break] *)
Fixpoint number_loop (patterns : list pattern) (clean_text : pystr) (result : plate) : plate :=
  match patterns with
  | [] => result
  | pattern :: rest =>
      match search pattern clean_text with
      | Some m =>
          let num := group 1 m in
          if (length num =? 4)%nat && negb (contains [HYPHEN] num)
          then <["number" := hyphenate num]> result
          else if (length num =? 3)%nat
          then <["classification" := num]> result
          else <["number" := num]> result
      | None => number_loop rest clean_text result
      end
  end.

(** [' '.join(text.replace('\n', ' ').replace('\r', ' ').split())] *)
Definition clean (text : pystr) : pystr :=
  join [SPACE] (split (replace_char CR SPACE (replace_char LF SPACE text))).

(** The dictionary [parse_japanese_license_plate] computes: the statements
    of the function after its log line, which is the one statement that can
    raise (see [parse_japanese_license_plate_logged]). *)
Definition parse_japanese_license_plate (text : pystr) : plate :=
  let clean_text := clean text in
  let result := new_result clean_text in
  match search pattern1 clean_text with
  | Some match1 =>
      <["number" := group 4 match1]>
        (<["hiragana" := group 3 match1]>
           (<["classification" := group 2 match1]>
              (<["region" := group 1 match1]> result)))
  | None =>
      match search pattern2 clean_text with
      | Some match2 =>
          let number := group 4 match2 in
          <["number" := hyphenate number]>
            (<["hiragana" := group 3 match2]>
               (<["classification" := group 2 match2]>
                  (<["region" := group 1 match2]> result)))
      | None =>
          let result := find_region regions clean_text result in
          let result :=
            match search hiragana_pattern clean_text with
            | Some hiragana_match => <["hiragana" := group 1 hiragana_match]> result
            | None => result
            end in
          number_loop number_patterns clean_text result
      end
  end.

(** The call of [parse_japanese_license_plate] with its console output:
    [print(f"パース対象テキスト: {text}")] comes first. *)
Definition parse_japanese_license_plate_logged (text : pystr) : exn + plate :=
  bind (print (lit "パース対象テキスト: " ++ text)) (fun _ =>
  inr (parse_japanese_license_plate text)).

End Api.

(** ** Ordering of [(confidence, text)] tuples *)

(** [a < b] on [str]: lexicographic on code points. *)
Fixpoint str_lt (a b : pystr) : bool :=
  match a, b with
  | _, [] => false
  | [], _ :: _ => true
  | x :: a', y :: b' => if x =? y then str_lt a' b' else x <? y
  end.

(** [a < b] on tuples: the first components decide unless they are equal. *)
Definition tuple_lt (a b : Q * pystr) : bool :=
  if Qeq_bool (fst a) (fst b) then str_lt (snd a) (snd b)
  else negb (Qle_bool (fst b) (fst a)).

(** [sorted(l)]: Python's sort is stable and only uses [<]. *)
Fixpoint insert_sorted (x : Q * pystr) (l : list (Q * pystr)) : list (Q * pystr) :=
  match l with
  | [] => [x]
  | y :: r => if tuple_lt y x then y :: insert_sorted x r else x :: y :: r
  end.

Fixpoint sorted (l : list (Q * pystr)) : list (Q * pystr) :=
  match l with
  | [] => []
  | x :: r => insert_sorted x (sorted r)
  end.

(** [sorted(l, reverse=True)]: reverse, sort, reverse (which keeps the
    original order of equal elements). *)
Definition sorted_reverse (l : list (Q * pystr)) : list (Q * pystr) :=
  rev (sorted (rev l)).

(** ** [backend/app.py] *)
Module Backend.

(** The loop of [extract_text_from_paddle_result]: the texts and the
    confidences of the lines with [confidence > 0.3], in two lists. *)
Fixpoint collect (lines : list ocr_line) : list pystr * list Q :=
  match lines with
  | [] => ([], [])
  | line :: rest =>
      let text := line_text line in
      let confidence := line_confidence line in
      let '(texts, confidences) := collect rest in
      if Qgtb confidence threshold_03
      then (text :: texts, confidence :: confidences)
      else (texts, confidences)
  end.

(** [[text for _, text in sorted(zip(confidences, texts), reverse=True)]] *)
Definition sorted_texts (texts : list pystr) (confidences : list Q) : list pystr :=
  List.map snd (sorted_reverse (List.combine confidences texts)).

Definition extract_text_from_paddle_result (result : paddle_result) : pystr :=
  match first_page result with
  | None => []
  | Some lines =>
      let '(texts, confidences) := collect lines in
      let final_text := join [SPACE] (sorted_texts texts confidences) in
      final_text
  end.

Definition regions : list pystr := Eval vm_compute in List.map lit
  ["品川"; "練馬"; "足立"; "杉並"; "世田谷"; "江東"; "葛飾"; "江戸川"; "板橋";
   "台東"; "墨田"; "荒川"; "北"; "豊島"; "中野"; "目黒"; "大田"; "港";
   "千代田"; "中央"; "文京"; "新宿"; "渋谷";
   "横浜"; "川崎"; "相模"; "湘南"; "千葉"; "習志野"; "袖ケ浦"; "野田";
   "水戸"; "土浦"; "つくば"; "宇都宮"; "とちぎ"; "那須"; "前橋"; "高崎";
   "大阪"; "なにわ"; "和泉"; "堺"; "神戸"; "姫路"; "京都"; "奈良"; "滋賀";
   "名古屋"; "尾張小牧"; "一宮"; "春日井"; "豊田"; "岡崎"; "豊橋"; "静岡"; "浜松";
   "金沢"; "富山"; "福井"; "長野"; "松本"; "諏訪"; "山梨"; "甲府";
   "札幌"; "函館"; "旭川"; "釧路"; "帯広"; "仙台"; "宮城"; "福島"; "郡山"; "いわき";
   "新潟"; "長岡"; "福岡"; "北九州"; "筑豊"; "久留米"; "佐賀"; "長崎"; "熊本";
   "大分"; "宮崎"; "鹿児島"; "沖縄"; "広島"; "福山"; "岡山"; "倉敷"; "山口";
   "下関"; "鳥取"; "島根"; "松江"; "徳島"; "香川"; "高知"; "愛媛"; "松山"]%string.

(** [([^\d\s]{1,5})\s*(\d{3})\s*([あ-ん])\s*(\d{1,2}[-−ー]\d{2})] *)
Definition pattern1 : pattern :=
  [rep not_digit_space 1 5 1; star is_space; rep is_digit 3 3 2; star is_space;
   rep is_hiragana 1 1 3; star is_space;
   rep is_digit 1 2 4; rep (one_of separators3) 1 1 4; rep is_digit 2 2 4].

(** [([^\d\s]{1,5})\s*(\d{3})\s*([あ-ん])\s*(\d{4})] *)
Definition pattern2 : pattern :=
  [rep not_digit_space 1 5 1; star is_space; rep is_digit 3 3 2; star is_space;
   rep is_hiragana 1 1 3; star is_space; rep is_digit 4 4 4].

(** [([あ-ん])] *)
Definition hiragana_pattern : pattern := [rep is_hiragana 1 1 1].

(** [(\d{1,2}[-−ー]\d{2})], [(\d{4})], [(\d{3})] *)
Definition number_patterns : list pattern :=
  [ [rep is_digit 1 2 1; rep (one_of separators3) 1 1 1; rep is_digit 2 2 1];
    [rep is_digit 4 4 1];
    [rep is_digit 3 3 1] ].

(** [for i, pattern in enumerate(number_patterns): ... break] *)
Fixpoint number_loop (i : nat) (patterns : list pattern) (clean_text : pystr)
    (result : plate) : plate :=
  match patterns with
  | [] => result
  | pattern :: rest =>
      match search pattern clean_text with
      | Some m =>
          let num := group 1 m in
          if (i =? 0)%nat
          then <["number" := num]> result
          else if (i =? 1)%nat && (length num =? 4)%nat
          then <["number" := hyphenate num]> result
          else if (i =? 2)%nat && (length num =? 3)%nat
          then <["classification" := num]> result
          else result
      | None => number_loop (S i) rest clean_text result
      end
  end.

(** [re.sub(r'\s+', ' ', text.replace('\n', ' ').replace('\r', ' ')).strip()] *)
Definition clean (text : pystr) : pystr :=
  strip (sub_spaces (replace_char CR SPACE (replace_char LF SPACE text))).

(** The dictionary [parse_japanese_license_plate] computes: the statements
    of the function without its log lines, which are the statements that
    can raise (see [parse_japanese_license_plate_logged]). *)
Definition parse_japanese_license_plate (text : pystr) : plate :=
  let clean_text := clean text in
  let result := new_result clean_text in
  match search pattern1 clean_text with
  | Some m =>
      <["number" := group 4 m]>
        (<["hiragana" := group 3 m]>
           (<["classification" := group 2 m]>
              (<["region" := group 1 m]> result)))
  | None =>
      match search pattern2 clean_text with
      | Some m =>
          let number := group 4 m in
          <["number" := hyphenate number]>
            (<["hiragana" := group 3 m]>
               (<["classification" := group 2 m]>
                  (<["region" := group 1 m]> result)))
      | None =>
          let result := find_region regions clean_text result in
          let result :=
            match search hiragana_pattern clean_text with
            | Some hiragana_match => <["hiragana" := group 1 hiragana_match]> result
            | None => result
            end in
          number_loop 0 number_patterns clean_text result
      end
  end.

(** The loop over the regions with its log line,
    [print(f"🏘️ 地域名発見: {region}")]. *)
Fixpoint find_region_logged (regions : list pystr) (clean_text : pystr) (result : plate)
    : exn + plate :=
  match regions with
  | [] => inr result
  | region :: rest =>
      if contains region clean_text
      then let result := <["region" := region]> result in
           bind (print (lit "🏘️ 地域名発見: " ++ region)) (fun _ => inr result)
      else find_region_logged rest clean_text result
  end.

(** The loop over the number patterns with its log line,
    [print(f"🔢 数字パターン{i+1}発見: {num}")]. *)
Fixpoint number_loop_logged (i : nat) (patterns : list pattern) (clean_text : pystr)
    (result : plate) : exn + plate :=
  match patterns with
  | [] => inr result
  | pattern :: rest =>
      match search pattern clean_text with
      | Some m =>
          let num := group 1 m in
          let result :=
            if (i =? 0)%nat
            then <["number" := num]> result
            else if (i =? 1)%nat && (length num =? 4)%nat
            then <["number" := hyphenate num]> result
            else if (i =? 2)%nat && (length num =? 3)%nat
            then <["classification" := num]> result
            else result in
          bind (print (lit "🔢 数字パターン" ++ decimal (i + 1) ++ lit "発見: " ++ num))
            (fun _ => inr result)
      | None => number_loop_logged (S i) rest clean_text result
      end
  end.

(** The call of [parse_japanese_license_plate] with its console output. *)
Definition parse_japanese_license_plate_logged (text : pystr) : exn + plate :=
  bind (print (lit "🔍 パース対象: '" ++ text ++ lit "'")) (fun _ =>
  let clean_text := clean text in
  let result := new_result clean_text in
  match search pattern1 clean_text with
  | Some m =>
      let result :=
        <["number" := group 4 m]>
          (<["hiragana" := group 3 m]>
             (<["classification" := group 2 m]>
                (<["region" := group 1 m]> result))) in
      bind (print_with_dict (lit "✅ 完全マッチ: ") result) (fun _ => inr result)
  | None =>
      match search pattern2 clean_text with
      | Some m =>
          let number := group 4 m in
          let result :=
            <["number" := hyphenate number]>
              (<["hiragana" := group 3 m]>
                 (<["classification" := group 2 m]>
                    (<["region" := group 1 m]> result))) in
          bind (print_with_dict (lit "✅ ハイフンなしマッチ: ") result) (fun _ => inr result)
      | None =>
          bind (find_region_logged regions clean_text result) (fun result =>
          bind (match search hiragana_pattern clean_text with
                | Some hiragana_match =>
                    let result := <["hiragana" := group 1 hiragana_match]> result in
                    bind (print (lit "🔤 ひらがな発見: " ++ group 1 hiragana_match))
                      (fun _ => inr result)
                | None => inr result
                end) (fun result =>
          bind (number_loop_logged 0 number_patterns clean_text result) (fun result =>
          bind (print_with_dict (lit "🎯 最終パース結果: ") result) (fun _ =>
          inr result))))
      end
  end).

End Backend.

(** ** [backend/simple_app.py] *)
Module Simple.

Definition regions : list pystr := Eval vm_compute in List.map lit
  ["品川"; "練馬"; "横浜"; "名古屋"; "大阪"; "京都"; "神戸"; "福岡"]%string.

(** [(\d{1,2}[-−ー]?\d{2})] *)
Definition number_pattern : pattern :=
  [rep is_digit 1 2 1; rep (one_of separators3) 0 1 1; rep is_digit 2 2 1].

(** [([あ-ん])] *)
Definition hiragana_pattern : pattern := [rep is_hiragana 1 1 1].

(** [(\d{3})] *)
Definition class_pattern : pattern := [rep is_digit 3 3 1].

Definition clean (text : pystr) : pystr :=
  strip (sub_spaces (replace_char CR SPACE (replace_char LF SPACE text))).

(** The dictionary [parse_simple_plate] computes: the statements of the
    function after its log line, which is the one statement that can raise
    (see [parse_simple_plate_logged]). *)
Definition parse_simple_plate (text : pystr) : plate :=
  let clean_text := clean text in
  let result := new_result clean_text in
  let result := find_region regions clean_text result in
  let result :=
    match search number_pattern clean_text with
    | Some number_match => <["number" := group 1 number_match]> result
    | None => result
    end in
  let result :=
    match search hiragana_pattern clean_text with
    | Some hiragana_match => <["hiragana" := group 1 hiragana_match]> result
    | None => result
    end in
  let result :=
    match search class_pattern clean_text with
    | Some class_match => <["classification" := group 1 class_match]> result
    | None => result
    end in
  result.

(** The call of [parse_simple_plate] with its console output:
    [print(f"🔍 パース対象: '{text}'")] comes first. *)
Definition parse_simple_plate_logged (text : pystr) : exn + plate :=
  bind (print (lit "🔍 パース対象: '" ++ text ++ lit "'")) (fun _ =>
  inr (parse_simple_plate text)).

End Simple.

(** * Vocabulary of the statements *)

Definition text_of (m : re_match) : pystr := concat (List.map snd m).

(** The piece [gp] is a legal match of the atom [a]. *)
Definition atom_ok (a : atom) (gp : nat * pystr) : Prop :=
  fst gp = a_group a /\
  (a_min a <= length (snd gp))%nat /\
  (forall h, a_max a = Some h -> (length (snd gp) <= h)%nat) /\
  forallb (a_class a) (snd gp) = true.

Definition matches (p : pattern) (m : re_match) : Prop := Forall2 atom_ok p m.

(** [needle] occurs in [hay]. *)
Definition occurs_in (needle hay : pystr) : Prop :=
  exists pre post, hay = pre ++ needle ++ post.

Definition plate_keys : gset string :=
  {[ "region"; "classification"; "hiragana"; "number"; "full_text" ]}.

(** The white-space normalisation as the specification words it: line
    breaks become spaces, runs of white space collapse to one space, and the
    ends are trimmed. *)
Definition normalize_whitespace (text : pystr) : pystr :=
  strip (sub_spaces (replace_char CR SPACE (replace_char LF SPACE text))).

(** A dictionary with exactly the five keys whose [full_text] is [clean_text]. *)
Definition covers (clean_text : pystr) (result : plate) : Prop :=
  dom result = plate_keys /\ result !! "full_text" = Some clean_text.

(** No entry of the catalogue occurs in the text. *)
Definition no_region (regions : list pystr) (clean_text : pystr) : Prop :=
  forall r, In r regions -> ~ occurs_in r clean_text.

(** No character of the text lies in the class. *)
Definition no_char (cls : char -> bool) (clean_text : pystr) : Prop :=
  forall ch, In ch clean_text -> cls ch = false.

(** No legal match of the pattern occurs in the text. *)
Definition no_match (p : pattern) (clean_text : pystr) : Prop :=
  forall m, matches p m -> ~ occurs_in (text_of m) clean_text.

(** Exactly [n] digits. *)
Definition digits (n : nat) (s : pystr) : Prop :=
  length s = n /\ forallb is_digit s = true.

(** A serial as the patterns read it: one or two digits, one of the
    separators [seps], two digits. *)
Definition serial (seps : pystr) (s : pystr) : Prop :=
  exists d sep dd,
    s = d ++ [sep] ++ dd /\ (1 <= length d <= 2)%nat /\ forallb is_digit d = true /\
    In sep seps /\ digits 2 dd.

(** The shape [DD-DD]: two digits, an ASCII hyphen, two digits. *)
Definition dd_dd (s : pystr) : Prop :=
  exists a b c d,
    s = [a; b; HYPHEN; c; d] /\
    is_digit a = true /\ is_digit b = true /\ is_digit c = true /\ is_digit d = true.

(** A region as the full patterns capture it: one to [n] characters that
    are neither digits nor white space. *)
Definition region_run (n : nat) (s : pystr) : Prop :=
  (1 <= length s <= n)%nat /\ forallb not_digit_space s = true.

Definition one_hiragana (s : pystr) : Prop :=
  exists ch, s = [ch] /\ is_hiragana ch = true.

(** The two full patterns, with the bound of the region and the separators
    as the variants choose them. *)
Definition full_pattern1 (n : nat) (seps : pystr) : pattern :=
  [rep not_digit_space 1 n 1; star is_space; rep is_digit 3 3 2; star is_space;
   rep is_hiragana 1 1 3; star is_space;
   rep is_digit 1 2 4; rep (one_of seps) 1 1 4; rep is_digit 2 2 4].

Definition full_pattern2 (n : nat) : pattern :=
  [rep not_digit_space 1 n 1; star is_space; rep is_digit 3 3 2; star is_space;
   rep is_hiragana 1 1 3; star is_space; rep is_digit 4 4 4].

Definition serial_pattern (seps : pystr) : pattern :=
  [rep is_digit 1 2 1; rep (one_of seps) 1 1 1; rep is_digit 2 2 1].

(** The dictionary a full match fills: the four groups over a fresh result. *)
Definition record_of (clean_text region classification hiragana number : pystr) : plate :=
  <["number" := number]>
    (<["hiragana" := hiragana]>
       (<["classification" := classification]>
          (<["region" := region]> (new_result clean_text)))).

(** [r] is what the catalogue lookup yields on the text: the first entry,
    in the listed order, that occurs in it, or the empty string when no
    entry occurs. *)
Definition first_region (regions : list pystr) (clean_text r : pystr) : Prop :=
  (exists i, nth_error regions i = Some r /\ occurs_in r clean_text /\
             forall j r', (j < i)%nat -> nth_error regions j = Some r' ->
                          ~ occurs_in r' clean_text)
  \/ (r = [] /\ no_region regions clean_text).

(** [ch] is the first character of [s] that lies in the class. *)
Definition first_char (cls : char -> bool) (s : pystr) (ch : char) : Prop :=
  exists pre post, s = pre ++ ch :: post /\ no_char cls pre /\ cls ch = true.

(** The text has no digit. *)
Definition no_digit (s : pystr) : Prop := forallb (fun c => negb (is_digit c)) s = true.

(** The text has no white space. *)
Definition no_space (s : pystr) : Prop := forallb (fun c => negb (is_space c)) s = true.

Definition count_digits (s : pystr) : nat := length (List.filter is_digit s).

(** A scan for a second run of digits: state 0 before the first digit, 1 in
    the first run, 2 after it; the result tells whether a digit follows the
    first run. *)
Fixpoint digit_after_run (st : nat) (s : pystr) : bool :=
  match s with
  | [] => false
  | c :: r =>
      match st with
      | 0%nat => if is_digit c then digit_after_run 1 r else digit_after_run 0 r
      | 1%nat => if is_digit c then digit_after_run 1 r else digit_after_run 2 r
      | _ => if is_digit c then true else digit_after_run 2 r
      end
  end.

(** A serial whose separator may be missing, as [backend/simple_app.py]
    reads it: one or two digits, at most one separator, two digits. *)
Definition loose_serial (seps : pystr) (s : pystr) : Prop :=
  exists d sep dd,
    s = d ++ sep ++ dd /\ (1 <= length d <= 2)%nat /\ forallb is_digit d = true /\
    (sep = [] \/ exists c, sep = [c] /\ In c seps) /\ digits 2 dd.

(** The third tier of [api/ocr.py] found a serial of four characters
    without ASCII hyphen (one digit, U+2212, two digits). *)
Definition api_short_minus_serial (clean_text : pystr) : Prop :=
  search Api.pattern1 clean_text = None /\ search Api.pattern2 clean_text = None /\
  exists m, search (serial_pattern separators2) clean_text = Some m /\
            length (group 1 m) = 4%nat /\ contains [HYPHEN] (group 1 m) = false.

(** A field of the given shape, or the empty string. *)
Definition empty_or (shape : pystr -> Prop) (v : option pystr) : Prop :=
  exists s, v = Some s /\ (s = [] \/ shape s).

(** The lines of the first page, none when the result or the page is empty. *)
Definition page_lines (result : paddle_result) : list ocr_line :=
  match first_page result with
  | Some lines => lines
  | None => []
  end.

(** The lines whose confidence is above the threshold, in their order. *)
Definition survivors (threshold : Q) (lines : list ocr_line) : list ocr_line :=
  List.filter (fun line => Qgtb (line_confidence line) threshold) lines.

Definition pairs_of (lines : list ocr_line) : list (Q * pystr) :=
  List.map (fun line => (line_confidence line, line_text line)) lines.

(** No element is followed by one of greater confidence. *)
Definition confidence_descending (l : list (Q * pystr)) : Prop :=
  StronglySorted (fun a b => (fst b <= fst a)%Q) l.

(** No element is followed by a greater tuple. *)
Definition tuple_descending (l : list (Q * pystr)) : Prop :=
  StronglySorted (fun a b => tuple_lt a b = false) l.

(** A word: a non-empty text without white space. *)
Definition word (w : pystr) : Prop := w <> [] /\ no_space w.

(** The number is a piece of the text, or four characters of the text with
    a hyphen put in the middle. *)
Definition number_from_text (clean_text v : pystr) : Prop :=
  occurs_in v clean_text \/
  exists s, occurs_in s clean_text /\ length s = 4%nat /\ v = hyphenate s.

(** Every value of the dictionary is taken from the text. *)
Definition sourced (clean_text : pystr) (result : plate) : Prop :=
  (forall key v, result !! key = Some v -> key <> "number" -> occurs_in v clean_text) /\
  (forall v, result !! "number" = Some v -> number_from_text clean_text v).

(** Tuples that compare equal: the same confidence, as a rational, and the
    same text. *)
Definition same_tuple (a b : Q * pystr) : Prop := (fst a == fst b)%Q /\ snd a = snd b.

(** * The request handlers

    The handlers are embedded with their control flow; what they call
    outside of the repository (Flask's request, base64, PIL, numpy, OpenCV,
    the OCR engines) is a record of functions that may raise.  The log
    lines of the handlers themselves are left out: the answers are those of
    a run in which the console accepts every line. *)

(** [s.split(sep)] for a one-character separator: the pieces between the
    separators, empty pieces included; never the empty list. *)
Fixpoint split_on (sep : char) (s : pystr) : list pystr :=
  match s with
  | [] => [[]]
  | c :: r =>
      if c =? sep then [] :: split_on sep r
      else match split_on sep r with
           | w :: ws => (c :: w) :: ws
           | [] => [[c]]
           end
  end.

(** A Python value as the JSON decoder builds it: what
    [request.get_json()] returns, and what a body holds under a key. *)
#[local] Unset Elimination Schemes.
Inductive pyvalue :=
  | VNone
  | VBool (b : bool)
  | VInt (n : Z)
  | VFloat (f : spec_float)
  | VStr (s : pystr)
  | VList (l : list pyvalue)
  | VDict (d : gmap string pyvalue).
#[local] Set Elimination Schemes.

(** [type(v).__name__] *)
Definition type_name (v : pyvalue) : pystr :=
  match v with
  | VNone => lit "NoneType"
  | VBool _ => lit "bool"
  | VInt _ => lit "int"
  | VFloat _ => lit "float"
  | VStr _ => lit "str"
  | VList _ => lit "list"
  | VDict _ => lit "dict"
  end.

(** [bool(v)]: [None], [False], the zeros and the empty containers are
    false. *)
Definition truthy (v : pyvalue) : bool :=
  match v with
  | VNone => false
  | VBool b => b
  | VInt n => negb (n =? 0)%Z
  | VFloat f => match f with S754_zero _ => false | _ => true end
  | VStr s => match s with [] => false | _ => true end
  | VList l => match l with [] => false | _ => true end
  | VDict d => negb (bool_decide (dom d = ∅))
  end.

(** ['image' in data]: a substring test on a [str], a comparison with the
    elements of a [list], a key test on a [dict]; the other types are no
    containers and the test raises [TypeError].  The messages of the
    exceptions are those of CPython 3.11. *)
Definition contains_image (data : pyvalue) : exn + bool :=
  match data with
  | VStr s => inr (contains (lit "image") s)
  | VList l =>
      inr (existsb (fun v => match v with
                             | VStr s => bool_decide (s = lit "image")
                             | _ => false
                             end) l)
  | VDict d => inr (match d !! "image" with Some _ => true | None => false end)
  | v => inl (lit "argument of type '" ++ type_name v ++ lit "' is not iterable")
  end.

(** [data['image']] *)
Definition subscript_image (data : pyvalue) : exn + pyvalue :=
  match data with
  | VDict d =>
      match d !! "image" with
      | Some v => inr v
      | None => inl (lit "'image'")
      end
  | VStr _ => inl (lit "string indices must be integers, not 'str'")
  | VList _ => inl (lit "list indices must be integers or slices, not str")
  | v => inl (lit "'" ++ type_name v ++ lit "' object is not subscriptable")
  end.

Inductive http_method := POST | OPTIONS.

(** [request.method] and [request.get_json()]; the latter raises or returns
    the decoded body, any JSON value. *)
Record request := Request {
  method : http_method;
  get_json : exn + pyvalue
}.

(** Values of the JSON bodies the handlers build. *)
Inductive jvalue :=
  | JBool (b : bool)
  | JNum (n : Z)
  | JStr (s : pystr)
  | JPlate (p : plate).

(** [jsonify(body), status] with the headers the handler adds itself. *)
Record response := Response {
  status : Z;
  body : gmap string jvalue;
  headers : list (pystr * pystr)
}.

(** [if image_data.startswith('data:image'): image_data = image_data.split(',')[1]];
    [image_data] of another type than [str] has no [startswith], and a
    prefix without comma leaves [split] with one piece. *)
Definition image_payload (image_data : pyvalue) : exn + pystr :=
  match image_data with
  | VStr image_data =>
      if starts_with (lit "data:image") image_data
      then match nth_error (split_on 44 image_data) 1 with
           | Some piece => inr piece
           | None => inl (lit "list index out of range")
           end
      else inr image_data
  | v => inl (lit "'" ++ type_name v ++ lit "' object has no attribute 'startswith'")
  end.

(** The answer to the CORS preflight, the same in the three variants. *)
Definition preflight_response : response :=
  Response 200 {[ "status" := JStr (lit "ok") ]}
    [ (lit "Access-Control-Allow-Origin", lit "*");
      (lit "Access-Control-Allow-Methods", lit "POST, OPTIONS");
      (lit "Access-Control-Allow-Headers", lit "Content-Type") ].

(** The body of the [except Exception as e] branch. *)
Definition error_response (e : exn) : response :=
  Response 500
    (<["success" := JBool false]>
       (<["error" := JStr e]>
          (<["detected_text" := JStr []]>
             (<["confidence" := JNum 0]> ∅))))
    [].

Definition no_image_response (message : pystr) : response :=
  Response 400 (<["success" := JBool false]> (<["error" := JStr message]> ∅)) [].

(** [not data or 'image' not in data] *)
Definition no_image (data : pyvalue) : exn + bool :=
  if negb (truthy data) then inr true
  else bind (contains_image data) (fun found => inr (negb found)).

(** What PaddleOCR and the image libraries do for [api/ocr.py] and
    [backend/app.py]. *)
Record paddle_env := PaddleEnv {
  pe_bytes : Type;
  pe_image : Type;
  pe_array : Type;
  b64decode : pystr -> exn + pe_bytes;
  image_open : pe_bytes -> exn + pe_image;
  preprocess : pe_image -> exn + pe_array;
  ocr_ocr : pe_array -> exn + paddle_result;
  PADDLE_AVAILABLE : bool
}.

(** What Tesseract and the image libraries do for [backend/simple_app.py]. *)
Record tesseract_env := TesseractEnv {
  te_bytes : Type;
  te_image : Type;
  te_array : Type;
  te_b64decode : pystr -> exn + te_bytes;
  te_image_open : te_bytes -> exn + te_image;
  to_gray_array : te_image -> exn + te_array;
  binarize : te_array -> exn + te_array;
  image_to_string : te_array -> exn + pystr;
  TESSERACT_AVAILABLE : bool
}.

Module ApiHandler.

Definition success_response (available : bool) (detected_text : pystr) : response :=
  let plate_info := Api.parse_japanese_license_plate detected_text in
  Response 200
    (<["success" := JBool true]>
       (<["detected_text" := JStr detected_text]>
          (<["plate_info" := JPlate plate_info]>
             (<["confidence" := JNum (if available then 95 else 85)]> ∅))))
    [].

(** The body of the [try] of [ocr_endpoint]. *)
Definition try_body (env : paddle_env) (req : request) : exn + response :=
  bind (get_json req) (fun data =>
  bind (no_image data) (fun refused =>
  if refused then inr (no_image_response (lit "No image data provided"))
  else
      bind (subscript_image data) (fun image_data =>
      bind (image_payload image_data) (fun image_data =>
      bind (b64decode env image_data) (fun image_bytes =>
      bind (image_open env image_bytes) (fun image =>
      bind (if PADDLE_AVAILABLE env
            then bind (preprocess env image) (fun processed_image =>
                 bind (ocr_ocr env processed_image) (fun result =>
                 inr (Api.extract_text_from_paddle_result result)))
            else inr (lit "品川 500 あ 12-34")) (fun detected_text =>
      inr (success_response (PADDLE_AVAILABLE env) detected_text)))))))).

Definition ocr_endpoint (env : paddle_env) (req : request) : response :=
  match method req with
  | OPTIONS => preflight_response
  | POST =>
      match try_body env req with
      | inr r => r
      | inl e => error_response e
      end
  end.

End ApiHandler.

Module BackendHandler.

Definition success_response (detected_text : pystr) : response :=
  let plate_info := Backend.parse_japanese_license_plate detected_text in
  Response 200
    (<["success" := JBool true]>
       (<["detected_text" := JStr detected_text]>
          (<["plate_info" := JPlate plate_info]>
             (<["confidence" := JNum 95]>
                (<["ocr_engine" := JStr (lit "PaddleOCR")]>
                   (<["message" := JStr (lit "✅ 日本語車番認識完了")]> ∅))))))
    [].

(** The body of the [try] of [license_plate_ocr]. *)
Definition try_body (env : paddle_env) (req : request) : exn + response :=
  bind (get_json req) (fun data =>
  bind (no_image data) (fun refused =>
  if refused then inr (no_image_response (lit "画像データが提供されていません"))
  else
      bind (subscript_image data) (fun image_data =>
      bind (image_payload image_data) (fun image_data =>
      bind (b64decode env image_data) (fun image_bytes =>
      bind (image_open env image_bytes) (fun image =>
      if negb (PADDLE_AVAILABLE env)
      then inr (error_response (lit "PaddleOCRが利用できません"))
      else
        bind (preprocess env image) (fun processed_image =>
        bind (ocr_ocr env processed_image) (fun ocr_result =>
        let detected_text := Backend.extract_text_from_paddle_result ocr_result in
        inr (success_response detected_text))))))))).

Definition license_plate_ocr (env : paddle_env) (req : request) : response :=
  match method req with
  | OPTIONS => preflight_response
  | POST =>
      match try_body env req with
      | inr r => r
      | inl e => error_response e
      end
  end.

End BackendHandler.

Module SimpleHandler.

Definition success_response (detected_text : pystr) : response :=
  let plate_info := Simple.parse_simple_plate detected_text in
  Response 200
    (<["success" := JBool true]>
       (<["detected_text" := JStr detected_text]>
          (<["plate_info" := JPlate plate_info]>
             (<["confidence" := JNum 75]>
                (<["ocr_engine" := JStr (lit "Tesseract")]>
                   (<["message" := JStr (lit "✅ 車番認識完了（Tesseract版）")]> ∅))))))
    [].

(** The inner [try]: the recognised text, stripped, or the empty string
    when the engine raises. *)
Definition recognise (env : tesseract_env) (img_array : te_array env) : pystr :=
  match image_to_string env img_array with
  | inr detected_text => strip detected_text
  | inl ocr_error => []
  end.

(** The body of the outer [try] of [license_plate_ocr]. *)
Definition try_body (env : tesseract_env) (req : request) : exn + response :=
  bind (get_json req) (fun data =>
  bind (no_image data) (fun refused =>
  if refused then inr (no_image_response (lit "画像データが提供されていません"))
  else
      bind (subscript_image data) (fun image_data =>
      bind (image_payload image_data) (fun image_data =>
      bind (te_b64decode env image_data) (fun image_bytes =>
      bind (te_image_open env image_bytes) (fun image =>
      bind (to_gray_array env image) (fun img_array =>
      bind (if TESSERACT_AVAILABLE env then binarize env img_array else inr img_array)
           (fun img_array =>
      let detected_text := recognise env img_array in
      inr (success_response detected_text))))))))).

Definition license_plate_ocr (env : tesseract_env) (req : request) : response :=
  match method req with
  | OPTIONS => preflight_response
  | POST =>
      match try_body env req with
      | inr r => r
      | inl e => error_response e
      end
  end.

End SimpleHandler.

(** The shape the three handlers give to every answer to a POST: either
    200 with [success] true, the detected text and a plate dictionary of
    five keys whose [full_text] is the normalised detected text, or 400 or
    500 with [success] false, an error message and no plate. *)
Definition well_formed_response (r : response) : Prop :=
  (status r = 200%Z /\ body r !! "success" = Some (JBool true) /\
   body r !! "error" = None /\
   exists detected_text plate_info,
     body r !! "detected_text" = Some (JStr detected_text) /\
     body r !! "plate_info" = Some (JPlate plate_info) /\
     covers (normalize_whitespace detected_text) plate_info)
  \/
  ((status r = 400%Z \/ status r = 500%Z) /\ body r !! "success" = Some (JBool false) /\
   body r !! "plate_info" = None /\ exists e, body r !! "error" = Some (JStr e)).

(** The body holds no image for the handlers: it is [None], [False], a
    zero, a string in which [image] does not occur (the empty string
    included), a list without the element ['image'], or a dictionary without
    the key [image]. *)
Definition lacks_image (data : pyvalue) : Prop :=
  match data with
  | VNone => True
  | VBool b => b = false
  | VInt n => n = 0%Z
  | VFloat f => exists sign, f = S754_zero sign
  | VStr s => ~ occurs_in (lit "image") s
  | VList l => ~ In (VStr (lit "image")) l
  | VDict d => d !! "image" = None
  end.

(** The console can write the text: it holds no surrogate code point. *)
Definition printable (s : pystr) : Prop :=
  forallb (fun c => negb (is_surrogate c)) s = true.

(** Some legal match of the pattern occurs in the text. *)
Definition some_match (p : pattern) (clean_text : pystr) : Prop :=
  exists m, matches p m /\ occurs_in (text_of m) clean_text.

(** [(\d{n})] *)
Definition digits_pattern (n : nat) : pattern := [rep is_digit n n 1].

(** * Properties *)

(** ** Character classes *)

Lemma is_space_spec (c : char) : is_space c = true <-> In c whitespace_chars.
Proof.
  unfold is_space. rewrite existsb_exists. split.
  - intros (x & Hin & Heq). apply N.eqb_eq in Heq. now subst.
  - intros Hin. exists c. split; [assumption | apply N.eqb_refl].
Qed.

Lemma is_digit_spec (c : char) :
  is_digit c = true <-> exists z, In z digit_zeros /\ z <= c <= z + 9.
Proof.
  unfold is_digit. rewrite existsb_exists. split.
  - intros (z & Hin & H). apply andb_true_iff in H. destruct H as [H1 H2].
    apply N.leb_le in H1, H2. eauto.
  - intros (z & Hin & H1 & H2). exists z. split; [assumption |].
    apply andb_true_iff. split; now apply N.leb_le.
Qed.

Lemma space_not_digit (c : char) : is_space c = true -> is_digit c = false.
Proof.
  intros H. apply is_space_spec in H.
  assert (A : forallb (fun x => negb (is_digit x)) whitespace_chars = true) by now vm_compute.
  rewrite forallb_forall in A. specialize (A c H). now destruct (is_digit c).
Qed.

Lemma digit_not_space (c : char) : is_digit c = true -> is_space c = false.
Proof.
  intros H. destruct (is_space c) eqn:E; [| reflexivity].
  apply space_not_digit in E. congruence.
Qed.

Lemma hiragana_not_digit (c : char) : is_hiragana c = true -> is_digit c = false.
Proof.
  unfold is_hiragana, HIRA_A, HIRA_N. intros H.
  apply andb_true_iff in H. destruct H as [H1 H2]. apply N.leb_le in H1, H2.
  destruct (is_digit c) eqn:E; [| reflexivity].
  apply is_digit_spec in E. destruct E as (z & Hin & Hz).
  assert (A : forallb (fun z => (z + 9 <? 12354) || (12435 <? z)) digit_zeros = true)
    by now vm_compute.
  rewrite forallb_forall in A. specialize (A z Hin).
  apply orb_true_iff in A. destruct A as [A | A]; apply N.ltb_lt in A; lia.
Qed.

Lemma hiragana_not_space (c : char) : is_hiragana c = true -> is_space c = false.
Proof.
  intros H. destruct (is_space c) eqn:E; [| reflexivity].
  apply is_space_spec in E.
  assert (A : forallb (fun x => negb (is_hiragana x)) whitespace_chars = true) by now vm_compute.
  rewrite forallb_forall in A. specialize (A c E). rewrite H in A. discriminate.
Qed.

Lemma one_of_spec (cs : pystr) (c : char) : one_of cs c = true <-> In c cs.
Proof.
  unfold one_of. rewrite existsb_exists. split.
  - intros (x & Hin & Heq). apply N.eqb_eq in Heq. now subst.
  - intros Hin. exists c. split; [assumption | apply N.eqb_refl].
Qed.

Lemma separator_not_digit (c : char) : one_of separators3 c = true -> is_digit c = false.
Proof.
  intros H. apply one_of_spec in H. simpl in H.
  destruct H as [<- | [<- | [<- | []]]]; now vm_compute.
Qed.

Lemma separators2_in_3 (c : char) : one_of separators2 c = true -> one_of separators3 c = true.
Proof.
  intros H. apply one_of_spec in H. simpl in H.
  destruct H as [<- | [<- | []]]; now vm_compute.
Qed.

Lemma listed_hiragana_in_range (c : char) :
  one_of Api.hiragana_list c = true -> is_hiragana c = true.
Proof.
  intros H. apply one_of_spec in H.
  assert (A : forallb is_hiragana Api.hiragana_list = true) by now vm_compute.
  rewrite forallb_forall in A. now apply A.
Qed.

(** ** White-space normalisation *)

Lemma lstrip_app_single (l : pystr) (c : char) :
  lstrip (l ++ [c]) =
  match lstrip l with
  | [] => if is_space c then [] else [c]
  | _ :: _ => lstrip l ++ [c]
  end.
Proof.
  induction l as [| x l IH]; simpl.
  - now destruct (is_space c).
  - destruct (is_space x); [exact IH | reflexivity].
Qed.

Lemma rstrip_cons (c : char) (t : pystr) :
  rstrip (c :: t) =
  match rstrip t with
  | [] => if is_space c then [] else [c]
  | _ :: _ => c :: rstrip t
  end.
Proof.
  unfold rstrip. simpl rev at 2. rewrite lstrip_app_single.
  destruct (lstrip (rev t)) as [| y l] eqn:E.
  - simpl. now destruct (is_space c).
  - rewrite rev_app_distr. change (rev [c]) with [c].
    remember (rev (y :: l)) as q eqn:E'. destruct q; [| reflexivity].
    apply (f_equal (@length _)) in E'. rewrite length_rev in E'. discriminate.
Qed.

Lemma rstrip_cons_nonspace (c : char) (t : pystr) :
  is_space c = false -> rstrip (c :: t) = c :: rstrip t.
Proof.
  intros H. rewrite rstrip_cons, H. now destruct (rstrip t).
Qed.

Lemma lstrip_sub_spaces_true (s : pystr) :
  lstrip (sub_spaces_from true s) = sub_spaces_from true s.
Proof.
  induction s as [| c r IH]; simpl; [reflexivity |].
  destruct (is_space c) eqn:E; [exact IH |]. simpl. now rewrite E.
Qed.

Lemma split_from_nonempty (s cur : pystr) : Forall (fun w => w <> []) (split_from cur s).
Proof.
  assert (R : forall x (l : pystr), rev (x :: l) <> []).
  { intros x l H. apply (f_equal (@length _)) in H. rewrite length_rev in H. discriminate. }
  revert cur. induction s as [| c r IH]; intros cur; simpl.
  - destruct cur; constructor; [apply R | constructor].
  - destruct (is_space c); [| apply IH].
    destruct cur; [apply IH |]. constructor; [apply R | apply IH].
Qed.

Lemma join_nil_iff (ws : list pystr) :
  Forall (fun w => w <> []) ws -> join [SPACE] ws = [] -> ws = [].
Proof.
  intros H. destruct ws as [| w ws]; [reflexivity |].
  inversion H as [| ? ? Hw _]; subst. simpl.
  destruct ws; destruct w; simpl; congruence.
Qed.

Lemma join_cons2 (sep a b : pystr) (l : list pystr) :
  join sep (a :: b :: l) = a ++ sep ++ join sep (b :: l).
Proof. reflexivity. Qed.

Lemma space_is_space : is_space SPACE = true.
Proof. reflexivity. Qed.

(** The two ways of the source to normalise white space agree: collapsing
    the runs and stripping is joining the words. *)
Lemma strip_sub_spaces_words (s : pystr) :
  (forall cur, cur <> [] -> rev cur ++ rstrip (sub_spaces_from false s) = join [SPACE] (split_from cur s))
  /\ rstrip (lstrip (sub_spaces_from false s)) = join [SPACE] (split s)
  /\ rstrip (lstrip (sub_spaces_from true s)) = join [SPACE] (split s).
Proof.
  unfold split. induction s as [| c r (IHA & IHB & IHC)].
  - simpl. split; [| split; reflexivity].
    intros [| x cur] Hne; [congruence |]. simpl. now rewrite app_nil_r.
  - simpl. destruct (is_space c) eqn:E.
    + split; [| split].
      * intros [| x cur] Hne; [congruence |].
        rewrite rstrip_cons, space_is_space.
        rewrite lstrip_sub_spaces_true in IHC. rewrite IHC.
        pose proof (split_from_nonempty r []) as Hw.
        destruct (split_from [] r) as [| w ws] eqn:Es.
        -- simpl. now rewrite app_nil_r.
        -- destruct (join [SPACE] (w :: ws)) eqn:Ej.
           ++ apply join_nil_iff in Ej; [discriminate | assumption].
           ++ rewrite join_cons2, Ej. reflexivity.
      * change (lstrip (SPACE :: ?t)) with (lstrip t). exact IHC.
      * exact IHC.
    + assert (G : rstrip (c :: sub_spaces_from false r) = join [SPACE] (split_from [c] r)).
      { rewrite rstrip_cons_nonspace by assumption.
        specialize (IHA [c]). simpl in IHA. apply IHA. congruence. }
      split; [| split].
      * intros cur Hne. rewrite rstrip_cons_nonspace by assumption.
        specialize (IHA (c :: cur)). simpl in IHA. rewrite <- IHA by congruence.
        now rewrite <- app_assoc.
      * simpl. rewrite E. exact G.
      * simpl. rewrite E. exact G.
Qed.

Lemma clean_variants_agree (text : pystr) : Api.clean text = Backend.clean text.
Proof.
  unfold Api.clean, Backend.clean, strip, sub_spaces.
  symmetry. apply strip_sub_spaces_words.
Qed.

(** ** The matcher against a declarative reading of the patterns *)


Lemma span_le_length (cls : char -> bool) (s : pystr) : (span cls s <= length s)%nat.
Proof. induction s as [| c r IH]; simpl; [lia |]. destruct (cls c); simpl; lia. Qed.

Lemma span_firstn (cls : char -> bool) (s : pystr) (k : nat) :
  (k <= span cls s)%nat -> forallb cls (firstn k s) = true.
Proof.
  revert k. induction s as [| c r IH]; intros k Hk; simpl in *.
  - now destruct k.
  - destruct k; [reflexivity |]. destruct (cls c) eqn:E; [| lia].
    simpl. rewrite E. apply IH. lia.
Qed.

Lemma span_app_ge (cls : char -> bool) (piece rest : pystr) :
  forallb cls piece = true -> (length piece <= span cls (piece ++ rest))%nat.
Proof.
  induction piece as [| c r IH]; simpl; [lia |].
  intros H. apply andb_true_iff in H. destruct H as [Hc Hr].
  rewrite Hc. specialize (IH Hr). lia.
Qed.

Lemma cap_le (hi : option nat) (n : nat) : (cap hi n <= n)%nat.
Proof. destruct hi; simpl; lia. Qed.

Lemma cap_bound (hi : option nat) (n h : nat) : hi = Some h -> (cap hi n <= h)%nat.
Proof. intros ->. simpl. lia. Qed.

Lemma backtrack_sound (k : pystr -> option re_match) (g lo : nat) (s : pystr) (d : nat)
    (m : re_match) :
  backtrack k g lo s d = Some m ->
  exists j m', (j <= d)%nat /\ k (skipn (lo + j) s) = Some m' /\
               m = (g, firstn (lo + j) s) :: m'.
Proof.
  induction d as [| d IH]; simpl.
  - destruct (k (skipn (lo + 0) s)) as [m' |] eqn:E; [| discriminate].
    intros [= <-]. exists 0%nat, m'. auto.
  - destruct (k (skipn (lo + S d) s)) as [m' |] eqn:E.
    + intros [= <-]. exists (S d), m'. auto.
    + intros H. destruct (IH H) as (j & m' & Hj & Hk & ->).
      exists j, m'. split; [lia | auto].
Qed.

Lemma backtrack_complete (k : pystr -> option re_match) (g lo : nat) (s : pystr)
    (d j : nat) :
  (j <= d)%nat -> k (skipn (lo + j) s) <> None -> backtrack k g lo s d <> None.
Proof.
  induction d as [| d IH]; simpl; intros Hj Hk.
  - assert (j = 0)%nat as -> by lia.
    destruct (k (skipn (lo + 0) s)); congruence.
  - destruct (k (skipn (lo + S d) s)) eqn:E; [congruence |].
    apply IH; [| assumption].
    destruct (Nat.eq_dec j (S d)) as [-> | Hne]; [congruence | lia].
Qed.

(** The greedy choice: no longer repetition of the first atom lets the rest
    of the pattern match. *)
Lemma backtrack_greedy (k : pystr -> option re_match) (g lo : nat) (s : pystr) (d : nat)
    (piece : pystr) (m : re_match) :
  backtrack k g lo s d = Some ((g, piece) :: m) ->
  (length piece <= length s)%nat ->
  forall j, (length piece < lo + j)%nat -> (j <= d)%nat -> (lo + j <= length s)%nat ->
            k (skipn (lo + j) s) = None.
Proof.
  induction d as [| d IH]; simpl; intros H Hlen j Hj Hd Hs.
  - assert (j = 0)%nat as -> by lia.
    destruct (k (skipn (lo + 0) s)) eqn:E; [| reflexivity].
    injection H as Hp _. rewrite <- Hp in Hj. rewrite length_firstn in Hj. lia.
  - destruct (k (skipn (lo + S d) s)) eqn:E.
    + injection H as Hp _. rewrite <- Hp in Hj. rewrite length_firstn in Hj. lia.
    + destruct (Nat.eq_dec j (S d)) as [-> | Hne]; [assumption |].
      apply (IH H Hlen); lia.
Qed.

Lemma match_here_sound (p : pattern) (s : pystr) (m : re_match) :
  match_here p s = Some m -> matches p m /\ exists rest, s = text_of m ++ rest.
Proof.
  revert s m. induction p as [| a p IH]; intros s m; simpl.
  - intros [= <-]. split; [constructor | now exists s].
  - destruct (cap (a_max a) (span (a_class a) s) <? a_min a)%nat eqn:E; [discriminate |].
    apply Nat.ltb_ge in E. intros H.
    apply backtrack_sound in H. destruct H as (j & m' & Hj & Hk & ->).
    destruct (IH _ _ Hk) as (Hm & rest & Hrest).
    pose proof (cap_le (a_max a) (span (a_class a) s)) as Hc.
    pose proof (span_le_length (a_class a) s) as Hl.
    split.
    + constructor; [| assumption]. unfold atom_ok; simpl.
      rewrite length_firstn. repeat split.
      * lia.
      * intros h Hh. pose proof (cap_bound _ (span (a_class a) s) _ Hh). lia.
      * apply span_firstn. lia.
    + exists rest. unfold text_of in *. simpl. rewrite <- app_assoc, <- Hrest.
      symmetry. apply firstn_skipn.
Qed.

Lemma match_here_complete (p : pattern) (s : pystr) (m : re_match) (rest : pystr) :
  matches p m -> s = text_of m ++ rest -> match_here p s <> None.
Proof.
  revert s m rest. induction p as [| a p IH]; intros s m rest Hm Hs; simpl.
  - discriminate.
  - inversion Hm as [| ? [g piece] ? m' Ha Hm']; subst.
    destruct Ha as (Hg & Hlo & Hhi & Hcls). simpl in *.
    unfold text_of. simpl. rewrite <- app_assoc.
    fold (text_of m').
    pose proof (span_app_ge (a_class a) piece (text_of m' ++ rest) Hcls) as Hsp.
    assert (Hcap : (length piece <= cap (a_max a) (span (a_class a) (piece ++ text_of m' ++ rest)))%nat).
    { destruct (a_max a) as [h |] eqn:Eh; simpl; [| assumption].
      specialize (Hhi h eq_refl). lia. }
    destruct (_ <? a_min a)%nat eqn:E; [apply Nat.ltb_lt in E; lia |].
    apply (backtrack_complete _ _ _ _ _ (length piece - a_min a)); [lia |].
    replace (a_min a + (length piece - a_min a))%nat with (length piece) by lia.
    rewrite skipn_app, skipn_all, Nat.sub_diag. simpl.
    now apply (IH _ m' rest).
Qed.

Lemma search_sound (p : pattern) (s : pystr) (m : re_match) :
  search p s = Some m -> matches p m /\ occurs_in (text_of m) s.
Proof.
  induction s as [| c r IH]; simpl.
  - destruct (match_here p []) eqn:E; [| discriminate].
    intros [= <-]. apply match_here_sound in E. destruct E as (Hm & rest & Hr).
    split; [assumption |]. exists [], rest. exact Hr.
  - destruct (match_here p (c :: r)) eqn:E.
    + intros [= <-]. apply match_here_sound in E. destruct E as (Hm & rest & Hr).
      split; [assumption |]. exists [], rest. exact Hr.
    + intros H. destruct (IH H) as (Hm & pre & post & Hr).
      split; [assumption |]. exists (c :: pre), post. simpl. now rewrite Hr.
Qed.

Lemma search_complete (p : pattern) (s : pystr) (m : re_match) :
  matches p m -> occurs_in (text_of m) s -> search p s <> None.
Proof.
  intros Hm (pre & post & ->). induction pre as [| c pre IH]; simpl.
  - pose proof (match_here_complete p (text_of m ++ post) m post Hm eq_refl) as H.
    destruct (text_of m ++ post); simpl; destruct (match_here p _); congruence.
  - destruct (match_here p (c :: pre ++ text_of m ++ post)); [discriminate | exact IH].
Qed.

(** A pattern finds nothing exactly when no legal match occurs in the text. *)
Lemma search_none_iff (p : pattern) (s : pystr) :
  search p s = None <-> forall m, matches p m -> ~ occurs_in (text_of m) s.
Proof.
  split.
  - intros H m Hm Ho. now apply (search_complete p s m Hm Ho).
  - intros H. destruct (search p s) as [m |] eqn:E; [| reflexivity].
    apply search_sound in E. destruct E as [Hm Ho]. now destruct (H m Hm Ho).
Qed.

(** ** The result dictionary keeps its five keys *)


Lemma covers_new (clean_text : pystr) : covers clean_text (new_result clean_text).
Proof.
  unfold covers, new_result, plate_keys. split.
  - rewrite !dom_insert_L, dom_empty_L. set_solver.
  - now rewrite lookup_insert_eq.
Qed.

Lemma covers_insert (clean_text : pystr) (result : plate) (key : string) (v : pystr) :
  key ∈ plate_keys -> key <> "full_text" ->
  covers clean_text result -> covers clean_text (<[key := v]> result).
Proof.
  intros Hk Hne [Hd Hf]. split.
  - rewrite dom_insert_L, Hd. apply subseteq_union_1_L.
    now apply singleton_subseteq_l.
  - now rewrite lookup_insert_ne.
Qed.

Ltac plate_key := first [ unfold plate_keys; set_solver | discriminate ].

Lemma covers_find_region (regions : list pystr) (clean_text c : pystr) (result : plate) :
  covers c result -> covers c (find_region regions clean_text result).
Proof.
  intros H. induction regions as [| r rs IH]; simpl; [assumption |].
  destruct (contains r clean_text); [| assumption].
  apply covers_insert; [plate_key | plate_key | assumption].
Qed.

Lemma find_region_other (regions : list pystr) (clean_text : pystr) (result : plate)
    (key : string) :
  key <> "region" -> find_region regions clean_text result !! key = result !! key.
Proof.
  intros Hne. induction regions as [| r rs IH]; simpl; [reflexivity |].
  destruct (contains r clean_text); [| assumption].
  now rewrite lookup_insert_ne.
Qed.

Lemma covers_api_number_loop (ps : list pattern) (clean_text c : pystr) (result : plate) :
  covers c result -> covers c (Api.number_loop ps clean_text result).
Proof.
  intros H. induction ps as [| p ps IH]; simpl; [assumption |].
  destruct (search p clean_text); [| assumption].
  repeat match goal with |- context [if ?b then _ else _] => destruct b end;
    (apply covers_insert; [plate_key | plate_key | assumption]).
Qed.

Lemma covers_backend_number_loop (ps : list pattern) (i : nat) (clean_text c : pystr)
    (result : plate) :
  covers c result -> covers c (Backend.number_loop i ps clean_text result).
Proof.
  intros H. revert i. induction ps as [| p ps IH]; intros i; simpl; [assumption |].
  destruct (search p clean_text); [| apply IH].
  repeat match goal with |- context [if ?b then _ else _] => destruct b end;
    try assumption; (apply covers_insert; [plate_key | plate_key | assumption]).
Qed.

Lemma api_number_loop_other (ps : list pattern) (clean_text : pystr) (result : plate)
    (key : string) :
  key <> "number" -> key <> "classification" ->
  Api.number_loop ps clean_text result !! key = result !! key.
Proof.
  intros H1 H2. induction ps as [| p ps IH]; simpl; [reflexivity |].
  destruct (search p clean_text); [| assumption].
  repeat match goal with |- context [if ?b then _ else _] => destruct b end;
    now rewrite lookup_insert_ne.
Qed.

Lemma backend_number_loop_other (ps : list pattern) (i : nat) (clean_text : pystr)
    (result : plate) (key : string) :
  key <> "number" -> key <> "classification" ->
  Backend.number_loop i ps clean_text result !! key = result !! key.
Proof.
  intros H1 H2. revert i. induction ps as [| p ps IH]; intros i; simpl; [reflexivity |].
  destruct (search p clean_text); [| apply IH].
  repeat match goal with |- context [if ?b then _ else _] => destruct b end;
    try reflexivity; now rewrite lookup_insert_ne.
Qed.

Lemma api_number_loop_none (ps : list pattern) (clean_text : pystr) (result : plate) :
  (forall p, In p ps -> search p clean_text = None) ->
  Api.number_loop ps clean_text result = result.
Proof.
  induction ps as [| p ps IH]; simpl; intros H; [reflexivity |].
  rewrite (H p) by now left. apply IH. intros q Hq. apply H. now right.
Qed.

Lemma backend_number_loop_none (ps : list pattern) (i : nat) (clean_text : pystr)
    (result : plate) :
  (forall p, In p ps -> search p clean_text = None) ->
  Backend.number_loop i ps clean_text result = result.
Proof.
  revert i. induction ps as [| p ps IH]; simpl; intros i H; [reflexivity |].
  rewrite (H p) by now left. apply IH. intros q Hq. apply H. now right.
Qed.

Lemma covers_api (text : pystr) :
  covers (Api.clean text) (Api.parse_japanese_license_plate text).
Proof.
  unfold Api.parse_japanese_license_plate. cbv zeta.
  pose proof (covers_new (Api.clean text)) as H0.
  destruct (search Api.pattern1 _).
  { repeat (apply covers_insert; [plate_key | plate_key |]). assumption. }
  destruct (search Api.pattern2 _).
  { repeat (apply covers_insert; [plate_key | plate_key |]). assumption. }
  apply covers_api_number_loop.
  destruct (search Api.hiragana_pattern _);
    [apply covers_insert; [plate_key | plate_key |] |];
    now apply covers_find_region.
Qed.

Lemma covers_backend (text : pystr) :
  covers (Backend.clean text) (Backend.parse_japanese_license_plate text).
Proof.
  unfold Backend.parse_japanese_license_plate. cbv zeta.
  pose proof (covers_new (Backend.clean text)) as H0.
  destruct (search Backend.pattern1 _).
  { repeat (apply covers_insert; [plate_key | plate_key |]). assumption. }
  destruct (search Backend.pattern2 _).
  { repeat (apply covers_insert; [plate_key | plate_key |]). assumption. }
  apply covers_backend_number_loop.
  destruct (search Backend.hiragana_pattern _);
    [apply covers_insert; [plate_key | plate_key |] |];
    now apply covers_find_region.
Qed.

Lemma covers_simple (text : pystr) :
  covers (Simple.clean text) (Simple.parse_simple_plate text).
Proof.
  unfold Simple.parse_simple_plate. cbv zeta.
  pose proof (covers_new (Simple.clean text)) as H0.
  destruct (search Simple.class_pattern _);
    [apply covers_insert; [plate_key | plate_key |] |];
  (destruct (search Simple.hiragana_pattern _);
    [apply covers_insert; [plate_key | plate_key |] |]);
  (destruct (search Simple.number_pattern _);
    [apply covers_insert; [plate_key | plate_key |] |]);
  now apply covers_find_region.
Qed.

(** ** Substring test and single-character search *)

Lemma starts_with_spec (needle hay : pystr) :
  starts_with needle hay = true <-> exists post, hay = needle ++ post.
Proof.
  revert hay. induction needle as [| a n IH]; intros hay; simpl.
  - split; [intros _; now exists hay | reflexivity].
  - destruct hay as [| b h].
    + split; [discriminate | intros (post & H); discriminate].
    + rewrite andb_true_iff, N.eqb_eq, IH. split.
      * intros (-> & post & ->). now exists post.
      * intros (post & [= -> ->]). split; [reflexivity | now exists post].
Qed.

Lemma contains_spec (needle hay : pystr) :
  contains needle hay = true <-> occurs_in needle hay.
Proof.
  unfold occurs_in. induction hay as [| b h IH]; simpl.
  - rewrite orb_false_r, starts_with_spec. split.
    + intros (post & H). now exists [], post.
    + intros (pre & post & H). destruct pre; [now exists post |].
      discriminate.
  - rewrite orb_true_iff, starts_with_spec, IH. split.
    + intros [(post & H) | (pre & post & H)].
      * now exists [], post.
      * exists (b :: pre), post. simpl. now rewrite H.
    + intros (pre & post & H). destruct pre as [| x pre]; simpl in H.
      * left. now exists post.
      * right. injection H as _ H. now exists pre, post.
Qed.

Lemma contains_false_iff (needle hay : pystr) :
  contains needle hay = false <-> ~ occurs_in needle hay.
Proof.
  rewrite <- contains_spec. destruct (contains needle hay); split; congruence.
Qed.

Lemma no_region_spec (regions : list pystr) (clean_text : pystr) :
  no_region regions clean_text <-> forall r, In r regions -> contains r clean_text = false.
Proof.
  unfold no_region. split; intros H r Hr; apply contains_false_iff; auto.
Qed.

Lemma no_match_spec (p : pattern) (clean_text : pystr) :
  no_match p clean_text <-> search p clean_text = None.
Proof. unfold no_match. symmetry. apply search_none_iff. Qed.

(** A one-character pattern finds the first character of the class. *)
Lemma search_single_class (cls : char -> bool) (g : nat) (s : pystr) :
  search [rep cls 1 1 g] s =
  match List.find cls s with
  | Some ch => Some [(g, [ch])]
  | None => None
  end.
Proof.
  induction s as [| ch r IH]; [reflexivity |].
  simpl. destruct (cls ch) eqn:E; [reflexivity |]. simpl. exact IH.
Qed.

Lemma find_none_iff (cls : char -> bool) (s : pystr) :
  List.find cls s = None <-> no_char cls s.
Proof.
  unfold no_char. split.
  - intros H ch Hin. now apply (find_none cls s H).
  - intros H. induction s as [| ch r IH]; [reflexivity |]. simpl.
    rewrite (H ch) by now left. apply IH. intros x Hx. apply H. now right.
Qed.

Lemma new_result_lookup (clean_text : pystr) (key : string) :
  key ∈ plate_keys -> key <> "full_text" -> new_result clean_text !! key = Some [].
Proof.
  unfold plate_keys, new_result. intros Hk Hne.
  rewrite lookup_insert_ne by congruence.
  repeat (rewrite lookup_insert; case_decide; [reflexivity |]).
  rewrite !elem_of_union, !elem_of_singleton in Hk. intuition congruence.
Qed.

(** ** The third tier, field by field *)

Lemma find_region_lookup (regions : list pystr) (clean_text : pystr) (result : plate) :
  find_region regions clean_text result !! "region" =
  match List.find (fun r => contains r clean_text) regions with
  | Some r => Some r
  | None => result !! "region"
  end.
Proof.
  induction regions as [| r rs IH]; simpl; [reflexivity |].
  destruct (contains r clean_text); [apply lookup_insert_eq | exact IH].
Qed.

Lemma group_single (g : nat) (piece : pystr) : group g [(g, piece)] = piece.
Proof. simpl. rewrite Nat.eqb_refl. apply app_nil_r. Qed.

Section Tier3.

Variable text : pystr.

Lemma backend_tier3_region :
  search Backend.pattern1 (Backend.clean text) = None ->
  search Backend.pattern2 (Backend.clean text) = None ->
  Backend.parse_japanese_license_plate text !! "region" =
  Some (match List.find (fun r => contains r (Backend.clean text)) Backend.regions with
        | Some r => r
        | None => []
        end).
Proof.
  intros H1 H2. unfold Backend.parse_japanese_license_plate. cbv zeta.
  rewrite H1, H2, backend_number_loop_other by discriminate.
  destruct (search Backend.hiragana_pattern _);
    [rewrite lookup_insert_ne by discriminate |];
    rewrite find_region_lookup;
    (destruct (List.find _ Backend.regions); [reflexivity |]);
    apply new_result_lookup; plate_key.
Qed.

Lemma api_tier3_region :
  search Api.pattern1 (Api.clean text) = None ->
  search Api.pattern2 (Api.clean text) = None ->
  Api.parse_japanese_license_plate text !! "region" =
  Some (match List.find (fun r => contains r (Api.clean text)) Api.regions with
        | Some r => r
        | None => []
        end).
Proof.
  intros H1 H2. unfold Api.parse_japanese_license_plate. cbv zeta.
  rewrite H1, H2, api_number_loop_other by discriminate.
  destruct (search Api.hiragana_pattern _);
    [rewrite lookup_insert_ne by discriminate |];
    rewrite find_region_lookup;
    (destruct (List.find _ Api.regions); [reflexivity |]);
    apply new_result_lookup; plate_key.
Qed.

Lemma backend_tier3_hiragana :
  search Backend.pattern1 (Backend.clean text) = None ->
  search Backend.pattern2 (Backend.clean text) = None ->
  Backend.parse_japanese_license_plate text !! "hiragana" =
  Some (match List.find is_hiragana (Backend.clean text) with
        | Some ch => [ch]
        | None => []
        end).
Proof.
  intros H1 H2. unfold Backend.parse_japanese_license_plate. cbv zeta.
  rewrite H1, H2, backend_number_loop_other by discriminate.
  unfold Backend.hiragana_pattern. rewrite search_single_class.
  destruct (List.find is_hiragana _).
  - now rewrite lookup_insert_eq, group_single.
  - rewrite find_region_other by discriminate. apply new_result_lookup; plate_key.
Qed.

Lemma api_tier3_hiragana :
  search Api.pattern1 (Api.clean text) = None ->
  search Api.pattern2 (Api.clean text) = None ->
  Api.parse_japanese_license_plate text !! "hiragana" =
  Some (match List.find (one_of Api.hiragana_list) (Api.clean text) with
        | Some ch => [ch]
        | None => []
        end).
Proof.
  intros H1 H2. unfold Api.parse_japanese_license_plate. cbv zeta.
  rewrite H1, H2, api_number_loop_other by discriminate.
  unfold Api.hiragana_pattern. rewrite search_single_class.
  destruct (List.find (one_of Api.hiragana_list) _).
  - now rewrite lookup_insert_eq, group_single.
  - rewrite find_region_other by discriminate. apply new_result_lookup; plate_key.
Qed.

(** What the third tier hands to the loop over the number patterns. *)
Lemma backend_tier3_numeric :
  search Backend.pattern1 (Backend.clean text) = None ->
  search Backend.pattern2 (Backend.clean text) = None ->
  exists result,
    result !! "number" = Some [] /\ result !! "classification" = Some [] /\
    Backend.parse_japanese_license_plate text =
    Backend.number_loop 0 Backend.number_patterns (Backend.clean text) result.
Proof.
  intros H1 H2. unfold Backend.parse_japanese_license_plate. cbv zeta.
  rewrite H1, H2. eexists. split; [| split; [| reflexivity]].
  - destruct (search Backend.hiragana_pattern _);
      [rewrite lookup_insert_ne by discriminate |];
      rewrite find_region_other by discriminate; apply new_result_lookup; plate_key.
  - destruct (search Backend.hiragana_pattern _);
      [rewrite lookup_insert_ne by discriminate |];
      rewrite find_region_other by discriminate; apply new_result_lookup; plate_key.
Qed.

Lemma api_tier3_numeric :
  search Api.pattern1 (Api.clean text) = None ->
  search Api.pattern2 (Api.clean text) = None ->
  exists result,
    result !! "number" = Some [] /\ result !! "classification" = Some [] /\
    Api.parse_japanese_license_plate text =
    Api.number_loop Api.number_patterns (Api.clean text) result.
Proof.
  intros H1 H2. unfold Api.parse_japanese_license_plate. cbv zeta.
  rewrite H1, H2. eexists. split; [| split; [| reflexivity]].
  - destruct (search Api.hiragana_pattern _);
      [rewrite lookup_insert_ne by discriminate |];
      rewrite find_region_other by discriminate; apply new_result_lookup; plate_key.
  - destruct (search Api.hiragana_pattern _);
      [rewrite lookup_insert_ne by discriminate |];
      rewrite find_region_other by discriminate; apply new_result_lookup; plate_key.
Qed.

End Tier3.

(** ** The lookups of [backend/simple_app.py] *)

Lemma simple_lookups (text : pystr) :
  let clean_text := Simple.clean text in
  let result := Simple.parse_simple_plate text in
  result !! "region" =
    Some (match List.find (fun r => contains r clean_text) Simple.regions with
          | Some r => r | None => [] end) /\
  result !! "number" =
    Some (match search Simple.number_pattern clean_text with
          | Some m => group 1 m | None => [] end) /\
  result !! "hiragana" =
    Some (match List.find is_hiragana clean_text with
          | Some ch => [ch] | None => [] end) /\
  result !! "classification" =
    Some (match search Simple.class_pattern clean_text with
          | Some m => group 1 m | None => [] end).
Proof.
  cbv zeta. unfold Simple.parse_simple_plate. cbv zeta.
  unfold Simple.hiragana_pattern. rewrite search_single_class.
  set (R := find_region _ _ _).
  assert (HR : R !! "region" =
    Some (match List.find (fun r => contains r (Simple.clean text)) Simple.regions with
          | Some r => r | None => [] end)).
  { unfold R. rewrite find_region_lookup.
    destruct (List.find _ Simple.regions); [reflexivity |].
    apply new_result_lookup; plate_key. }
  assert (HO : forall key, key ∈ plate_keys -> key <> "full_text" -> key <> "region" ->
                           R !! key = Some []).
  { intros key Hk Hf Hr. unfold R. rewrite find_region_other by assumption.
    now apply new_result_lookup. }
  destruct (search Simple.class_pattern _), (List.find is_hiragana _),
    (search Simple.number_pattern _);
    repeat split;
    repeat first [ rewrite lookup_insert_eq | rewrite lookup_insert_ne by discriminate ];
    try rewrite group_single; try reflexivity; try exact HR; apply HO; plate_key.
Qed.

(** ** Shape of the groups of the patterns *)

Ltac invert_matches :=
  unfold matches in *;
  repeat match goal with
         | H : Forall2 _ (_ :: _) _ |- _ => inversion H; subst; clear H
         | H : Forall2 _ [] _ |- _ => inversion H; subst; clear H
         end;
  repeat match goal with
         | H : atom_ok _ ?gp |- _ =>
             destruct gp; destruct H as (? & ? & ? & ?); simpl in *
         end;
  subst.

Lemma length_le_cases2 (s : pystr) :
  (1 <= length s <= 2)%nat -> (exists a, s = [a]) \/ (exists a b, s = [a; b]).
Proof.
  destruct s as [| a [| b [| c s]]]; simpl; intros H; try lia; eauto.
Qed.

Lemma full_pattern1_groups (n : nat) (seps : pystr) (m : re_match) :
  matches (full_pattern1 n seps) m ->
  region_run n (group 1 m) /\ digits 3 (group 2 m) /\ one_hiragana (group 3 m) /\
  serial seps (group 4 m).
Proof.
  unfold full_pattern1. intros H. invert_matches. cbn [group Nat.eqb]. rewrite ?app_nil_r.
  repeat match goal with
         | H : forall h, Some ?x = Some h -> _ |- _ => specialize (H _ eq_refl)
         end.
  split; [| split; [| split]].
  - split; [lia | assumption].
  - split; [lia | assumption].
  - match goal with
    | H : forallb is_hiragana ?l = true |- _ =>
        destruct l as [| ch [| ? ?]]; simpl in *; try lia;
        exists ch; split; [reflexivity |]; now rewrite andb_true_r in H
    end.
  - match goal with
    | H : forallb (one_of seps) ?l = true |- serial _ (?d ++ ?l ++ ?dd) =>
        destruct l as [| sep [| ? ?]]; simpl in H |- *; try (simpl in *; lia);
        exists d, sep, dd; rewrite andb_true_r in H; apply one_of_spec in H;
        repeat split; simpl in *; try assumption; try lia
    end.
Qed.

Lemma full_pattern2_groups (n : nat) (m : re_match) :
  matches (full_pattern2 n) m ->
  region_run n (group 1 m) /\ digits 3 (group 2 m) /\ one_hiragana (group 3 m) /\
  digits 4 (group 4 m).
Proof.
  unfold full_pattern2. intros H. invert_matches. cbn [group Nat.eqb]. rewrite ?app_nil_r.
  repeat match goal with
         | H : forall h, Some ?x = Some h -> _ |- _ => specialize (H _ eq_refl)
         end.
  split; [| split; [| split]].
  - split; [lia | assumption].
  - split; [lia | assumption].
  - match goal with
    | H : forallb is_hiragana ?l = true |- _ =>
        destruct l as [| ch [| ? ?]]; simpl in *; try lia;
        exists ch; split; [reflexivity |]; now rewrite andb_true_r in H
    end.
  - split; [lia | assumption].
Qed.

Lemma serial_pattern_groups (seps : pystr) (m : re_match) :
  matches (serial_pattern seps) m -> serial seps (group 1 m) /\ group 1 m = text_of m.
Proof.
  unfold serial_pattern. intros H. invert_matches. unfold text_of.
  cbn [group Nat.eqb List.map snd concat].
  repeat match goal with
         | H : forall h, Some ?x = Some h -> _ |- _ => specialize (H _ eq_refl)
         end.
  split; [| reflexivity]. rewrite !app_nil_r.
  match goal with
  | H : forallb (one_of seps) ?l = true |- serial _ (?d ++ ?l ++ ?dd) =>
      destruct l as [| sep [| ? ?]]; simpl in H |- *; try (simpl in *; lia);
      exists d, sep, dd; rewrite andb_true_r in H; apply one_of_spec in H;
      repeat split; simpl in *; try assumption; try lia
  end.
Qed.

Lemma digit_pattern_groups (n : nat) (m : re_match) :
  matches [rep is_digit n n 1] m -> digits n (group 1 m) /\ group 1 m = text_of m.
Proof.
  intros H. invert_matches. unfold text_of.
  cbn [group Nat.eqb List.map snd concat].
  repeat match goal with
         | H : forall h, Some ?x = Some h -> _ |- _ => specialize (H _ eq_refl)
         end.
  rewrite !app_nil_r. split; [| reflexivity]. split; [lia | assumption].
Qed.

Lemma full_pattern1_serial_suffix (n : nat) (seps : pystr) (m : re_match) :
  matches (full_pattern1 n seps) m -> exists pre, text_of m = pre ++ group 4 m.
Proof.
  unfold full_pattern1. intros H. invert_matches. unfold text_of.
  cbn [group Nat.eqb List.map snd concat]. rewrite ?app_nil_r.
  match goal with
  | |- exists pre, ?a ++ ?b ++ ?c ++ ?d ++ ?e ++ ?f ++ ?rest = _ =>
      exists (a ++ b ++ c ++ d ++ e ++ f)
  end.
  now rewrite <- !app_assoc.
Qed.

Lemma occurs_in_suffix (pre needle hay : pystr) :
  occurs_in (pre ++ needle) hay -> occurs_in needle hay.
Proof.
  intros (a & b & ->). exists (a ++ pre), b. now rewrite <- !app_assoc.
Qed.

(** ** The two full tiers *)

Lemma backend_tier1 (text : pystr) (m : re_match) :
  search Backend.pattern1 (Backend.clean text) = Some m ->
  Backend.parse_japanese_license_plate text =
  record_of (Backend.clean text) (group 1 m) (group 2 m) (group 3 m) (group 4 m).
Proof.
  intros H. unfold Backend.parse_japanese_license_plate. cbv zeta. now rewrite H.
Qed.

Lemma api_tier1 (text : pystr) (m : re_match) :
  search Api.pattern1 (Api.clean text) = Some m ->
  Api.parse_japanese_license_plate text =
  record_of (Api.clean text) (group 1 m) (group 2 m) (group 3 m) (group 4 m).
Proof.
  intros H. unfold Api.parse_japanese_license_plate. cbv zeta. now rewrite H.
Qed.

Lemma backend_tier2 (text : pystr) (m : re_match) :
  search Backend.pattern1 (Backend.clean text) = None ->
  search Backend.pattern2 (Backend.clean text) = Some m ->
  Backend.parse_japanese_license_plate text =
  record_of (Backend.clean text) (group 1 m) (group 2 m) (group 3 m)
            (hyphenate (group 4 m)).
Proof.
  intros H1 H2. unfold Backend.parse_japanese_license_plate. cbv zeta.
  now rewrite H1, H2.
Qed.

Lemma api_tier2 (text : pystr) (m : re_match) :
  search Api.pattern1 (Api.clean text) = None ->
  search Api.pattern2 (Api.clean text) = Some m ->
  Api.parse_japanese_license_plate text =
  record_of (Api.clean text) (group 1 m) (group 2 m) (group 3 m)
            (hyphenate (group 4 m)).
Proof.
  intros H1 H2. unfold Api.parse_japanese_license_plate. cbv zeta.
  now rewrite H1, H2.
Qed.

Lemma search_finds (p : pattern) (s : pystr) :
  (exists m0, matches p m0 /\ occurs_in (text_of m0) s) ->
  exists m, search p s = Some m /\ matches p m /\ occurs_in (text_of m) s.
Proof.
  intros (m0 & Hm0 & Ho). pose proof (search_complete p s m0 Hm0 Ho) as H.
  destruct (search p s) as [m |] eqn:E; [| congruence].
  exists m. split; [reflexivity |]. now apply search_sound.
Qed.

Lemma hyphenate_digits (s : pystr) :
  digits 4 s ->
  exists a b c d, s = [a; b; c; d] /\ hyphenate s = [a; b; HYPHEN; c; d] /\
                  is_digit a = true /\ is_digit b = true /\
                  is_digit c = true /\ is_digit d = true.
Proof.
  intros [Hl Hd]. destruct s as [| a [| b [| c [| d [| e s]]]]]; try discriminate.
  simpl in Hd. rewrite !andb_true_iff in Hd. destruct Hd as (Ha & Hb & Hc & Hd & _).
  exists a, b, c, d. repeat split; assumption.
Qed.

Lemma record_of_lookups (c r k h n : pystr) :
  record_of c r k h n !! "region" = Some r /\
  record_of c r k h n !! "classification" = Some k /\
  record_of c r k h n !! "hiragana" = Some h /\
  record_of c r k h n !! "number" = Some n /\
  record_of c r k h n !! "full_text" = Some c.
Proof.
  unfold record_of, new_result.
  repeat split;
    repeat first [ rewrite lookup_insert_eq | rewrite lookup_insert_ne by discriminate ];
    reflexivity.
Qed.

(** ** C3: the first tier takes precedence *)

(** C3, as the claim states it, fails for [api/ocr.py], whose Tier 1
    pattern is narrower than the one of the claim (region of one to five
    characters, three separators).  On the first text the claim's pattern
    matches with the serial 12ー34, and [api/ocr.py], which does not read
    the long dash, answers from its third tier: the classification comes
    from the three-digit sub-pattern and the number stays empty.  On the
    second text the claim's pattern captures the region ABCDE, and
    [api/ocr.py] returns the four characters BCDE. *)
Lemma api_tier1_is_narrower :
  option_map (group 4)
    (search (full_pattern1 5 separators3) (normalize_whitespace (lit "品川 500 あ 12ー34")))
    = Some (lit "12ー34") /\
  search Api.pattern1 (Api.clean (lit "品川 500 あ 12ー34")) = None /\
  search Api.pattern2 (Api.clean (lit "品川 500 あ 12ー34")) = None /\
  Api.parse_japanese_license_plate (lit "品川 500 あ 12ー34") !! "number" = Some [] /\
  option_map (group 1)
    (search (full_pattern1 5 separators3) (normalize_whitespace (lit "ABCDE500あ12-34")))
    = Some (lit "ABCDE") /\
  Api.parse_japanese_license_plate (lit "ABCDE500あ12-34") !! "region" = Some (lit "BCDE").
Proof. repeat split; vm_compute; reflexivity. Qed.

(** C3, amended.  Whenever a match of the variant's own Tier 1 pattern
    occurs in the normalised text ([backend/app.py]: region of one to five
    characters and the separators hyphen, U+2212, U+30FC; [api/ocr.py]:
    region of one to four characters and the separators hyphen, U+2212),
    [re.search] finds one, and the parser returns at once the record made of
    its four groups over the fresh result: nothing of the second or third
    tier enters the result.  The last part exhibits a text on which the
    catalogue lookup and the serial sub-pattern of Tier 3 would have given
    another region and another number. *)
Theorem tier1_precedence (text : pystr) :
  let clean_text := normalize_whitespace text in
  ((exists m0, matches Backend.pattern1 m0 /\ occurs_in (text_of m0) clean_text) ->
   exists m, search Backend.pattern1 clean_text = Some m /\
             matches Backend.pattern1 m /\ occurs_in (text_of m) clean_text /\
             region_run 5 (group 1 m) /\ digits 3 (group 2 m) /\
             one_hiragana (group 3 m) /\ serial separators3 (group 4 m) /\
             Backend.parse_japanese_license_plate text =
             record_of clean_text (group 1 m) (group 2 m) (group 3 m) (group 4 m)) /\
  ((exists m0, matches Api.pattern1 m0 /\ occurs_in (text_of m0) clean_text) ->
   exists m, search Api.pattern1 clean_text = Some m /\
             matches Api.pattern1 m /\ occurs_in (text_of m) clean_text /\
             region_run 4 (group 1 m) /\ digits 3 (group 2 m) /\
             one_hiragana (group 3 m) /\ serial separators2 (group 4 m) /\
             Api.parse_japanese_license_plate text =
             record_of clean_text (group 1 m) (group 2 m) (group 3 m) (group 4 m)) /\
  (let noisy := lit "99-88 ノイズ横浜 500 あ 12-34 品川" in
   Backend.parse_japanese_license_plate noisy !! "region" = Some (lit "ノイズ横浜") /\
   Backend.parse_japanese_license_plate noisy !! "number" = Some (lit "12-34") /\
   List.find (fun r => contains r (Backend.clean noisy)) Backend.regions
     = Some (lit "品川") /\
   option_map (group 1) (search (serial_pattern separators3) (Backend.clean noisy))
     = Some (lit "99-88")).
Proof.
  cbv zeta. change (normalize_whitespace text) with (Backend.clean text).
  split; [| split].
  - intros H. destruct (search_finds _ _ H) as (m & Hs & Hm & Ho).
    exists m. destruct (full_pattern1_groups 5 separators3 m Hm) as (G1 & G2 & G3 & G4).
    repeat (split; [assumption |]). now apply backend_tier1.
  - rewrite <- clean_variants_agree.
    intros H. destruct (search_finds _ _ H) as (m & Hs & Hm & Ho).
    exists m. destruct (full_pattern1_groups 4 separators2 m Hm) as (G1 & G2 & G3 & G4).
    repeat (split; [assumption |]). now apply api_tier1.
  - repeat split; vm_compute; reflexivity.
Qed.

Lemma tier1_precedence_witness :
  Backend.parse_japanese_license_plate (lit "品川 500 あ 12-34") !! "region"
    = Some (lit "品川") /\
  Backend.parse_japanese_license_plate (lit "品川 500 あ 12-34") !! "number"
    = Some (lit "12-34").
Proof.
  destruct (tier1_precedence (lit "品川 500 あ 12-34")) as (HB & _).
  cbv zeta in HB.
  assert (E : search Backend.pattern1 (normalize_whitespace (lit "品川 500 あ 12-34"))
              = Some [(1%nat, lit "品川"); (0%nat, lit " "); (2%nat, lit "500");
                      (0%nat, lit " "); (3%nat, lit "あ"); (0%nat, lit " ");
                      (4%nat, lit "12"); (4%nat, lit "-"); (4%nat, lit "34")])
    by (vm_compute; reflexivity).
  destruct HB as (m & Hs & _ & _ & _ & _ & _ & _ & Hp).
  - destruct (search_sound _ _ _ E) as [Hm Ho]. eexists. split; eassumption.
  - rewrite E in Hs. injection Hs as <-. rewrite Hp.
    split; vm_compute; reflexivity.
Defined.

(** ** C4: four contiguous digits become [DD-DD] *)

(** C4.  When no Tier 1 match occurs in the normalised text and a match of
    the Tier 2 pattern (region, three-digit classification, hiragana, four
    contiguous digits) does, the parser returns the record of the groups of
    the match [re.search] finds, with the number synthesised as the first
    two digits, an ASCII hyphen and the last two digits.  In particular
    "品川 500 あ 1234" has number "12-34". *)
Theorem four_digit_synthesis (text : pystr) :
  let clean_text := normalize_whitespace text in
  (no_match Backend.pattern1 clean_text ->
   (exists m0, matches Backend.pattern2 m0 /\ occurs_in (text_of m0) clean_text) ->
   exists m a b c d,
     search Backend.pattern2 clean_text = Some m /\ group 4 m = [a; b; c; d] /\
     dd_dd [a; b; HYPHEN; c; d] /\
     Backend.parse_japanese_license_plate text =
     record_of clean_text (group 1 m) (group 2 m) (group 3 m) [a; b; HYPHEN; c; d]) /\
  (no_match Api.pattern1 clean_text ->
   (exists m0, matches Api.pattern2 m0 /\ occurs_in (text_of m0) clean_text) ->
   exists m a b c d,
     search Api.pattern2 clean_text = Some m /\ group 4 m = [a; b; c; d] /\
     dd_dd [a; b; HYPHEN; c; d] /\
     Api.parse_japanese_license_plate text =
     record_of clean_text (group 1 m) (group 2 m) (group 3 m) [a; b; HYPHEN; c; d]) /\
  Backend.parse_japanese_license_plate (lit "品川 500 あ 1234") !! "number"
    = Some (lit "12-34") /\
  Api.parse_japanese_license_plate (lit "品川 500 あ 1234") !! "number"
    = Some (lit "12-34").
Proof.
  cbv zeta. change (normalize_whitespace text) with (Backend.clean text).
  split; [| split; [| split]].
  - intros H1 H. apply no_match_spec in H1.
    destruct (search_finds _ _ H) as (m & Hs & Hm & Ho).
    destruct (full_pattern2_groups 5 m Hm) as (_ & _ & _ & G4).
    destruct (hyphenate_digits _ G4) as (a & b & c & d & Hg & Hh & Ha & Hb & Hc & Hd).
    exists m, a, b, c, d. split; [assumption |]. split; [assumption |]. split.
    + exists a, b, c, d. auto.
    + rewrite <- Hh. now apply backend_tier2.
  - rewrite <- clean_variants_agree. intros H1 H. apply no_match_spec in H1.
    destruct (search_finds _ _ H) as (m & Hs & Hm & Ho).
    destruct (full_pattern2_groups 4 m Hm) as (_ & _ & _ & G4).
    destruct (hyphenate_digits _ G4) as (a & b & c & d & Hg & Hh & Ha & Hb & Hc & Hd).
    exists m, a, b, c, d. split; [assumption |]. split; [assumption |]. split.
    + exists a, b, c, d. auto.
    + rewrite <- Hh. now apply api_tier2.
  - vm_compute; reflexivity.
  - vm_compute; reflexivity.
Qed.

Lemma four_digit_synthesis_witness :
  Backend.parse_japanese_license_plate (lit "京都 580 さ 4567") !! "number"
    = Some (lit "45-67").
Proof.
  destruct (four_digit_synthesis (lit "京都 580 さ 4567")) as (HB & _).
  cbv zeta in HB.
  assert (E : search Backend.pattern2 (normalize_whitespace (lit "京都 580 さ 4567"))
              = Some [(1%nat, lit "京都"); (0%nat, lit " "); (2%nat, lit "580");
                      (0%nat, lit " "); (3%nat, lit "さ"); (0%nat, lit " ");
                      (4%nat, lit "4567")])
    by (vm_compute; reflexivity).
  destruct HB as (m & a & b & c & d & Hs & Hg & _ & Hp).
  - apply no_match_spec. vm_compute; reflexivity.
  - destruct (search_sound _ _ _ E) as [Hm Ho]. eexists. split; eassumption.
  - rewrite E in Hs. injection Hs as <-. rewrite Hp.
    vm_compute in Hg. injection Hg as <- <- <- <-.
    apply record_of_lookups.
Defined.

(** ** C2: separators of the serial *)

(** On the long dash the first tier of [api/ocr.py] does not match: the text
    goes through the third tier, which leaves the number empty. *)
Lemma api_rejects_long_dash :
  search Api.pattern1 (Api.clean (lit "品川 500 あ 12ー34")) = None /\
  Api.parse_japanese_license_plate (lit "品川 500 あ 12ー34") !! "number" = Some [] /\
  Api.parse_japanese_license_plate (lit "品川 500 あ 12ー34") !! "number"
    <> Some (lit "12ー34").
Proof.
  split; [| split].
  - vm_compute; reflexivity.
  - vm_compute; reflexivity.
  - vm_compute. discriminate.
Qed.

(** C2, amended.  On a Tier 1 match the number is the serial as matched:
    one or two digits, the separator of the text and two digits, occurring
    verbatim in the normalised text.  [backend/app.py] accepts the hyphen,
    U+2212 and U+30FC; [api/ocr.py] accepts the hyphen and U+2212 only.  The
    sample plates parse accordingly. *)
Theorem separator_kept_verbatim (text : pystr) :
  let clean_text := normalize_whitespace text in
  separators3 = [HYPHEN; MINUS; LONG_DASH] /\
  separators2 = [HYPHEN; MINUS] /\
  (forall m, search Backend.pattern1 clean_text = Some m ->
     Backend.parse_japanese_license_plate text !! "number" = Some (group 4 m) /\
     serial separators3 (group 4 m) /\ occurs_in (group 4 m) clean_text) /\
  (forall m, search Api.pattern1 clean_text = Some m ->
     Api.parse_japanese_license_plate text !! "number" = Some (group 4 m) /\
     serial separators2 (group 4 m) /\ occurs_in (group 4 m) clean_text) /\
  (forall sep, In sep separators3 ->
     Backend.parse_japanese_license_plate (lit "品川 500 あ 12" ++ [sep] ++ lit "34")
       !! "number" = Some (lit "12" ++ [sep] ++ lit "34")) /\
  (forall sep, In sep separators2 ->
     Api.parse_japanese_license_plate (lit "品川 500 あ 12" ++ [sep] ++ lit "34")
       !! "number" = Some (lit "12" ++ [sep] ++ lit "34")).
Proof.
  cbv zeta. change (normalize_whitespace text) with (Backend.clean text).
  split; [reflexivity |]. split; [reflexivity |].
  split; [| split; [| split]].
  - intros m Hs. destruct (search_sound _ _ _ Hs) as [Hm Ho].
    destruct (full_pattern1_groups 5 separators3 m Hm) as (_ & _ & _ & G4).
    destruct (full_pattern1_serial_suffix 5 separators3 m Hm) as (pre & Hpre).
    rewrite Hpre in Ho. apply occurs_in_suffix in Ho.
    rewrite (backend_tier1 text m Hs). split; [apply record_of_lookups | now split].
  - rewrite <- clean_variants_agree.
    intros m Hs. destruct (search_sound _ _ _ Hs) as [Hm Ho].
    destruct (full_pattern1_groups 4 separators2 m Hm) as (_ & _ & _ & G4).
    destruct (full_pattern1_serial_suffix 4 separators2 m Hm) as (pre & Hpre).
    rewrite Hpre in Ho. apply occurs_in_suffix in Ho.
    rewrite (api_tier1 text m Hs). split; [apply record_of_lookups | now split].
  - intros sep Hin. simpl in Hin.
    destruct Hin as [<- | [<- | [<- | []]]]; vm_compute; reflexivity.
  - intros sep Hin. simpl in Hin.
    destruct Hin as [<- | [<- | []]]; vm_compute; reflexivity.
Qed.

Lemma separator_kept_verbatim_witness :
  Backend.parse_japanese_license_plate (lit "品川 500 あ 12ー34") !! "number"
    = Some (lit "12ー34") /\
  Backend.parse_japanese_license_plate (lit "品川 500 あ 12−34") !! "number"
    = Some (lit "12−34") /\
  Backend.parse_japanese_license_plate (lit "品川 500 あ 12-34") !! "number"
    = Some (lit "12-34").
Proof.
  destruct (separator_kept_verbatim []) as (_ & _ & _ & _ & H & _).
  split; [| split].
  - apply (H LONG_DASH). vm_compute. tauto.
  - apply (H MINUS). vm_compute. tauto.
  - apply (H HYPHEN). vm_compute. tauto.
Defined.

(** ** C8: the region of the third tier *)

Lemma find_first (A : Type) (f : A -> bool) (l : list A) :
  match List.find f l with
  | Some x => exists i, nth_error l i = Some x /\ f x = true /\
                        forall j y, (j < i)%nat -> nth_error l j = Some y -> f y = false
  | None => forall y, In y l -> f y = false
  end.
Proof.
  induction l as [| a l IH]; simpl.
  - intros y [].
  - destruct (f a) eqn:E.
    + exists 0%nat. split; [reflexivity |]. split; [assumption |]. intros j y Hj. lia.
    + destruct (List.find f l) as [x |].
      * destruct IH as (i & Hi & Hx & Hbefore). exists (S i).
        split; [assumption |]. split; [assumption |].
        intros [| j] y Hj Hy; simpl in Hy.
        -- now injection Hy as <-.
        -- apply (Hbefore j); [lia | assumption].
      * intros y [<- | Hy]; [assumption | now apply IH].
Qed.

Lemma find_region_first (regions : list pystr) (clean_text : pystr) :
  first_region regions clean_text
    (match List.find (fun r => contains r clean_text) regions with
     | Some r => r
     | None => []
     end).
Proof.
  pose proof (find_first _ (fun r => contains r clean_text) regions) as H.
  destruct (List.find _ regions) as [r |].
  - left. destruct H as (i & Hi & Hr & Hbefore). exists i.
    split; [assumption |]. split; [now apply contains_spec |].
    intros j r' Hj Hr'. apply contains_false_iff. now apply (Hbefore j).
  - right. split; [reflexivity |]. now apply no_region_spec.
Qed.

(** C8.  When the two full tiers find nothing, the region is the first
    entry of the catalogue, in its listed order, that occurs anywhere in
    the normalised text, and the empty string when no entry occurs; this
    holds for [backend/app.py] and [api/ocr.py], each with its catalogue.
    "ノイズ 横浜 ノイズ あ 12-34" yields region "横浜", hiragana "あ" and
    number "12-34". *)
Theorem tier3_region_first_in_catalog (text : pystr) :
  let clean_text := normalize_whitespace text in
  (no_match Backend.pattern1 clean_text -> no_match Backend.pattern2 clean_text ->
   exists r, Backend.parse_japanese_license_plate text !! "region" = Some r /\
             first_region Backend.regions clean_text r) /\
  (no_match Api.pattern1 clean_text -> no_match Api.pattern2 clean_text ->
   exists r, Api.parse_japanese_license_plate text !! "region" = Some r /\
             first_region Api.regions clean_text r) /\
  (let noisy := lit "ノイズ 横浜 ノイズ あ 12-34" in
   Backend.parse_japanese_license_plate noisy =
     record_of noisy (lit "横浜") [] (lit "あ") (lit "12-34") /\
   Api.parse_japanese_license_plate noisy =
     record_of noisy (lit "横浜") [] (lit "あ") (lit "12-34") /\
   search Backend.pattern1 noisy = None /\ search Backend.pattern2 noisy = None).
Proof.
  cbv zeta. change (normalize_whitespace text) with (Backend.clean text).
  split; [| split].
  - intros H1 H2. apply no_match_spec in H1, H2.
    eexists. split; [now apply backend_tier3_region |]. apply find_region_first.
  - rewrite <- clean_variants_agree. intros H1 H2. apply no_match_spec in H1, H2.
    eexists. split; [now apply api_tier3_region |]. apply find_region_first.
  - repeat split; vm_compute; reflexivity.
Qed.

Lemma tier3_region_first_in_catalog_witness :
  exists r, Backend.parse_japanese_license_plate (lit "東京 横浜 と 品川") !! "region" = Some r /\
            first_region Backend.regions (normalize_whitespace (lit "東京 横浜 と 品川")) r.
Proof.
  destruct (tier3_region_first_in_catalog (lit "東京 横浜 と 品川")) as (H & _).
  apply H; apply no_match_spec; vm_compute; reflexivity.
Defined.

(** ** C6: the hiragana of the third tier *)

(** Normalising white space does not change which character of a class
    without white space comes first. *)
Section FindNormalized.

Variable cls : char -> bool.
Hypothesis cls_not_space : forall c, cls c = true -> is_space c = false.

Lemma cls_space_false (c : char) : is_space c = true -> cls c = false.
Proof.
  intros H. destruct (cls c) eqn:E; [| reflexivity].
  apply cls_not_space in E. congruence.
Qed.

Lemma find_replace_char (a : char) (s : pystr) :
  is_space a = true -> List.find cls (replace_char a SPACE s) = List.find cls s.
Proof.
  intros Ha. induction s as [| c r IH]; simpl; [reflexivity |].
  destruct (N.eqb_spec c a) as [-> | Hne].
  - rewrite (cls_space_false SPACE space_is_space), (cls_space_false a Ha). exact IH.
  - now rewrite IH.
Qed.

Lemma find_sub_spaces (b : bool) (s : pystr) :
  List.find cls (sub_spaces_from b s) = List.find cls s.
Proof.
  revert b. induction s as [| c r IH]; intros b; simpl; [reflexivity |].
  destruct (is_space c) eqn:E.
  - rewrite (cls_space_false c E). destruct b; simpl.
    + apply IH.
    + rewrite (cls_space_false SPACE space_is_space). apply IH.
  - simpl. now rewrite IH.
Qed.

Lemma find_lstrip (s : pystr) : List.find cls (lstrip s) = List.find cls s.
Proof.
  induction s as [| c r IH]; simpl; [reflexivity |].
  destruct (is_space c) eqn:E; [| reflexivity].
  now rewrite (cls_space_false c E).
Qed.

Lemma find_rstrip (s : pystr) : List.find cls (rstrip s) = List.find cls s.
Proof.
  induction s as [| c r IH]; [reflexivity |].
  rewrite rstrip_cons. simpl. rewrite <- IH.
  destruct (rstrip r) as [| x t].
  - destruct (is_space c) eqn:E; simpl.
    + now rewrite (cls_space_false c E).
    + reflexivity.
  - reflexivity.
Qed.

Lemma find_normalized (text : pystr) :
  List.find cls (normalize_whitespace text) = List.find cls text.
Proof.
  unfold normalize_whitespace, strip, sub_spaces.
  rewrite find_rstrip, find_lstrip, find_sub_spaces.
  rewrite !find_replace_char; reflexivity.
Qed.

End FindNormalized.

Lemma find_first_char (cls : char -> bool) (s : pystr) (ch : char) :
  first_char cls s ch -> List.find cls s = Some ch.
Proof.
  intros (pre & post & -> & Hpre & Hch).
  induction pre as [| c pre IH]; simpl.
  - now rewrite Hch.
  - rewrite (Hpre c) by now left. apply IH. intros x Hx. apply Hpre. now right.
Qed.

Lemma listed_hiragana_not_space (c : char) :
  one_of Api.hiragana_list c = true -> is_space c = false.
Proof. intros H. apply hiragana_not_space. now apply listed_hiragana_in_range. Qed.

(** In [api/ocr.py] the third tier takes the first character of its list of
    46 hiragana: the voiced が, which lies in the range, is passed over. *)
Lemma api_passes_over_voiced_hiragana :
  search Api.pattern1 (Api.clean (lit "が あ")) = None /\
  search Api.pattern2 (Api.clean (lit "が あ")) = None /\
  first_char is_hiragana (lit "が あ") 12364 /\
  Api.parse_japanese_license_plate (lit "が あ") !! "hiragana" = Some (lit "あ") /\
  Api.parse_japanese_license_plate (lit "が あ") !! "hiragana" <> Some [12364].
Proof.
  split; [| split; [| split; [| split]]]; try (vm_compute; reflexivity).
  - exists [], (lit " あ"). split; [reflexivity |]. split; [intros ch [] | reflexivity].
  - vm_compute. discriminate.
Qed.

(** C6, amended.  When the two full tiers find nothing, [backend/app.py]
    sets the hiragana to the first character of the text in the range
    U+3042 to U+3093, and [api/ocr.py] to the first character of the text
    among the 46 hiragana it lists (all of them in that range); the field
    is the empty string when the text has no such character. *)
Theorem tier3_hiragana_first (text : pystr) :
  let clean_text := normalize_whitespace text in
  (no_match Backend.pattern1 clean_text -> no_match Backend.pattern2 clean_text ->
   (forall ch, first_char is_hiragana text ch ->
      Backend.parse_japanese_license_plate text !! "hiragana" = Some [ch]) /\
   (no_char is_hiragana text ->
      Backend.parse_japanese_license_plate text !! "hiragana" = Some [])) /\
  (no_match Api.pattern1 clean_text -> no_match Api.pattern2 clean_text ->
   (forall ch, first_char (one_of Api.hiragana_list) text ch ->
      Api.parse_japanese_license_plate text !! "hiragana" = Some [ch]) /\
   (no_char (one_of Api.hiragana_list) text ->
      Api.parse_japanese_license_plate text !! "hiragana" = Some [])) /\
  (forall ch, one_of Api.hiragana_list ch = true -> is_hiragana ch = true) /\
  length Api.hiragana_list = 46%nat /\
  (forall ch, is_hiragana ch = true <-> 12354 <= ch <= 12435).
Proof.
  cbv zeta. split; [| split; [| split; [| split]]].
  - intros H1 H2. apply no_match_spec in H1, H2.
    change (normalize_whitespace text) with (Backend.clean text) in H1, H2.
    rewrite (backend_tier3_hiragana text H1 H2).
    change (Backend.clean text) with (normalize_whitespace text).
    rewrite (find_normalized is_hiragana hiragana_not_space). split.
    + intros ch Hch. now rewrite (find_first_char _ _ _ Hch).
    + intros Hn. apply find_none_iff in Hn. now rewrite Hn.
  - intros H1 H2. apply no_match_spec in H1, H2.
    change (normalize_whitespace text) with (Backend.clean text) in H1, H2.
    rewrite <- clean_variants_agree in H1, H2.
    rewrite (api_tier3_hiragana text H1 H2), clean_variants_agree.
    change (Backend.clean text) with (normalize_whitespace text).
    rewrite (find_normalized _ listed_hiragana_not_space). split.
    + intros ch Hch. now rewrite (find_first_char _ _ _ Hch).
    + intros Hn. apply find_none_iff in Hn. now rewrite Hn.
  - exact listed_hiragana_in_range.
  - reflexivity.
  - intros ch. unfold is_hiragana, HIRA_A, HIRA_N.
    rewrite andb_true_iff, !N.leb_le. reflexivity.
Qed.

Lemma tier3_hiragana_first_witness :
  Backend.parse_japanese_license_plate (lit "が あ") !! "hiragana" = Some [12364] /\
  Api.parse_japanese_license_plate (lit "が あ") !! "hiragana" = Some [12354].
Proof.
  destruct (tier3_hiragana_first (lit "が あ")) as (HB & HA & _).
  split.
  - apply HB; try (apply no_match_spec; vm_compute; reflexivity).
    exists [], (lit " あ"). split; [reflexivity |]. split; [intros ch [] | reflexivity].
  - apply HA; try (apply no_match_spec; vm_compute; reflexivity).
    exists (lit "が "), []. split; [reflexivity |].
    split; [| reflexivity].
    intros ch [<- | [<- | []]]; reflexivity.
Defined.

(** ** Normalisation around a word *)

Lemma no_digit_cons (c : char) (s : pystr) :
  no_digit (c :: s) <-> is_digit c = false /\ no_digit s.
Proof.
  unfold no_digit. simpl. rewrite andb_true_iff, negb_true_iff. reflexivity.
Qed.

Lemma no_digit_rev (s : pystr) : no_digit s -> no_digit (rev s).
Proof.
  unfold no_digit. rewrite !forallb_forall. intros H c Hc. apply H. now apply in_rev.
Qed.

Lemma no_space_rev (s : pystr) : no_space s -> no_space (rev s).
Proof.
  unfold no_space. rewrite !forallb_forall. intros H c Hc. apply H. now apply in_rev.
Qed.

Lemma no_digit_replace_char (a : char) (s : pystr) :
  no_digit s -> no_digit (replace_char a SPACE s).
Proof.
  induction s as [| c r IH]; [trivial |]. simpl. rewrite !no_digit_cons.
  intros [Hc Hr]. split; [| now apply IH].
  destruct (c =? a); [reflexivity | assumption].
Qed.

Lemma replace_char_no_space (a : char) (w : pystr) :
  is_space a = true -> no_space w -> replace_char a SPACE w = w.
Proof.
  intros Ha. unfold no_space. induction w as [| c r IH]; simpl; [reflexivity |].
  rewrite andb_true_iff, negb_true_iff. intros [Hc Hr].
  destruct (N.eqb_spec c a) as [-> | _]; [congruence |]. now rewrite IH.
Qed.

Lemma replace_char_app (a b : char) (s t : pystr) :
  replace_char a b (s ++ t) = replace_char a b s ++ replace_char a b t.
Proof. apply List.map_app. Qed.

Lemma no_digit_sub_spaces (b : bool) (s : pystr) :
  no_digit s -> no_digit (sub_spaces_from b s).
Proof.
  revert b. induction s as [| c r IH]; intros b; [trivial |]. simpl.
  rewrite no_digit_cons. intros [Hc Hr].
  destruct (is_space c); [destruct b |]; try rewrite no_digit_cons; auto.
Qed.

Lemma sub_spaces_no_space_prefix (w t : pystr) :
  no_space w -> sub_spaces_from false (w ++ t) = w ++ sub_spaces_from false t.
Proof.
  unfold no_space. induction w as [| c r IH]; simpl; [reflexivity |].
  rewrite andb_true_iff, negb_true_iff. intros [Hc Hr]. now rewrite Hc, IH.
Qed.

Lemma sub_spaces_around_word (b : bool) (pre w post : pystr) :
  w <> [] -> no_space w ->
  sub_spaces_from b (pre ++ w ++ post) =
  sub_spaces_from b pre ++ w ++ sub_spaces_from false post.
Proof.
  intros Hne Hw. revert b. induction pre as [| c r IH]; intros b.
  - destruct w as [| x w]; [congruence |]. simpl.
    unfold no_space in Hw. simpl in Hw.
    apply andb_true_iff in Hw. destruct Hw as [Hx Hw]. apply negb_true_iff in Hx.
    rewrite Hx. f_equal. now apply sub_spaces_no_space_prefix.
  - simpl. destruct (is_space c); [destruct b |]; simpl; now rewrite IH.
Qed.

Lemma no_digit_lstrip (s : pystr) : no_digit s -> no_digit (lstrip s).
Proof.
  induction s as [| c r IH]; [trivial |]. simpl. intros H.
  destruct (is_space c); [| assumption]. apply IH. now apply no_digit_cons in H.
Qed.

Lemma no_digit_rstrip (s : pystr) : no_digit s -> no_digit (rstrip s).
Proof.
  intros H. unfold rstrip. now apply no_digit_rev, no_digit_lstrip, no_digit_rev.
Qed.

Lemma lstrip_around_word (p w q : pystr) :
  w <> [] -> no_space w -> lstrip (p ++ w ++ q) = lstrip p ++ w ++ q.
Proof.
  intros Hne Hw. induction p as [| c r IH].
  - destruct w as [| x w]; [congruence |]. simpl.
    unfold no_space in Hw. simpl in Hw.
    apply andb_true_iff in Hw. destruct Hw as [Hx _]. apply negb_true_iff in Hx.
    now rewrite Hx.
  - simpl. destruct (is_space c); [exact IH | reflexivity].
Qed.

Lemma rstrip_around_word (p w q : pystr) :
  w <> [] -> no_space w -> rstrip (p ++ w ++ q) = p ++ w ++ rstrip q.
Proof.
  intros Hne Hw. unfold rstrip.
  rewrite !rev_app_distr, <- app_assoc, lstrip_around_word.
  - now rewrite !rev_app_distr, !rev_involutive, <- app_assoc.
  - intros E. apply Hne. rewrite <- (rev_involutive w), E. reflexivity.
  - now apply no_space_rev.
Qed.

Lemma normalize_around_word (pre w post : pystr) :
  w <> [] -> no_space w ->
  exists pre' post',
    normalize_whitespace (pre ++ w ++ post) = pre' ++ w ++ post' /\
    (no_digit pre -> no_digit pre') /\ (no_digit post -> no_digit post').
Proof.
  intros Hne Hw. unfold normalize_whitespace, strip, sub_spaces.
  rewrite !replace_char_app, !(replace_char_no_space _ w) by (reflexivity || assumption).
  rewrite sub_spaces_around_word, lstrip_around_word, rstrip_around_word by assumption.
  eexists. eexists. split; [reflexivity |]. split; intros H.
  - now apply no_digit_lstrip, no_digit_sub_spaces, no_digit_replace_char,
      no_digit_replace_char.
  - now apply no_digit_rstrip, no_digit_sub_spaces, no_digit_replace_char,
      no_digit_replace_char.
Qed.

(** ** Searches on a text with one run of three digits *)

Lemma count_digits_app (a b : pystr) :
  count_digits (a ++ b) = (count_digits a + count_digits b)%nat.
Proof. unfold count_digits. now rewrite List.filter_app, length_app. Qed.

Lemma count_digits_no_digit (s : pystr) : no_digit s -> count_digits s = 0%nat.
Proof.
  unfold count_digits. induction s as [| c r IH]; [reflexivity |].
  rewrite no_digit_cons. intros [Hc Hr]. simpl. rewrite Hc. now apply IH.
Qed.

Lemma count_digits_all (s : pystr) : forallb is_digit s = true -> count_digits s = length s.
Proof.
  unfold count_digits. induction s as [| c r IH]; [reflexivity |]. simpl.
  rewrite andb_true_iff. intros [Hc Hr]. rewrite Hc. simpl. now rewrite IH.
Qed.

Lemma count_digits_occurs (t s : pystr) :
  occurs_in t s -> (count_digits t <= count_digits s)%nat.
Proof. intros (a & b & ->). rewrite !count_digits_app. lia. Qed.

Section OneRun.

Variables (pre post : pystr) (x y z : char).
Hypothesis pre_no_digit : no_digit pre.
Hypothesis post_no_digit : no_digit post.
Hypothesis x_digit : is_digit x = true.
Hypothesis y_digit : is_digit y = true.
Hypothesis z_digit : is_digit z = true.

Let s := pre ++ [x; y; z] ++ post.

Lemma one_run_count : count_digits s = 3%nat.
Proof.
  unfold s. rewrite !count_digits_app.
  rewrite (count_digits_no_digit pre), (count_digits_no_digit post) by assumption.
  rewrite count_digits_all; [reflexivity |]. simpl. now rewrite x_digit, y_digit, z_digit.
Qed.

Lemma one_run_no_full_pattern1 (n : nat) (seps : pystr) :
  search (full_pattern1 n seps) s = None.
Proof.
  apply search_none_iff. intros m Hm Ho.
  apply count_digits_occurs in Ho. rewrite one_run_count in Ho.
  revert Hm Ho. unfold full_pattern1. intros Hm. invert_matches. unfold text_of.
  cbn [List.map snd concat]. rewrite !count_digits_app.
  repeat match goal with
         | H : forallb is_digit ?l = true |- _ =>
             rewrite (count_digits_all l H); clear H
         end.
  lia.
Qed.

Lemma one_run_no_full_pattern2 (n : nat) : search (full_pattern2 n) s = None.
Proof.
  apply search_none_iff. intros m Hm Ho.
  apply count_digits_occurs in Ho. rewrite one_run_count in Ho.
  revert Hm Ho. unfold full_pattern2. intros Hm. invert_matches. unfold text_of.
  cbn [List.map snd concat]. rewrite !count_digits_app.
  repeat match goal with
         | H : forallb is_digit ?l = true |- _ =>
             rewrite (count_digits_all l H); clear H
         end.
  lia.
Qed.

Lemma one_run_no_four_digits : search [rep is_digit 4 4 1] s = None.
Proof.
  apply search_none_iff. intros m Hm Ho.
  apply count_digits_occurs in Ho. rewrite one_run_count in Ho.
  revert Hm Ho. intros Hm. invert_matches. unfold text_of.
  cbn [List.map snd concat]. rewrite !count_digits_app.
  repeat match goal with
         | H : forallb is_digit ?l = true |- _ =>
             rewrite (count_digits_all l H); clear H
         end.
  lia.
Qed.

Lemma digit_after_run_2_no_digit (t : pystr) : no_digit t -> digit_after_run 2 t = false.
Proof.
  induction t as [| c r IH]; [reflexivity |]. rewrite no_digit_cons.
  intros [Hc Hr]. simpl. rewrite Hc. now apply IH.
Qed.

Lemma one_run_scan : digit_after_run 0 s = false.
Proof.
  unfold s. clear s. induction pre as [| c r IH].
  - simpl. rewrite x_digit, y_digit, z_digit.
    destruct post as [| c t]; [reflexivity |].
    apply no_digit_cons in post_no_digit. destruct post_no_digit as [Hc Ht].
    simpl. rewrite Hc. now apply digit_after_run_2_no_digit.
  - apply no_digit_cons in pre_no_digit. destruct pre_no_digit as [Hc Hr].
    simpl. rewrite Hc. now apply IH.
Qed.

End OneRun.

Lemma digit_gap_scan (st : nat) (a t : pystr) (d sep e : char) :
  is_digit d = true -> is_digit sep = false -> is_digit e = true ->
  digit_after_run st (a ++ d :: sep :: e :: t) = true.
Proof.
  intros Hd Hs He. revert st. induction a as [| c r IH]; intros st.
  - simpl. rewrite Hd, Hs, He. destruct st as [| [| st]]; reflexivity.
  - simpl. destruct st as [| [| st]]; destruct (is_digit c); auto.
Qed.

Lemma one_run_no_serial (pre post : pystr) (x y z : char) :
  no_digit pre -> no_digit post ->
  is_digit x = true -> is_digit y = true -> is_digit z = true ->
  search (serial_pattern separators3) (pre ++ [x; y; z] ++ post) = None.
Proof.
  intros Hpre Hpost Hx Hy Hz. apply search_none_iff. intros m Hm (a & b & Ho).
  pose proof (one_run_scan pre post x y z Hpre Hpost Hx Hy Hz) as Hscan.
  destruct (serial_pattern_groups _ m Hm) as [(d & sep & dd & Hg & Hd & Hdd & Hsep & Hl & He) Ht].
  rewrite <- Ht, Hg in Ho. rewrite Ho in Hscan.
  apply (proj2 (one_of_spec separators3 sep)) in Hsep. apply separator_not_digit in Hsep.
  destruct dd as [| e1 [| e2 [| ? ?]]]; try discriminate.
  simpl in He. apply andb_true_iff in He. destruct He as [He1 _].
  assert (G : forall a' d1, is_digit d1 = true ->
              digit_after_run 0 (a' ++ d1 :: sep :: e1 :: e2 :: b) = true).
  { intros a' d1 Hd1. now apply digit_gap_scan. }
  destruct (length_le_cases2 d Hd) as [(d1 & ->) | (d0 & d1 & ->)];
    simpl in Hdd; rewrite ?andb_true_iff in Hdd.
  - simpl in Hscan. rewrite (G a d1) in Hscan by tauto. discriminate.
  - replace (a ++ ([d0; d1] ++ [sep] ++ [e1; e2]) ++ b)
      with ((a ++ [d0]) ++ d1 :: sep :: e1 :: e2 :: b) in Hscan
      by (now rewrite <- app_assoc).
    rewrite (G (a ++ [d0]) d1) in Hscan by tauto. discriminate.
Qed.

Lemma search_cons (p : pattern) (c : char) (r : pystr) :
  search p (c :: r) =
  match match_here p (c :: r) with
  | Some m => Some m
  | None => search p r
  end.
Proof. reflexivity. Qed.

Lemma match_here_non_digit (lo hi g : nat) (p : pattern) (c : char) (r : pystr) :
  is_digit c = false -> match_here (rep is_digit (S lo) hi g :: p) (c :: r) = None.
Proof.
  intros H. unfold rep. cbn [match_here a_class a_min a_max a_group span cap].
  rewrite H. now rewrite Nat.min_0_r.
Qed.

Lemma search_skip_no_digit (lo hi g : nat) (p : pattern) (pre rest : pystr) :
  no_digit pre ->
  search (rep is_digit (S lo) hi g :: p) (pre ++ rest) =
  search (rep is_digit (S lo) hi g :: p) rest.
Proof.
  induction pre as [| c r IH]; [reflexivity |]. rewrite no_digit_cons. intros [Hc Hr].
  change ((c :: r) ++ rest) with (c :: (r ++ rest)).
  rewrite search_cons, match_here_non_digit by assumption. now apply IH.
Qed.

Lemma one_run_three_digits (pre post : pystr) (x y z : char) :
  no_digit pre -> is_digit x = true -> is_digit y = true -> is_digit z = true ->
  search [rep is_digit 3 3 1] (pre ++ [x; y; z] ++ post) = Some [(1%nat, [x; y; z])].
Proof.
  intros Hpre Hx Hy Hz. rewrite search_skip_no_digit by assumption.
  change ([x; y; z] ++ post) with (x :: y :: z :: post).
  rewrite search_cons. unfold rep.
  cbn [match_here a_class a_min a_max a_group span cap].
  rewrite Hx, Hy, Hz. reflexivity.
Qed.

(** ** The loop over the number patterns *)

Lemma backend_loop_serial (clean_text : pystr) (result : plate) (m : re_match) :
  search (serial_pattern separators3) clean_text = Some m ->
  Backend.number_loop 0 Backend.number_patterns clean_text result =
  <["number" := group 1 m]> result.
Proof.
  intros H. unfold Backend.number_patterns. cbn [Backend.number_loop].
  change [rep is_digit 1 2 1; rep (one_of separators3) 1 1 1; rep is_digit 2 2 1]
    with (serial_pattern separators3).
  now rewrite H.
Qed.

Lemma backend_loop_four (clean_text : pystr) (result : plate) (m : re_match) :
  search (serial_pattern separators3) clean_text = None ->
  search [rep is_digit 4 4 1] clean_text = Some m ->
  Backend.number_loop 0 Backend.number_patterns clean_text result =
  <["number" := hyphenate (group 1 m)]> result.
Proof.
  intros H1 H2. unfold Backend.number_patterns. cbn [Backend.number_loop].
  change [rep is_digit 1 2 1; rep (one_of separators3) 1 1 1; rep is_digit 2 2 1]
    with (serial_pattern separators3).
  rewrite H1, H2.
  destruct (search_sound _ _ _ H2) as [Hm _].
  destruct (digit_pattern_groups 4 m Hm) as [[Hl _] _]. rewrite Hl. reflexivity.
Qed.

Lemma backend_loop_three (clean_text : pystr) (result : plate) (m : re_match) :
  search (serial_pattern separators3) clean_text = None ->
  search [rep is_digit 4 4 1] clean_text = None ->
  search [rep is_digit 3 3 1] clean_text = Some m ->
  Backend.number_loop 0 Backend.number_patterns clean_text result =
  <["classification" := group 1 m]> result.
Proof.
  intros H1 H2 H3. unfold Backend.number_patterns. cbn [Backend.number_loop].
  change [rep is_digit 1 2 1; rep (one_of separators3) 1 1 1; rep is_digit 2 2 1]
    with (serial_pattern separators3).
  rewrite H1, H2, H3.
  destruct (search_sound _ _ _ H3) as [Hm _].
  destruct (digit_pattern_groups 3 m Hm) as [[Hl _] _]. rewrite Hl. reflexivity.
Qed.

Lemma backend_loop_nothing (clean_text : pystr) (result : plate) :
  search (serial_pattern separators3) clean_text = None ->
  search [rep is_digit 4 4 1] clean_text = None ->
  search [rep is_digit 3 3 1] clean_text = None ->
  Backend.number_loop 0 Backend.number_patterns clean_text result = result.
Proof.
  intros H1 H2 H3. apply backend_number_loop_none.
  intros p [<- | [<- | [<- | []]]]; assumption.
Qed.

(** ** C7: one numeric sub-pattern per parse *)

Lemma backend_tier3_cases (text : pystr) :
  search Backend.pattern1 (Backend.clean text) = None ->
  search Backend.pattern2 (Backend.clean text) = None ->
  let clean_text := Backend.clean text in
  let result := Backend.parse_japanese_license_plate text in
  (forall m, search (serial_pattern separators3) clean_text = Some m ->
     result !! "number" = Some (group 1 m) /\ result !! "classification" = Some []) /\
  (search (serial_pattern separators3) clean_text = None ->
   forall m, search [rep is_digit 4 4 1] clean_text = Some m ->
     result !! "number" = Some (hyphenate (group 1 m)) /\
     result !! "classification" = Some []) /\
  (search (serial_pattern separators3) clean_text = None ->
   search [rep is_digit 4 4 1] clean_text = None ->
   forall m, search [rep is_digit 3 3 1] clean_text = Some m ->
     result !! "classification" = Some (group 1 m) /\ result !! "number" = Some []) /\
  (search (serial_pattern separators3) clean_text = None ->
   search [rep is_digit 4 4 1] clean_text = None ->
   search [rep is_digit 3 3 1] clean_text = None ->
   result !! "number" = Some [] /\ result !! "classification" = Some []).
Proof.
  intros H1 H2. cbv zeta.
  destruct (backend_tier3_numeric text H1 H2) as (R & Hn & Hc & ->).
  split; [| split; [| split]].
  - intros m Hm. rewrite (backend_loop_serial _ _ _ Hm).
    now rewrite lookup_insert_eq, lookup_insert_ne.
  - intros Hs m Hm. rewrite (backend_loop_four _ _ _ Hs Hm).
    now rewrite lookup_insert_eq, lookup_insert_ne.
  - intros Hs H4 m Hm. rewrite (backend_loop_three _ _ _ Hs H4 Hm).
    now rewrite lookup_insert_eq, lookup_insert_ne.
  - intros Hs H4 H3. rewrite (backend_loop_nothing _ _ Hs H4 H3). now split.
Qed.

Lemma backend_one_run (pre post : pystr) (x y z : char) :
  no_digit pre -> no_digit post ->
  is_digit x = true -> is_digit y = true -> is_digit z = true ->
  Backend.parse_japanese_license_plate (pre ++ [x; y; z] ++ post) !! "classification"
    = Some [x; y; z] /\
  Backend.parse_japanese_license_plate (pre ++ [x; y; z] ++ post) !! "number" = Some [].
Proof.
  intros Hpre Hpost Hx Hy Hz.
  assert (Hw : no_space [x; y; z]).
  { unfold no_space. simpl.
    now rewrite (digit_not_space x Hx), (digit_not_space y Hy), (digit_not_space z Hz). }
  destruct (normalize_around_word pre [x; y; z] post) as (pre' & post' & E & Hp & Hq);
    [discriminate | assumption |].
  specialize (Hp Hpre). specialize (Hq Hpost).
  change (normalize_whitespace (pre ++ [x; y; z] ++ post))
    with (Backend.clean (pre ++ [x; y; z] ++ post)) in E.
  pose proof (backend_tier3_cases (pre ++ [x; y; z] ++ post)) as H.
  cbv zeta in H. rewrite E in H.
  destruct H as (_ & _ & H3 & _).
  - apply (one_run_no_full_pattern1 pre' post' x y z Hp Hq Hx Hy Hz 5 separators3).
  - apply (one_run_no_full_pattern2 pre' post' x y z Hp Hq Hx Hy Hz 5).
  - apply (H3 (one_run_no_serial pre' post' x y z Hp Hq Hx Hy Hz)
              (one_run_no_four_digits pre' post' x y z Hp Hq Hx Hy Hz)
              [(1%nat, [x; y; z])]).
    now apply one_run_three_digits.
Qed.

(** In [backend/simple_app.py] the number and the classification are
    searched one after the other, each on the whole text: on "580" both
    are found. *)
Lemma simple_fills_number_and_classification :
  Simple.parse_simple_plate (lit "580") !! "classification" = Some (lit "580") /\
  Simple.parse_simple_plate (lit "580") !! "number" = Some (lit "580") /\
  Simple.parse_simple_plate (lit "580") !! "number" <> Some [].
Proof.
  split; [| split]; vm_compute; [reflexivity | reflexivity | discriminate].
Qed.

(** C7, amended.  In the third tier of [backend/app.py] the first of the
    three numeric sub-patterns (separated serial, four digits, three digits)
    that matches anywhere in the text decides, and the others are not
    tried: the number and the classification are never both filled.  Hence
    a text whose only digits are one run of three digits, as "580", has
    that run as classification and an empty number.  [backend/simple_app.py]
    has no such loop: it searches the number (one or two digits, an optional
    separator, two digits) and the three-digit classification independently,
    so that on "580" both fields are "580". *)
Theorem tier3_numeric_first_match (text : pystr) :
  let clean_text := normalize_whitespace text in
  (no_match Backend.pattern1 clean_text -> no_match Backend.pattern2 clean_text ->
   let result := Backend.parse_japanese_license_plate text in
   (forall m, search (serial_pattern separators3) clean_text = Some m ->
      result !! "number" = Some (group 1 m) /\ result !! "classification" = Some []) /\
   (search (serial_pattern separators3) clean_text = None ->
    forall m, search [rep is_digit 4 4 1] clean_text = Some m ->
      result !! "number" = Some (hyphenate (group 1 m)) /\
      result !! "classification" = Some []) /\
   (search (serial_pattern separators3) clean_text = None ->
    search [rep is_digit 4 4 1] clean_text = None ->
    forall m, search [rep is_digit 3 3 1] clean_text = Some m ->
      result !! "classification" = Some (group 1 m) /\ result !! "number" = Some []) /\
   (result !! "number" = Some [] \/ result !! "classification" = Some [])) /\
  (forall pre post x y z,
     text = pre ++ [x; y; z] ++ post -> no_digit pre -> no_digit post ->
     is_digit x = true -> is_digit y = true -> is_digit z = true ->
     Backend.parse_japanese_license_plate text !! "classification" = Some [x; y; z] /\
     Backend.parse_japanese_license_plate text !! "number" = Some []) /\
  (forall pre post,
     text = pre ++ lit "580" ++ post -> no_digit pre -> no_digit post ->
     Backend.parse_japanese_license_plate text !! "classification" = Some (lit "580") /\
     Backend.parse_japanese_license_plate text !! "number" = Some []) /\
  (let result := Simple.parse_simple_plate text in
   result !! "number" =
     Some (match search Simple.number_pattern clean_text with
           | Some m => group 1 m | None => [] end) /\
   result !! "classification" =
     Some (match search Simple.class_pattern clean_text with
           | Some m => group 1 m | None => [] end)).
Proof.
  cbv zeta. change (normalize_whitespace text) with (Backend.clean text).
  split; [| split; [| split]].
  - intros H1 H2. apply no_match_spec in H1, H2.
    destruct (backend_tier3_cases text H1 H2) as (Hs & H4 & H3 & H0).
    split; [exact Hs |]. split; [exact H4 |]. split; [exact H3 |].
    destruct (search (serial_pattern separators3) (Backend.clean text)) as [m |] eqn:Es.
    { right. now apply (Hs m). }
    destruct (search [rep is_digit 4 4 1] (Backend.clean text)) as [m |] eqn:E4.
    { right. now apply (H4 eq_refl m). }
    destruct (search [rep is_digit 3 3 1] (Backend.clean text)) as [m |] eqn:E3.
    { left. now apply (H3 eq_refl eq_refl m). }
    left. now apply H0.
  - intros pre post x y z -> Hpre Hpost Hx Hy Hz. now apply backend_one_run.
  - intros pre post -> Hpre Hpost. now apply (backend_one_run pre post 53 56 48).
  - destruct (simple_lookups text) as (_ & Hn & _ & Hc). split; assumption.
Qed.

Lemma tier3_numeric_first_match_witness :
  Backend.parse_japanese_license_plate (lit "580") !! "classification" = Some (lit "580") /\
  Backend.parse_japanese_license_plate (lit "580") !! "number" = Some [].
Proof.
  destruct (tier3_numeric_first_match (lit "580")) as (_ & _ & H & _).
  apply (H [] []); reflexivity.
Defined.

(** ** C9: formats of the fields *)

Lemma contains_hyphen_digits (s : pystr) :
  forallb is_digit s = true -> contains [HYPHEN] s = false.
Proof.
  intros H. apply contains_false_iff. intros (pre & post & ->).
  rewrite forallb_app in H. apply andb_true_iff in H. destruct H as [_ H].
  change ([HYPHEN] ++ post) with (HYPHEN :: post) in H. cbn [forallb] in H.
  apply andb_true_iff in H. destruct H as [H _]. vm_compute in H. discriminate.
Qed.

Lemma serial_length (seps s : pystr) : serial seps s -> (4 <= length s <= 5)%nat.
Proof.
  intros (d & sep & dd & -> & Hd & _ & _ & Hl & _).
  rewrite !length_app. simpl. lia.
Qed.

Lemma simple_number_groups (m : re_match) :
  matches Simple.number_pattern m -> loose_serial separators3 (group 1 m).
Proof.
  unfold Simple.number_pattern. intros H. invert_matches.
  cbn [group Nat.eqb]. rewrite ?app_nil_r.
  repeat match goal with
         | H : forall h, Some ?x = Some h -> _ |- _ => specialize (H _ eq_refl)
         end.
  match goal with
  | H : forallb (one_of separators3) ?l = true |- loose_serial _ (?d ++ ?l ++ ?dd) =>
      exists d, l, dd; split; [reflexivity |]; split; [lia |]; split; [assumption |];
      split; [| split; [lia | assumption]];
      destruct l as [| c [| ? ?]]; [now left | right | simpl in *; lia];
      exists c; split; [reflexivity |]; simpl in H; rewrite andb_true_r in H;
      now apply one_of_spec
  end.
Qed.

Lemma api_tier3_number_cases (text : pystr) :
  search Api.pattern1 (Api.clean text) = None ->
  search Api.pattern2 (Api.clean text) = None ->
  let result := Api.parse_japanese_license_plate text in
  empty_or (digits 3) (result !! "classification") /\
  (empty_or (fun n => serial separators2 n \/ dd_dd n) (result !! "number") \/
   api_short_minus_serial (Api.clean text)).
Proof.
  intros H1 H2. cbv zeta.
  destruct (api_tier3_numeric text H1 H2) as (R & Hn & Hc & ->).
  unfold Api.number_patterns. cbn [Api.number_loop].
  change [rep is_digit 1 2 1; rep (one_of separators2) 1 1 1; rep is_digit 2 2 1]
    with (serial_pattern separators2).
  destruct (search (serial_pattern separators2) (Api.clean text)) as [m |] eqn:Es.
  { destruct (search_sound _ _ _ Es) as [Hm _].
    destruct (serial_pattern_groups _ m Hm) as [Hser _].
    pose proof (serial_length _ _ Hser) as Hlen.
    destruct ((length (group 1 m) =? 4)%nat && negb (contains [HYPHEN] (group 1 m))) eqn:E.
    - apply andb_true_iff in E. destruct E as [E4 Eh].
      apply Nat.eqb_eq in E4. apply negb_true_iff in Eh.
      split.
      + exists []. split; [now rewrite lookup_insert_ne | now left].
      + right. repeat split; try assumption. now exists m.
    - destruct (length (group 1 m) =? 3)%nat eqn:E3; [apply Nat.eqb_eq in E3; lia |].
      split.
      + exists []. split; [now rewrite lookup_insert_ne | now left].
      + left. exists (group 1 m). split; [now rewrite lookup_insert_eq | auto]. }
  destruct (search [rep is_digit 4 4 1] (Api.clean text)) as [m |] eqn:E4.
  { destruct (search_sound _ _ _ E4) as [Hm _].
    destruct (digit_pattern_groups 4 m Hm) as [Hd _].
    destruct (hyphenate_digits _ Hd) as (a & b & c & d & _ & Hh & Ha & Hb & Hc' & Hd').
    destruct Hd as [Hl Hall]. rewrite Hl, (contains_hyphen_digits _ Hall). simpl.
    split.
    - exists []. split; [now rewrite lookup_insert_ne | now left].
    - left. exists (hyphenate (group 1 m)). split; [now rewrite lookup_insert_eq |].
      right. right. rewrite Hh. exists a, b, c, d. auto. }
  destruct (search [rep is_digit 3 3 1] (Api.clean text)) as [m |] eqn:E3.
  { destruct (search_sound _ _ _ E3) as [Hm _].
    destruct (digit_pattern_groups 3 m Hm) as [Hd _].
    pose proof Hd as [Hl _]. rewrite Hl. simpl.
    split.
    - exists (group 1 m). split; [now rewrite lookup_insert_eq | now right].
    - left. exists []. split; [now rewrite lookup_insert_ne | now left]. }
  split; [exists []; now split; [| left] |].
  left. exists []. split; [assumption | now left].
Qed.

Lemma record_of_formats (c r k h n : pystr) (shape : pystr -> Prop) :
  digits 3 k -> shape n ->
  empty_or (digits 3) (record_of c r k h n !! "classification") /\
  empty_or shape (record_of c r k h n !! "number").
Proof.
  intros Hk Hn. destruct (record_of_lookups c r k h n) as (_ & Ek & _ & En & _).
  split; [exists k | exists n]; split; auto.
Qed.

(** A Tier 1 serial of [api/ocr.py] with a one-digit first group is kept as
    matched; it is not of the shape [DD-DD]. *)
Lemma api_number_not_dd_dd :
  Api.parse_japanese_license_plate (lit "品川 500 あ 1-23") !! "number" = Some (lit "1-23") /\
  lit "1-23" <> [] /\ ~ dd_dd (lit "1-23").
Proof.
  split; [vm_compute; reflexivity |]. split; [discriminate |].
  intros (a & b & c & d & H & _). discriminate.
Qed.

(** C9, amended.  For every input the classification is three digits or
    the empty string.  The number is the empty string, or the serial as the
    pattern matched it (one or two digits, the separator of the text, two
    digits; in [backend/simple_app.py] the separator may be missing), or
    [DD-DD] synthesised from four contiguous digits.  For [api/ocr.py]
    the number is described on every text but those on which its third
    tier finds a serial of four characters without ASCII hyphen (one digit,
    U+2212, two digits, as in 1−23): what its test [len(num) == 4] makes of
    such a serial is left out of the statement. *)
Theorem field_formats (text : pystr) :
  let clean_text := normalize_whitespace text in
  (empty_or (digits 3) (Api.parse_japanese_license_plate text !! "classification") /\
   (empty_or (fun n => serial separators2 n \/ dd_dd n)
             (Api.parse_japanese_license_plate text !! "number") \/
    api_short_minus_serial clean_text)) /\
  (empty_or (digits 3) (Simple.parse_simple_plate text !! "classification") /\
   empty_or (loose_serial separators3) (Simple.parse_simple_plate text !! "number")) /\
  (empty_or (digits 3) (Backend.parse_japanese_license_plate text !! "classification") /\
   empty_or (fun n => serial separators3 n \/ dd_dd n)
            (Backend.parse_japanese_license_plate text !! "number")).
Proof.
  cbv zeta. change (normalize_whitespace text) with (Backend.clean text).
  split; [| split].
  - rewrite <- clean_variants_agree.
    destruct (search Api.pattern1 (Api.clean text)) as [m |] eqn:E1.
    { destruct (search_sound _ _ _ E1) as [Hm _].
      destruct (full_pattern1_groups 4 separators2 m Hm) as (_ & G2 & _ & G4).
      rewrite (api_tier1 text m E1).
      destruct (record_of_formats (Api.clean text) (group 1 m) (group 2 m) (group 3 m)
                  (group 4 m) (fun n => serial separators2 n \/ dd_dd n) G2 (or_introl G4))
        as [Hc Hn].
      split; [exact Hc | left; exact Hn]. }
    destruct (search Api.pattern2 (Api.clean text)) as [m |] eqn:E2.
    { destruct (search_sound _ _ _ E2) as [Hm _].
      destruct (full_pattern2_groups 4 m Hm) as (_ & G2 & _ & G4).
      destruct (hyphenate_digits _ G4) as (a & b & c & d & _ & Hh & Ha & Hb & Hc & Hd).
      rewrite (api_tier2 text m E1 E2).
      assert (D : dd_dd (hyphenate (group 4 m))) by (rewrite Hh; exists a, b, c, d; auto).
      destruct (record_of_formats (Api.clean text) (group 1 m) (group 2 m) (group 3 m)
                  (hyphenate (group 4 m)) (fun n => serial separators2 n \/ dd_dd n)
                  G2 (or_intror D)) as [Hc' Hn].
      split; [exact Hc' | left; exact Hn]. }
    exact (api_tier3_number_cases text E1 E2).
  - destruct (simple_lookups text) as (_ & Hn & _ & Hc). cbv zeta in Hn, Hc. split.
    + eexists. split; [exact Hc |].
      destruct (search Simple.class_pattern (Simple.clean text)) as [m |] eqn:E;
        [| now left].
      right. destruct (search_sound _ _ _ E) as [Hm _].
      now apply (digit_pattern_groups 3 m).
    + eexists. split; [exact Hn |].
      destruct (search Simple.number_pattern (Simple.clean text)) as [m |] eqn:E;
        [| now left].
      right. destruct (search_sound _ _ _ E) as [Hm _].
      now apply simple_number_groups.
  - destruct (search Backend.pattern1 (Backend.clean text)) as [m |] eqn:E1.
    { destruct (search_sound _ _ _ E1) as [Hm _].
      destruct (full_pattern1_groups 5 separators3 m Hm) as (_ & G2 & _ & G4).
      rewrite (backend_tier1 text m E1).
      exact (record_of_formats _ _ _ _ _ (fun n => serial separators3 n \/ dd_dd n)
               G2 (or_introl G4)). }
    destruct (search Backend.pattern2 (Backend.clean text)) as [m |] eqn:E2.
    { destruct (search_sound _ _ _ E2) as [Hm _].
      destruct (full_pattern2_groups 5 m Hm) as (_ & G2 & _ & G4).
      destruct (hyphenate_digits _ G4) as (a & b & c & d & _ & Hh & Ha & Hb & Hc & Hd).
      rewrite (backend_tier2 text m E1 E2).
      assert (D : dd_dd (hyphenate (group 4 m))) by (rewrite Hh; exists a, b, c, d; auto).
      exact (record_of_formats _ _ _ _ _ (fun n => serial separators3 n \/ dd_dd n)
               G2 (or_intror D)). }
    destruct (backend_tier3_cases text E1 E2) as (Hs & H4 & H3 & H0).
    destruct (search (serial_pattern separators3) (Backend.clean text)) as [m |] eqn:Es.
    { destruct (Hs m eq_refl) as [Hn Hc].
      destruct (search_sound _ _ _ Es) as [Hm _].
      destruct (serial_pattern_groups _ m Hm) as [Hser _].
      split; eexists; (split; [eassumption |]); [now left | right; now left]. }
    destruct (search [rep is_digit 4 4 1] (Backend.clean text)) as [m |] eqn:E4.
    { destruct (H4 eq_refl m eq_refl) as [Hn Hc].
      destruct (search_sound _ _ _ E4) as [Hm _].
      destruct (digit_pattern_groups 4 m Hm) as [Hd _].
      destruct (hyphenate_digits _ Hd) as (a & b & c & d & _ & Hh & Ha & Hb & Hc' & Hd').
      split; eexists; (split; [eassumption |]); [now left |].
      right. right. rewrite Hh. exists a, b, c, d. auto. }
    destruct (search [rep is_digit 3 3 1] (Backend.clean text)) as [m |] eqn:E3.
    { destruct (H3 eq_refl eq_refl m eq_refl) as [Hc Hn].
      destruct (search_sound _ _ _ E3) as [Hm _].
      destruct (digit_pattern_groups 3 m Hm) as [Hd _].
      split; eexists; (split; [eassumption |]); [now right | now left]. }
    destruct (H0 eq_refl eq_refl eq_refl) as [Hn Hc].
    split; eexists; (split; [eassumption |]); now left.
Qed.

(** ** Ordering of the tuples *)

Lemma str_lt_irrefl (a : pystr) : str_lt a a = false.
Proof. induction a as [| x a IH]; [reflexivity |]. simpl. now rewrite N.eqb_refl. Qed.

Lemma str_lt_asym (a b : pystr) : str_lt a b = true -> str_lt b a = false.
Proof.
  revert b. induction a as [| x a IH]; intros [| y b]; simpl; try congruence.
  destruct (N.eqb_spec x y) as [-> | Hne].
  - rewrite N.eqb_refl. apply IH.
  - destruct (N.eqb_spec y x) as [-> | _]; [congruence |].
    rewrite !N.ltb_lt, N.ltb_ge. lia.
Qed.

Lemma str_le_trans (a b c : pystr) :
  str_lt b a = false -> str_lt c b = false -> str_lt c a = false.
Proof.
  revert b c. induction a as [| x a IH]; intros [| y b] [| z c]; simpl; try congruence.
  destruct (N.eqb_spec y x) as [E1 | E1]; destruct (N.eqb_spec z y) as [E2 | E2];
    destruct (N.eqb_spec z x) as [E3 | E3]; subst; try congruence;
    intros H1 H2; rewrite ?N.ltb_ge in *;
    first [ now apply (IH b c) | assumption | lia ].
Qed.

Lemma tuple_le_iff (a b : Q * pystr) :
  tuple_lt b a = false <->
  (fst a < fst b)%Q \/ (fst a == fst b /\ str_lt (snd b) (snd a) = false).
Proof.
  unfold tuple_lt. destruct (Qeq_bool (fst b) (fst a)) eqn:E.
  - apply Qeq_bool_iff in E. split.
    + intros H. right. split; [now symmetry | assumption].
    + intros [H | [_ H]]; [lra | assumption].
  - apply Qeq_bool_neq in E. rewrite negb_false_iff, Qle_bool_iff. split.
    + intros H. left. lra.
    + intros [H | [H _]]; [lra | now symmetry in H].
Qed.

Lemma tuple_lt_asym (a b : Q * pystr) : tuple_lt a b = true -> tuple_lt b a = false.
Proof.
  intros H. apply tuple_le_iff.
  unfold tuple_lt in H. destruct (Qeq_bool (fst a) (fst b)) eqn:E.
  - apply Qeq_bool_iff in E. right. split; [assumption | now apply str_lt_asym].
  - apply Qeq_bool_neq in E. apply negb_true_iff in H.
    left. destruct (Qlt_le_dec (fst a) (fst b)) as [Hlt | Hle]; [assumption |].
    apply Qle_bool_iff in Hle. congruence.
Qed.

Lemma tuple_le_trans (a b c : Q * pystr) :
  tuple_lt b a = false -> tuple_lt c b = false -> tuple_lt c a = false.
Proof.
  rewrite !tuple_le_iff. intros [H1 | [H1 H1']] [H2 | [H2 H2']].
  - left. lra.
  - left. lra.
  - left. lra.
  - right. split; [lra | now apply (str_le_trans _ (snd b))].
Qed.

Lemma tuple_ge_confidence (a b : Q * pystr) : tuple_lt a b = false -> (fst b <= fst a)%Q.
Proof. rewrite tuple_le_iff. intros [H | [H _]]; lra. Qed.

(** ** The sort *)

Lemma insert_sorted_perm (x : Q * pystr) (l : list (Q * pystr)) :
  Permutation (insert_sorted x l) (x :: l).
Proof.
  induction l as [| y r IH]; simpl; [reflexivity |].
  destruct (tuple_lt y x); [| reflexivity].
  rewrite IH. apply perm_swap.
Qed.

Lemma sorted_perm (l : list (Q * pystr)) : Permutation (sorted l) l.
Proof.
  induction l as [| x r IH]; simpl; [reflexivity |].
  rewrite insert_sorted_perm. now constructor.
Qed.

Lemma insert_sorted_ascending (x : Q * pystr) (l : list (Q * pystr)) :
  StronglySorted (fun a b => tuple_lt b a = false) l ->
  StronglySorted (fun a b => tuple_lt b a = false) (insert_sorted x l).
Proof.
  induction l as [| y r IH]; simpl; intros H.
  - constructor; constructor.
  - apply StronglySorted_inv in H. destruct H as [Hr Hy].
    destruct (tuple_lt y x) eqn:E.
    + constructor; [now apply IH |].
      rewrite List.Forall_forall in *. intros z Hz.
      apply (Permutation_in _ (insert_sorted_perm x r)) in Hz.
      destruct Hz as [<- | Hz]; [now apply tuple_lt_asym | now apply Hy].
    + constructor; [now constructor |].
      constructor; [assumption |].
      rewrite List.Forall_forall in *. intros z Hz.
      apply (tuple_le_trans x y z); [assumption | now apply Hy].
Qed.

Lemma sorted_ascending (l : list (Q * pystr)) :
  StronglySorted (fun a b => tuple_lt b a = false) (sorted l).
Proof.
  induction l as [| x r IH]; simpl; [constructor | now apply insert_sorted_ascending].
Qed.

Lemma strongly_sorted_snoc (A : Type) (R : A -> A -> Prop) (l : list A) (x : A) :
  StronglySorted R l -> Forall (fun y => R y x) l -> StronglySorted R (l ++ [x]).
Proof.
  induction l as [| y r IH]; simpl; intros Hs Hf.
  - constructor; constructor.
  - apply StronglySorted_inv in Hs. destruct Hs as [Hr Hy].
    inversion Hf as [| ? ? Hyx Hrx]; subst.
    constructor; [now apply IH |].
    apply Forall_app. split; [assumption | now constructor].
Qed.

Lemma strongly_sorted_rev (A : Type) (R : A -> A -> Prop) (l : list A) :
  StronglySorted R l -> StronglySorted (fun a b => R b a) (rev l).
Proof.
  induction l as [| x r IH]; simpl; intros H; [constructor |].
  apply StronglySorted_inv in H. destruct H as [Hr Hx].
  apply strongly_sorted_snoc; [now apply IH |].
  rewrite List.Forall_forall in *. intros y Hy. apply Hx. now apply in_rev.
Qed.

Lemma strongly_sorted_weaken (A : Type) (R S : A -> A -> Prop) (l : list A) :
  (forall a b, R a b -> S a b) -> StronglySorted R l -> StronglySorted S l.
Proof.
  intros HRS. induction l as [| x r IH]; intros H; [constructor |].
  apply StronglySorted_inv in H. destruct H as [Hr Hx].
  constructor; [now apply IH |].
  rewrite List.Forall_forall in *. intros y Hy. apply HRS. now apply Hx.
Qed.

Lemma sorted_reverse_perm (l : list (Q * pystr)) : Permutation (sorted_reverse l) l.
Proof.
  unfold sorted_reverse.
  rewrite <- Permutation_rev, sorted_perm, <- Permutation_rev. reflexivity.
Qed.

Lemma sorted_reverse_descending (l : list (Q * pystr)) :
  tuple_descending (sorted_reverse l).
Proof.
  unfold tuple_descending, sorted_reverse.
  apply (strongly_sorted_rev _ (fun a b => tuple_lt b a = false)).
  apply sorted_ascending.
Qed.

(** ** The normalisers *)

Lemma Qgtb_spec (a b : Q) : Qgtb a b = true <-> (b < a)%Q.
Proof.
  unfold Qgtb. rewrite negb_true_iff. split.
  - intros H. destruct (Qlt_le_dec b a) as [Hlt | Hle]; [assumption |].
    apply Qle_bool_iff in Hle. congruence.
  - intros H. destruct (Qle_bool a b) eqn:E; [| reflexivity].
    apply Qle_bool_iff in E. lra.
Qed.

Lemma survivors_spec (threshold : Q) (lines : list ocr_line) (line : ocr_line) :
  In line (survivors threshold lines) <->
  In line lines /\ (threshold < line_confidence line)%Q.
Proof. unfold survivors. now rewrite List.filter_In, Qgtb_spec. Qed.

Lemma api_collect_spec (lines : list ocr_line) :
  Api.collect lines = List.map line_text (survivors threshold_half lines).
Proof.
  induction lines as [| l r IH]; simpl; [reflexivity |].
  destruct (Qgtb (line_confidence l) threshold_half); simpl; now rewrite IH.
Qed.

Lemma backend_collect_spec (lines : list ocr_line) :
  Backend.collect lines =
  (List.map line_text (survivors threshold_03 lines),
   List.map line_confidence (survivors threshold_03 lines)).
Proof.
  induction lines as [| l r IH]; simpl; [reflexivity |].
  rewrite IH. destruct (Qgtb (line_confidence l) threshold_03); reflexivity.
Qed.

Lemma combine_pairs_of (lines : list ocr_line) :
  List.combine (List.map line_confidence lines) (List.map line_text lines) = pairs_of lines.
Proof. induction lines as [| l r IH]; simpl; [reflexivity | now rewrite IH]. Qed.

Lemma api_extract_spec (result : paddle_result) :
  Api.extract_text_from_paddle_result result =
  join [SPACE] (List.map line_text (survivors threshold_half (page_lines result))).
Proof.
  unfold Api.extract_text_from_paddle_result, page_lines.
  destruct (first_page result); [now rewrite api_collect_spec | reflexivity].
Qed.

Lemma backend_extract_spec (result : paddle_result) :
  Backend.extract_text_from_paddle_result result =
  join [SPACE]
    (List.map snd (sorted_reverse (pairs_of (survivors threshold_03 (page_lines result))))).
Proof.
  unfold Backend.extract_text_from_paddle_result, page_lines, Backend.sorted_texts.
  destruct (first_page result); [| reflexivity].
  now rewrite backend_collect_spec, combine_pairs_of.
Qed.

Lemma sorted_reverse_tie (c : Q) (t1 t2 : pystr) :
  str_lt t1 t2 = true ->
  sorted_reverse [(c, t1); (c, t2)] = [(c, t2); (c, t1)] /\
  sorted_reverse [(c, t2); (c, t1)] = [(c, t2); (c, t1)].
Proof.
  intros H. pose proof (str_lt_asym _ _ H) as H'.
  assert (E : Qeq_bool c c = true) by (apply Qeq_bool_iff; reflexivity).
  unfold sorted_reverse, tuple_lt. simpl. unfold tuple_lt. simpl.
  now rewrite E, H, H'.
Qed.

(** ** C5: filtering and joining *)

(** [api/ocr.py] keeps the surviving lines in the order of the page. *)
Lemma api_keeps_page_order :
  Api.extract_text_from_paddle_result
    [Some [OcrLine (lit "a") (6 # 10); OcrLine (lit "b") (9 # 10)]] = lit "a b" /\
  lit "a b" <> lit "b a".
Proof. split; [vm_compute; reflexivity | discriminate]. Qed.

(** C5, amended.  Both normalisers keep exactly the lines whose confidence
    is above the threshold (0.5 in [api/ocr.py], 0.3 in [backend/app.py])
    and join their texts with single spaces; the result is the empty
    string when no line survives.  [backend/app.py] orders the surviving
    lines by confidence descending; [api/ocr.py] keeps them in the order
    of the page. *)
Theorem normalizer_filters_and_joins (result : paddle_result) :
  let lines := page_lines result in
  (forall threshold line,
     In line (survivors threshold lines) <->
     In line lines /\ (threshold < line_confidence line)%Q) /\
  Api.extract_text_from_paddle_result result =
    join [SPACE] (List.map line_text (survivors threshold_half lines)) /\
  (exists L, Permutation L (pairs_of (survivors threshold_03 lines)) /\
             confidence_descending L /\
             Backend.extract_text_from_paddle_result result = join [SPACE] (List.map snd L)) /\
  (survivors threshold_half lines = [] -> Api.extract_text_from_paddle_result result = []) /\
  (survivors threshold_03 lines = [] ->
   Backend.extract_text_from_paddle_result result = []) /\
  Api.extract_text_from_paddle_result
    [Some [OcrLine (lit "札幌") (2 # 10); OcrLine (lit "さ") (9 # 10)]] = lit "さ".
Proof.
  cbv zeta. split; [| split; [| split; [| split; [| split]]]].
  - intros threshold line. apply survivors_spec.
  - apply api_extract_spec.
  - exists (sorted_reverse (pairs_of (survivors threshold_03 (page_lines result)))).
    split; [apply sorted_reverse_perm |]. split; [| apply backend_extract_spec].
    apply (strongly_sorted_weaken _ (fun a b => tuple_lt a b = false)).
    + intros a b. apply tuple_ge_confidence.
    + apply sorted_reverse_descending.
  - intros H. now rewrite api_extract_spec, H.
  - intros H. now rewrite backend_extract_spec, H.
  - vm_compute; reflexivity.
Qed.

Lemma normalizer_filters_and_joins_witness :
  Backend.extract_text_from_paddle_result
    [Some [OcrLine (lit "札幌") (2 # 10); OcrLine (lit "さ") (1 # 4)]] = [].
Proof.
  destruct (normalizer_filters_and_joins
              [Some [OcrLine (lit "札幌") (2 # 10); OcrLine (lit "さ") (1 # 4)]])
    as (_ & _ & _ & _ & H & _).
  apply H. reflexivity.
Defined.

(** ** C10: ties in [backend/app.py] *)

(** C10.  The normaliser of [backend/app.py] orders the surviving lines by
    sorting the tuples (confidence, text) in reverse: its output lists a
    permutation of the surviving tuples in which no tuple is followed by a
    greater one, tuples being compared by confidence first and by text,
    lexicographically on code points, when the confidences are equal.  Two
    lines of equal confidence therefore come out with the greater text
    first, whatever their order on the page.  The result is a function of
    the line sequence. *)
Theorem backend_ties_by_text (result : paddle_result) :
  let lines := page_lines result in
  (exists L, L = sorted_reverse (pairs_of (survivors threshold_03 lines)) /\
             Permutation L (pairs_of (survivors threshold_03 lines)) /\
             tuple_descending L /\
             Backend.extract_text_from_paddle_result result = join [SPACE] (List.map snd L)) /\
  (forall a b, tuple_lt a b = true <->
               (fst a < fst b)%Q \/ (fst a == fst b /\ str_lt (snd a) (snd b) = true)) /\
  (forall c t1 t2, (threshold_03 < c)%Q -> str_lt t1 t2 = true ->
     Backend.extract_text_from_paddle_result [Some [OcrLine t1 c; OcrLine t2 c]]
       = t2 ++ [SPACE] ++ t1 /\
     Backend.extract_text_from_paddle_result [Some [OcrLine t2 c; OcrLine t1 c]]
       = t2 ++ [SPACE] ++ t1).
Proof.
  cbv zeta. split; [| split].
  - eexists. split; [reflexivity |].
    split; [apply sorted_reverse_perm |].
    split; [apply sorted_reverse_descending | apply backend_extract_spec].
  - intros a b. unfold tuple_lt. destruct (Qeq_bool (fst a) (fst b)) eqn:E.
    + apply Qeq_bool_iff in E. split; [now right | intros [H | [_ H]]; [lra | assumption]].
    + apply Qeq_bool_neq in E. rewrite negb_true_iff. split.
      * intros H. left. destruct (Qlt_le_dec (fst a) (fst b)) as [Hlt | Hle]; [assumption |].
        apply Qle_bool_iff in Hle. congruence.
      * intros [H | [H _]]; [| contradiction].
        destruct (Qle_bool (fst b) (fst a)) eqn:E'; [| reflexivity].
        apply Qle_bool_iff in E'. lra.
  - intros c t1 t2 Hc Ht. apply Qgtb_spec in Hc.
    destruct (sorted_reverse_tie c t1 t2 Ht) as [E1 E2].
    rewrite !backend_extract_spec. unfold page_lines, survivors, pairs_of. simpl.
    rewrite Hc. simpl. now rewrite E1, E2.
Qed.

Lemma backend_ties_by_text_witness :
  Backend.extract_text_from_paddle_result
    [Some [OcrLine (lit "a") (9 # 10); OcrLine (lit "b") (9 # 10)]] = lit "b a" /\
  Backend.extract_text_from_paddle_result
    [Some [OcrLine (lit "b") (9 # 10); OcrLine (lit "a") (9 # 10)]] = lit "b a".
Proof.
  destruct (backend_ties_by_text []) as (_ & _ & H).
  apply (H (9 # 10) (lit "a") (lit "b")); reflexivity.
Defined.

(** In the third tier of [api/ocr.py] a serial of one digit, U+2212 and two digits has four
    characters and no ASCII hyphen, so it is split like four digits. *)
Lemma api_short_minus_serial_example :
  api_short_minus_serial (normalize_whitespace (lit "1−23")) /\
  Api.parse_japanese_license_plate (lit "1−23") !! "number" = Some (lit "1−-23").
Proof.
  split; [| vm_compute; reflexivity].
  split; [vm_compute; reflexivity |]. split; [vm_compute; reflexivity |].
  eexists. split; [vm_compute; reflexivity |]. split; vm_compute; reflexivity.
Qed.

(** * Further properties of the code *)

(** ** The normalised text is its words joined by single spaces *)

Lemma split_from_replace_char (a : char) (cur s : pystr) :
  is_space a = true ->
  split_from cur (replace_char a SPACE s) = split_from cur s.
Proof.
  intros Ha. revert cur. induction s as [| c r IH]; intros cur; [reflexivity |].
  simpl. destruct (N.eqb_spec c a) as [-> | _].
  - rewrite space_is_space, Ha. destruct cur; now rewrite IH.
  - destruct (is_space c); [destruct cur |]; now rewrite IH.
Qed.

Lemma normalize_is_join_split (text : pystr) :
  normalize_whitespace text = join [SPACE] (split text).
Proof.
  change (normalize_whitespace text) with (Backend.clean text).
  rewrite <- clean_variants_agree. unfold Api.clean, split.
  now rewrite !split_from_replace_char.
Qed.

Lemma no_space_cons (c : char) (s : pystr) :
  no_space (c :: s) <-> is_space c = false /\ no_space s.
Proof. unfold no_space. simpl. rewrite andb_true_iff, negb_true_iff. reflexivity. Qed.

Lemma split_from_words (s cur : pystr) :
  no_space cur -> Forall word (split_from cur s).
Proof.
  assert (R : forall l : pystr, l <> [] -> no_space l -> word (rev l)).
  { intros l Hne Hl. split; [| now apply no_space_rev].
    intros E. apply Hne. rewrite <- (rev_involutive l), E. reflexivity. }
  revert cur. induction s as [| c r IH]; intros cur Hcur; simpl.
  - destruct cur as [| x cur]; constructor; [| constructor]. now apply R.
  - destruct (is_space c) eqn:E.
    + destruct cur as [| x cur]; [now apply IH |].
      constructor; [now apply R | now apply IH].
    + apply IH. now apply no_space_cons.
Qed.

Lemma split_words (s : pystr) : Forall word (split s).
Proof. apply split_from_words. reflexivity. Qed.

Lemma split_from_word (w cur t : pystr) :
  no_space w -> split_from cur (w ++ t) = split_from (rev w ++ cur) t.
Proof.
  revert cur. induction w as [| c w IH]; intros cur Hw; [reflexivity |].
  apply no_space_cons in Hw. destruct Hw as [Hc Hw].
  simpl. rewrite Hc, IH by assumption. now rewrite <- app_assoc.
Qed.

Lemma split_join (ws : list pystr) : Forall word ws -> split (join [SPACE] ws) = ws.
Proof.
  unfold split. induction ws as [| w ws IH]; intros H; [reflexivity |].
  inversion H as [| ? ? [Hne Hw] Hws]; subst.
  assert (Hr : rev w <> []).
  { intros E. apply Hne. rewrite <- (rev_involutive w), E. reflexivity. }
  destruct ws as [| w' ws].
  - simpl. rewrite <- (app_nil_r w) at 1. rewrite split_from_word by assumption.
    simpl. rewrite app_nil_r. destruct (rev w) eqn:E; [congruence |].
    now rewrite <- E, rev_involutive.
  - rewrite join_cons2, split_from_word by assumption.
    change ([SPACE] ++ join [SPACE] (w' :: ws)) with (SPACE :: join [SPACE] (w' :: ws)).
    cbn [split_from]. rewrite space_is_space, app_nil_r, IH by assumption.
    destruct (rev w) eqn:E; [congruence |]. now rewrite <- E, rev_involutive.
Qed.

Lemma in_join_words (ws : list pystr) (c : char) :
  In c (join [SPACE] ws) -> c = SPACE \/ exists w, In w ws /\ In c w.
Proof.
  induction ws as [| w ws IH]; [intros [] |].
  destruct ws as [| w' ws].
  - simpl. intros H. right. exists w. auto.
  - rewrite join_cons2, !in_app_iff. intros [H | [H | H]].
    + right. exists w. split; [now left | assumption].
    + left. destruct H as [<- | []]. reflexivity.
    + destruct (IH H) as [-> | (w0 & Hw0 & Hc)]; [now left |].
      right. exists w0. split; [now right | assumption].
Qed.

Lemma no_space_in (w : pystr) (c : char) : no_space w -> In c w -> is_space c = false.
Proof.
  unfold no_space. rewrite forallb_forall. intros H Hc.
  apply negb_true_iff. now apply H.
Qed.

(** The normalised text is the words of the input joined by single U+0020:
    no other white space is left, in particular no line break, and the
    [replace] calls of the source change nothing that [split] or [\s+]
    would not do. *)
Theorem normalized_text_shape (text : pystr) :
  let clean_text := normalize_whitespace text in
  clean_text = join [SPACE] (split text) /\
  Forall word (split text) /\
  (forall c, In c clean_text -> is_space c = true -> c = SPACE) /\
  ~ In LF clean_text /\ ~ In CR clean_text /\
  Api.clean text = clean_text /\ Backend.clean text = clean_text /\
  Simple.clean text = clean_text.
Proof.
  cbv zeta. pose proof (split_words text) as Hw.
  assert (Hsp : forall c, In c (normalize_whitespace text) -> is_space c = true -> c = SPACE).
  { intros c Hc Hs. rewrite normalize_is_join_split in Hc.
    destruct (in_join_words _ _ Hc) as [-> | (w & Hin & Hcw)]; [reflexivity |].
    rewrite List.Forall_forall in Hw. destruct (Hw w Hin) as [_ Hns].
    rewrite (no_space_in w c Hns Hcw) in Hs. discriminate. }
  split; [apply normalize_is_join_split |]. split; [assumption |].
  split; [assumption |].
  split; [intros H; specialize (Hsp LF H eq_refl); discriminate |].
  split; [intros H; specialize (Hsp CR H eq_refl); discriminate |].
  split; [apply clean_variants_agree | split; reflexivity].
Qed.

(** ** Parsing the normalised text again *)

Lemma normalize_idempotent (text : pystr) :
  normalize_whitespace (normalize_whitespace text) = normalize_whitespace text.
Proof.
  rewrite (normalize_is_join_split (normalize_whitespace text)).
  rewrite (normalize_is_join_split text).
  now rewrite split_join by apply split_words.
Qed.

Lemma backend_parse_clean (t1 t2 : pystr) :
  Backend.clean t1 = Backend.clean t2 ->
  Backend.parse_japanese_license_plate t1 = Backend.parse_japanese_license_plate t2.
Proof. intros H. unfold Backend.parse_japanese_license_plate. now rewrite H. Qed.

Lemma api_parse_clean (t1 t2 : pystr) :
  Api.clean t1 = Api.clean t2 ->
  Api.parse_japanese_license_plate t1 = Api.parse_japanese_license_plate t2.
Proof. intros H. unfold Api.parse_japanese_license_plate. now rewrite H. Qed.

Lemma simple_parse_clean (t1 t2 : pystr) :
  Simple.clean t1 = Simple.clean t2 ->
  Simple.parse_simple_plate t1 = Simple.parse_simple_plate t2.
Proof. intros H. unfold Simple.parse_simple_plate. now rewrite H. Qed.

(** Parsing the [full_text] of a result gives the same result again: the
    parsers see their input only through its normalisation, which is
    idempotent. *)
Theorem reparse_full_text (text full_text : pystr) :
  (Backend.parse_japanese_license_plate text !! "full_text" = Some full_text ->
   Backend.parse_japanese_license_plate full_text =
   Backend.parse_japanese_license_plate text) /\
  (Api.parse_japanese_license_plate text !! "full_text" = Some full_text ->
   Api.parse_japanese_license_plate full_text = Api.parse_japanese_license_plate text) /\
  (Simple.parse_simple_plate text !! "full_text" = Some full_text ->
   Simple.parse_simple_plate full_text = Simple.parse_simple_plate text).
Proof.
  split; [| split]; intros H.
  - destruct (covers_backend text) as [_ Hf]. rewrite Hf in H. injection H as <-.
    apply backend_parse_clean. apply normalize_idempotent.
  - destruct (covers_api text) as [_ Hf]. rewrite Hf in H. injection H as <-.
    apply api_parse_clean. rewrite !clean_variants_agree. apply normalize_idempotent.
  - destruct (covers_simple text) as [_ Hf]. rewrite Hf in H. injection H as <-.
    apply simple_parse_clean. apply normalize_idempotent.
Qed.

Lemma reparse_full_text_witness :
  Backend.parse_japanese_license_plate (lit "品川 500 あ 12-34") =
  Backend.parse_japanese_license_plate (lit "  品川" ++ [LF] ++ lit "500   あ 12-34 ").
Proof.
  destruct (reparse_full_text (lit "  品川" ++ [LF] ++ lit "500   あ 12-34 ") (lit "品川 500 あ 12-34"))
    as (H & _).
  apply H. vm_compute. reflexivity.
Defined.

(** ** Normalisation touches white space only *)

Lemma filter_non_space_replace_char (a : char) (s : pystr) :
  is_space a = true ->
  List.filter (fun c => negb (is_space c)) (replace_char a SPACE s) =
  List.filter (fun c => negb (is_space c)) s.
Proof.
  intros Ha. induction s as [| c r IH]; [reflexivity |].
  unfold replace_char in *. cbn [List.map List.filter].
  destruct (N.eqb_spec c a) as [-> | _].
  - rewrite space_is_space, Ha. exact IH.
  - now rewrite IH.
Qed.

Lemma filter_non_space_sub_spaces (b : bool) (s : pystr) :
  List.filter (fun c => negb (is_space c)) (sub_spaces_from b s) =
  List.filter (fun c => negb (is_space c)) s.
Proof.
  revert b. induction s as [| c r IH]; intros b; [reflexivity |].
  cbn [sub_spaces_from List.filter].
  destruct (is_space c) eqn:E; cbn [negb].
  - destruct b; [apply IH |]. cbn [List.filter]. rewrite space_is_space. apply IH.
  - cbn [List.filter]. rewrite E. cbn [negb]. now rewrite IH.
Qed.

Lemma filter_non_space_lstrip (s : pystr) :
  List.filter (fun c => negb (is_space c)) (lstrip s) =
  List.filter (fun c => negb (is_space c)) s.
Proof.
  induction s as [| c r IH]; [reflexivity |]. cbn [lstrip List.filter].
  destruct (is_space c) eqn:E; cbn [negb]; [exact IH |].
  cbn [List.filter]. now rewrite E.
Qed.

Lemma filter_non_space_rstrip (s : pystr) :
  List.filter (fun c => negb (is_space c)) (rstrip s) =
  List.filter (fun c => negb (is_space c)) s.
Proof.
  unfold rstrip.
  rewrite List.filter_rev, filter_non_space_lstrip, <- List.filter_rev.
  now rewrite rev_involutive.
Qed.

(** The characters of the normalised text that are not white space are
    those of the input, in the same order. *)
Theorem normalization_keeps_non_space (text : pystr) :
  List.filter (fun c => negb (is_space c)) (normalize_whitespace text) =
  List.filter (fun c => negb (is_space c)) text.
Proof.
  unfold normalize_whitespace, strip, sub_spaces.
  rewrite filter_non_space_rstrip, filter_non_space_lstrip, filter_non_space_sub_spaces.
  now rewrite !filter_non_space_replace_char.
Qed.

Lemma filter_digit_non_space (s : pystr) :
  List.filter is_digit (List.filter (fun c => negb (is_space c)) s) = List.filter is_digit s.
Proof.
  induction s as [| c r IH]; [reflexivity |]. cbn [List.filter].
  destruct (is_space c) eqn:E; cbn [negb List.filter].
  - now rewrite (space_not_digit c E).
  - now rewrite IH.
Qed.

Lemma count_digits_normalized (text : pystr) :
  count_digits (normalize_whitespace text) = count_digits text.
Proof.
  unfold count_digits.
  now rewrite <- filter_digit_non_space, normalization_keeps_non_space, filter_digit_non_space.
Qed.

(** ** How many digits a match needs *)

Ltac count_pieces :=
  invert_matches; unfold text_of; cbn [List.map snd concat];
  rewrite ?count_digits_app;
  repeat match goal with
         | H : forallb is_digit ?l = true |- _ =>
             rewrite (count_digits_all l H); clear H
         end;
  lia.

Lemma full_pattern1_digit_count (n : nat) (seps : pystr) (m : re_match) :
  matches (full_pattern1 n seps) m -> (6 <= count_digits (text_of m))%nat.
Proof. unfold full_pattern1. intros H. count_pieces. Qed.

Lemma full_pattern2_digit_count (n : nat) (m : re_match) :
  matches (full_pattern2 n) m -> (7 <= count_digits (text_of m))%nat.
Proof. unfold full_pattern2. intros H. count_pieces. Qed.

Lemma serial_pattern_digit_count (seps : pystr) (m : re_match) :
  matches (serial_pattern seps) m -> (3 <= count_digits (text_of m))%nat.
Proof. unfold serial_pattern. intros H. count_pieces. Qed.

Lemma digit_pattern_digit_count (n : nat) (m : re_match) :
  matches [rep is_digit n n 1] m -> (n <= count_digits (text_of m))%nat.
Proof. intros H. count_pieces. Qed.

Lemma simple_number_digit_count (m : re_match) :
  matches Simple.number_pattern m -> (3 <= count_digits (text_of m))%nat.
Proof. unfold Simple.number_pattern. intros H. count_pieces. Qed.

Lemma search_few_digits (p : pattern) (k : nat) (s : pystr) :
  (forall m, matches p m -> (k <= count_digits (text_of m))%nat) ->
  (count_digits s < k)%nat -> search p s = None.
Proof.
  intros Hp Hs. apply search_none_iff. intros m Hm Ho.
  apply count_digits_occurs in Ho. specialize (Hp m Hm). lia.
Qed.

(** A text with fewer than three digits has neither number nor
    classification, in all three parsers; a full match of the first tier
    needs six digits and one of the second tier seven. *)
Theorem few_digits_no_number (text : pystr) :
  let clean_text := normalize_whitespace text in
  ((count_digits text < 3)%nat ->
   Backend.parse_japanese_license_plate text !! "number" = Some [] /\
   Backend.parse_japanese_license_plate text !! "classification" = Some [] /\
   Api.parse_japanese_license_plate text !! "number" = Some [] /\
   Api.parse_japanese_license_plate text !! "classification" = Some [] /\
   Simple.parse_simple_plate text !! "number" = Some [] /\
   Simple.parse_simple_plate text !! "classification" = Some []) /\
  ((count_digits text < 6)%nat ->
   search Backend.pattern1 clean_text = None /\ search Api.pattern1 clean_text = None) /\
  ((count_digits text < 7)%nat ->
   search Backend.pattern2 clean_text = None /\ search Api.pattern2 clean_text = None).
Proof.
  cbv zeta. rewrite <- (count_digits_normalized text).
  set (c := normalize_whitespace text).
  assert (P1 : forall n seps, (count_digits c < 6)%nat -> search (full_pattern1 n seps) c = None).
  { intros n seps. apply search_few_digits. apply full_pattern1_digit_count. }
  assert (P2 : forall n, (count_digits c < 7)%nat -> search (full_pattern2 n) c = None).
  { intros n. apply search_few_digits. apply full_pattern2_digit_count. }
  split; [| split].
  - intros H.
    assert (S3 : forall seps, search (serial_pattern seps) c = None).
    { intros seps. apply (search_few_digits _ 3); [apply serial_pattern_digit_count | lia]. }
    assert (D4 : search [rep is_digit 4 4 1] c = None).
    { apply (search_few_digits _ 4); [apply digit_pattern_digit_count | lia]. }
    assert (D3 : search [rep is_digit 3 3 1] c = None).
    { apply (search_few_digits _ 3); [apply digit_pattern_digit_count | lia]. }
    assert (SN : search Simple.number_pattern c = None).
    { apply (search_few_digits _ 3); [apply simple_number_digit_count | lia]. }
    assert (B1 : search Backend.pattern1 (Backend.clean text) = None) by (apply (P1 5%nat separators3); lia).
    assert (B2 : search Backend.pattern2 (Backend.clean text) = None) by (apply (P2 5%nat); lia).
    assert (A1 : search Api.pattern1 (Api.clean text) = None).
    { rewrite clean_variants_agree. apply (P1 4%nat separators2). lia. }
    assert (A2 : search Api.pattern2 (Api.clean text) = None).
    { rewrite clean_variants_agree. apply (P2 4%nat). lia. }
    destruct (backend_tier3_numeric text B1 B2) as (R & Rn & Rc & ->).
    destruct (api_tier3_numeric text A1 A2) as (R' & Rn' & Rc' & ->).
    rewrite backend_number_loop_none, api_number_loop_none.
    + destruct (simple_lookups text) as (_ & Hn & _ & Hc). cbv zeta in Hn, Hc.
      change (Simple.clean text) with c in Hn, Hc.
      change (Simple.class_pattern) with [rep is_digit 3 3 1] in Hc.
      rewrite SN in Hn. rewrite D3 in Hc. repeat split; assumption.
    + rewrite clean_variants_agree.
      intros p [<- | [<- | [<- | []]]]; [apply (S3 separators2) | exact D4 | exact D3].
    + intros p [<- | [<- | [<- | []]]]; [apply (S3 separators3) | exact D4 | exact D3].
  - intros H. split; [apply (P1 5%nat separators3 H) | apply (P1 4%nat separators2 H)].
  - intros H. split; [apply (P2 5%nat H) | apply (P2 4%nat H)].
Qed.

Lemma few_digits_no_number_witness :
  Backend.parse_japanese_license_plate (lit "横浜 あ 12") !! "number" = Some [] /\
  Backend.parse_japanese_license_plate (lit "横浜 あ 12") !! "classification" = Some [].
Proof.
  destruct (few_digits_no_number (lit "横浜 あ 12")) as (H & _).
  destruct H as (Hn & Hc & _); [vm_compute; lia | now split].
Defined.

(** ** Blank input *)

Lemma split_from_blank (s : pystr) : forallb is_space s = true -> split_from [] s = [].
Proof.
  induction s as [| c r IH]; [reflexivity |]. simpl.
  rewrite andb_true_iff. intros [Hc Hr]. rewrite Hc. now apply IH.
Qed.

Lemma find_region_absent (regions : list pystr) (clean_text : pystr) (result : plate) :
  forallb (fun r => negb (contains r clean_text)) regions = true ->
  find_region regions clean_text result = result.
Proof.
  induction regions as [| r rs IH]; simpl; [reflexivity |].
  rewrite andb_true_iff, negb_true_iff. intros [Hr Hrs]. rewrite Hr. now apply IH.
Qed.

Lemma backend_parse_nil : Backend.parse_japanese_license_plate [] = new_result [].
Proof.
  unfold Backend.parse_japanese_license_plate. cbv zeta.
  change (Backend.clean []) with (@nil char).
  replace (search Backend.pattern1 []) with (@None re_match) by reflexivity.
  replace (search Backend.pattern2 []) with (@None re_match) by reflexivity.
  replace (search Backend.hiragana_pattern []) with (@None re_match) by reflexivity.
  rewrite find_region_absent by reflexivity.
  apply backend_number_loop_none.
  intros p [<- | [<- | [<- | []]]]; reflexivity.
Qed.

Lemma api_parse_nil : Api.parse_japanese_license_plate [] = new_result [].
Proof.
  unfold Api.parse_japanese_license_plate. cbv zeta.
  change (Api.clean []) with (@nil char).
  replace (search Api.pattern1 []) with (@None re_match) by reflexivity.
  replace (search Api.pattern2 []) with (@None re_match) by reflexivity.
  replace (search Api.hiragana_pattern []) with (@None re_match) by reflexivity.
  rewrite find_region_absent by reflexivity.
  apply api_number_loop_none.
  intros p [<- | [<- | [<- | []]]]; reflexivity.
Qed.

Lemma simple_parse_nil : Simple.parse_simple_plate [] = new_result [].
Proof.
  unfold Simple.parse_simple_plate. cbv zeta.
  change (Simple.clean []) with (@nil char).
  replace (search Simple.number_pattern []) with (@None re_match) by reflexivity.
  replace (search Simple.class_pattern []) with (@None re_match) by reflexivity.
  replace (search Simple.hiragana_pattern []) with (@None re_match) by reflexivity.
  now rewrite find_region_absent by reflexivity.
Qed.

(** A text of white space only, the empty text included, parses to the
    record whose five fields are all empty, in the three variants. *)
Theorem blank_input_empty_record (text : pystr) :
  forallb is_space text = true ->
  Backend.parse_japanese_license_plate text = new_result [] /\
  Api.parse_japanese_license_plate text = new_result [] /\
  Simple.parse_simple_plate text = new_result [].
Proof.
  intros H.
  assert (E : normalize_whitespace text = []).
  { rewrite normalize_is_join_split. unfold split. now rewrite split_from_blank. }
  split; [| split].
  - rewrite (backend_parse_clean text []) by exact E. apply backend_parse_nil.
  - rewrite (api_parse_clean text []) by (rewrite clean_variants_agree; exact E).
    apply api_parse_nil.
  - rewrite (simple_parse_clean text []) by exact E. apply simple_parse_nil.
Qed.

Lemma blank_input_empty_record_witness :
  Backend.parse_japanese_license_plate [SPACE; LF; 12288] = new_result [].
Proof.
  destruct (blank_input_empty_record [SPACE; LF; 12288]) as (H & _); [reflexivity | exact H].
Defined.

(** ** The full patterns of the two tiered variants *)

Lemma full_pattern1_wider (n n' : nat) (seps seps' : pystr) (m : re_match) :
  (n <= n')%nat -> (forall c, In c seps -> In c seps') ->
  matches (full_pattern1 n seps) m -> matches (full_pattern1 n' seps') m.
Proof.
  intros Hn Hs. unfold full_pattern1. intros H. invert_matches.
  repeat match goal with
         | H : forall h, Some ?x = Some h -> _ |- _ => specialize (H _ eq_refl)
         end.
  repeat (constructor; [unfold atom_ok; cbn [fst snd a_class a_min a_max a_group rep star];
                        repeat split; try assumption; try lia;
                        try (intros h [= <-]; lia); try (intros h; discriminate) |]);
    try constructor.
  match goal with
  | H : forallb (one_of seps) ?l = true |- forallb (one_of seps') ?l = true =>
      rewrite forallb_forall in *; intros c Hc; apply one_of_spec, Hs, one_of_spec; now apply H
  end.
Qed.

Lemma full_pattern2_wider (n n' : nat) (m : re_match) :
  (n <= n')%nat -> matches (full_pattern2 n) m -> matches (full_pattern2 n') m.
Proof.
  intros Hn. unfold full_pattern2. intros H. invert_matches.
  repeat match goal with
         | H : forall h, Some ?x = Some h -> _ |- _ => specialize (H _ eq_refl)
         end.
  repeat (constructor; [unfold atom_ok; cbn [fst snd a_class a_min a_max a_group rep star];
                        repeat split; try assumption; try lia;
                        try (intros h [= <-]; lia); try (intros h; discriminate) |]);
    constructor.
Qed.

(** Every text on which [api/ocr.py] finds a full match (first or second
    tier) is one on which [backend/app.py] finds a full match of the same
    tier: the patterns of [backend/app.py] allow a longer region and one
    separator more. *)
Theorem api_full_match_implies_backend (clean_text : pystr) :
  (forall m, search Api.pattern1 clean_text = Some m ->
             exists m', search Backend.pattern1 clean_text = Some m') /\
  (forall m, search Api.pattern2 clean_text = Some m ->
             exists m', search Backend.pattern2 clean_text = Some m').
Proof.
  split; intros m Hs; destruct (search_sound _ _ _ Hs) as [Hm Ho].
  - assert (Hm' : matches Backend.pattern1 m).
    { apply (full_pattern1_wider 4 5 separators2 separators3); [lia | | exact Hm].
      intros c Hc. apply one_of_spec, separators2_in_3, one_of_spec, Hc. }
    destruct (search_finds Backend.pattern1 clean_text) as (m' & Hs' & _); eauto.
  - assert (Hm' : matches Backend.pattern2 m).
    { apply (full_pattern2_wider 4 5); [lia | exact Hm]. }
    destruct (search_finds Backend.pattern2 clean_text) as (m' & Hs' & _); eauto.
Qed.

Lemma api_full_match_implies_backend_witness :
  exists m', search Backend.pattern1 (lit "品川 500 あ 12-34") = Some m'.
Proof.
  destruct (api_full_match_implies_backend (lit "品川 500 あ 12-34")) as (H & _).
  eapply H. vm_compute. reflexivity.
Defined.

(** ** Formats of the region and of the hiragana *)

Lemma find_in_class (cls : char -> bool) (s : pystr) :
  empty_or (fun h => exists ch, h = [ch] /\ cls ch = true /\ In ch s)
    (Some (match List.find cls s with Some ch => [ch] | None => [] end)).
Proof.
  eexists. split; [reflexivity |].
  destruct (List.find cls s) as [ch |] eqn:E; [right | now left].
  apply find_some in E. destruct E as [Hin Hc]. exists ch. auto.
Qed.

Lemma find_in_catalog (regions : list pystr) (clean_text : pystr) :
  empty_or (fun r => In r regions /\ occurs_in r clean_text)
    (Some (match List.find (fun r => contains r clean_text) regions with
           | Some r => r | None => [] end)).
Proof.
  eexists. split; [reflexivity |].
  destruct (List.find _ regions) as [r |] eqn:E; [right | now left].
  apply find_some in E. destruct E as [Hin Hc]. split; [assumption | now apply contains_spec].
Qed.

Lemma empty_or_weaken (P Q : pystr -> Prop) (v : option pystr) :
  (forall s, P s -> Q s) -> empty_or P v -> empty_or Q v.
Proof. intros H (s & Hv & Hs). exists s. split; [assumption |]. destruct Hs; auto. Qed.

Lemma empty_or_eq (P : pystr -> Prop) (v w : option pystr) :
  v = w -> empty_or P w -> empty_or P v.
Proof. now intros ->. Qed.

(** For every input the hiragana is empty or one character of the range
    U+3042 to U+3093, and the region is empty, an entry of the catalogue of
    the variant, or (after a full match) one to five characters (four in
    [api/ocr.py]) that are neither digits nor white space; the region never
    holds a digit or white space. *)
Theorem region_and_hiragana_formats (text : pystr) :
  (empty_or one_hiragana (Backend.parse_japanese_license_plate text !! "hiragana") /\
   empty_or (fun r => In r Backend.regions \/ region_run 5 r)
            (Backend.parse_japanese_license_plate text !! "region")) /\
  (empty_or one_hiragana (Api.parse_japanese_license_plate text !! "hiragana") /\
   empty_or (fun r => In r Api.regions \/ region_run 4 r)
            (Api.parse_japanese_license_plate text !! "region")) /\
  (empty_or one_hiragana (Simple.parse_simple_plate text !! "hiragana") /\
   empty_or (fun r => In r Simple.regions) (Simple.parse_simple_plate text !! "region")) /\
  (forall r, Backend.parse_japanese_license_plate text !! "region" = Some r \/
             Api.parse_japanese_license_plate text !! "region" = Some r \/
             Simple.parse_simple_plate text !! "region" = Some r ->
             forallb not_digit_space r = true /\ (length r <= 5)%nat).
Proof.
  assert (HB : empty_or one_hiragana (Backend.parse_japanese_license_plate text !! "hiragana") /\
               empty_or (fun r => In r Backend.regions \/ region_run 5 r)
                 (Backend.parse_japanese_license_plate text !! "region")).
  { destruct (search Backend.pattern1 (Backend.clean text)) as [m |] eqn:E1.
    { destruct (search_sound _ _ _ E1) as [Hm _].
      destruct (full_pattern1_groups 5 separators3 m Hm) as (G1 & _ & G3 & _).
      rewrite (backend_tier1 text m E1).
      destruct (record_of_lookups (Backend.clean text) (group 1 m) (group 2 m)
                  (group 3 m) (group 4 m)) as (Er & _ & Eh & _).
      split; eexists; (split; [eassumption |]); auto. }
    destruct (search Backend.pattern2 (Backend.clean text)) as [m |] eqn:E2.
    { destruct (search_sound _ _ _ E2) as [Hm _].
      destruct (full_pattern2_groups 5 m Hm) as (G1 & _ & G3 & _).
      rewrite (backend_tier2 text m E1 E2).
      destruct (record_of_lookups (Backend.clean text) (group 1 m) (group 2 m)
                  (group 3 m) (hyphenate (group 4 m))) as (Er & _ & Eh & _).
      split; eexists; (split; [eassumption |]); auto. }
    split.
    - apply (empty_or_eq _ _ _ (backend_tier3_hiragana text E1 E2)).
      eapply empty_or_weaken; [| apply (find_in_class is_hiragana)].
      intros h (ch & -> & Hc & _). exists ch. auto.
    - apply (empty_or_eq _ _ _ (backend_tier3_region text E1 E2)).
      eapply empty_or_weaken; [| apply (find_in_catalog Backend.regions)].
      intros r [Hin _]. now left. }
  assert (HA : empty_or one_hiragana (Api.parse_japanese_license_plate text !! "hiragana") /\
               empty_or (fun r => In r Api.regions \/ region_run 4 r)
                 (Api.parse_japanese_license_plate text !! "region")).
  { destruct (search Api.pattern1 (Api.clean text)) as [m |] eqn:E1.
    { destruct (search_sound _ _ _ E1) as [Hm _].
      destruct (full_pattern1_groups 4 separators2 m Hm) as (G1 & _ & G3 & _).
      rewrite (api_tier1 text m E1).
      destruct (record_of_lookups (Api.clean text) (group 1 m) (group 2 m)
                  (group 3 m) (group 4 m)) as (Er & _ & Eh & _).
      split; eexists; (split; [eassumption |]); auto. }
    destruct (search Api.pattern2 (Api.clean text)) as [m |] eqn:E2.
    { destruct (search_sound _ _ _ E2) as [Hm _].
      destruct (full_pattern2_groups 4 m Hm) as (G1 & _ & G3 & _).
      rewrite (api_tier2 text m E1 E2).
      destruct (record_of_lookups (Api.clean text) (group 1 m) (group 2 m)
                  (group 3 m) (hyphenate (group 4 m))) as (Er & _ & Eh & _).
      split; eexists; (split; [eassumption |]); auto. }
    split.
    - apply (empty_or_eq _ _ _ (api_tier3_hiragana text E1 E2)).
      eapply empty_or_weaken; [| apply (find_in_class (one_of Api.hiragana_list))].
      intros h (ch & -> & Hc & _). exists ch. split; [reflexivity |].
      now apply listed_hiragana_in_range.
    - apply (empty_or_eq _ _ _ (api_tier3_region text E1 E2)).
      eapply empty_or_weaken; [| apply (find_in_catalog Api.regions)].
      intros r [Hin _]. now left. }
  assert (HS : empty_or one_hiragana (Simple.parse_simple_plate text !! "hiragana") /\
               empty_or (fun r => In r Simple.regions)
                 (Simple.parse_simple_plate text !! "region")).
  { destruct (simple_lookups text) as (Hr & _ & Hh & _). cbv zeta in Hr, Hh. split.
    - destruct (find_in_class is_hiragana (Simple.clean text)) as (h & Eh & Hsh).
      exists h. split; [etransitivity; [exact Hh | exact Eh] |].
      destruct Hsh as [-> | (ch & -> & Hc & _)]; [now left | right; exists ch; auto].
    - destruct (find_in_catalog Simple.regions (Simple.clean text)) as (r & Er & Hsr).
      exists r. split; [etransitivity; [exact Hr | exact Er] |].
      destruct Hsr as [-> | [Hin _]]; auto. }
  split; [exact HB |]. split; [exact HA |]. split; [exact HS |].
  assert (Cat : forall regions r, forallb (fun r => forallb not_digit_space r &&
                   (length r <=? 5)%nat) regions = true ->
                 In r regions -> forallb not_digit_space r = true /\ (length r <= 5)%nat).
  { intros regions r Hall Hin. rewrite forallb_forall in Hall.
    specialize (Hall r Hin). apply andb_true_iff in Hall. destruct Hall as [H1 H2].
    apply Nat.leb_le in H2. auto. }
  intros r [Hr | [Hr | Hr]].
  - destruct HB as [_ (r' & Er & Hs)]. pose proof (eq_trans (eq_sym Hr) Er) as E0. injection E0 as ->.
    destruct Hs as [-> | [Hin | [Hl Hc]]]; [split; [reflexivity | simpl; lia] | | split; [assumption | lia]].
    apply (Cat Backend.regions); [now vm_compute | assumption].
  - destruct HA as [_ (r' & Er & Hs)]. pose proof (eq_trans (eq_sym Hr) Er) as E0. injection E0 as ->.
    destruct Hs as [-> | [Hin | [Hl Hc]]]; [split; [reflexivity | simpl; lia] | | split; [assumption | lia]].
    apply (Cat Api.regions); [now vm_compute | assumption].
  - destruct HS as [_ (r' & Er & Hs)]. pose proof (eq_trans (eq_sym Hr) Er) as E0. injection E0 as ->.
    destruct Hs as [-> | Hin]; [split; [reflexivity | simpl; lia] |].
    apply (Cat Simple.regions); [now vm_compute | assumption].
Qed.

(** ** The fields are pieces of the text *)

Lemma occurs_in_nil (s : pystr) : occurs_in [] s.
Proof. now exists [], s. Qed.

Lemma occurs_in_refl (s : pystr) : occurs_in s s.
Proof. exists [], []. now rewrite app_nil_r. Qed.

Lemma occurs_in_here (x r : pystr) : occurs_in x (x ++ r).
Proof. now exists [], r. Qed.

Lemma occurs_in_skip (x a b : pystr) : occurs_in x b -> occurs_in x (a ++ b).
Proof. intros (p & q & ->). exists (a ++ p), q. now rewrite <- app_assoc. Qed.

Lemma occurs_in_trans (a b c : pystr) : occurs_in a b -> occurs_in b c -> occurs_in a c.
Proof.
  intros (p & q & ->) (p' & q' & ->). exists (p' ++ p), (q ++ q').
  now rewrite <- !app_assoc.
Qed.

Ltac find_piece :=
  repeat first [ apply occurs_in_refl | apply occurs_in_here | apply occurs_in_skip ].

Lemma full_pattern1_groups_occur (n : nat) (seps : pystr) (m : re_match) :
  matches (full_pattern1 n seps) m ->
  occurs_in (group 1 m) (text_of m) /\ occurs_in (group 2 m) (text_of m) /\
  occurs_in (group 3 m) (text_of m) /\ occurs_in (group 4 m) (text_of m).
Proof.
  unfold full_pattern1. intros H. invert_matches. unfold text_of.
  cbn [group Nat.eqb List.map snd concat]. rewrite ?app_nil_r.
  repeat split; find_piece.
Qed.

Lemma full_pattern2_groups_occur (n : nat) (m : re_match) :
  matches (full_pattern2 n) m ->
  occurs_in (group 1 m) (text_of m) /\ occurs_in (group 2 m) (text_of m) /\
  occurs_in (group 3 m) (text_of m) /\ occurs_in (group 4 m) (text_of m).
Proof.
  unfold full_pattern2. intros H. invert_matches. unfold text_of.
  cbn [group Nat.eqb List.map snd concat]. rewrite ?app_nil_r.
  repeat split; find_piece.
Qed.

Lemma single_atom_group (cls : char -> bool) (lo hi : nat) (m : re_match) :
  matches [rep cls lo hi 1] m -> group 1 m = text_of m.
Proof. intros H. invert_matches. reflexivity. Qed.

Lemma simple_number_group (m : re_match) :
  matches Simple.number_pattern m -> group 1 m = text_of m.
Proof. unfold Simple.number_pattern. intros H. invert_matches. reflexivity. Qed.

Lemma sourced_new (clean_text : pystr) : sourced clean_text (new_result clean_text).
Proof.
  unfold sourced, new_result. split.
  - intros key v H _. revert H.
    repeat (rewrite lookup_insert; case_decide;
            [intros [= <-]; first [apply occurs_in_refl | apply occurs_in_nil] |]).
    now rewrite lookup_empty.
  - intros v. rewrite lookup_insert_ne by discriminate. rewrite lookup_insert_eq.
    intros [= <-]. left. apply occurs_in_nil.
Qed.

Lemma sourced_insert (clean_text : pystr) (result : plate) (key : string) (v : pystr) :
  sourced clean_text result ->
  (key <> "number" -> occurs_in v clean_text) ->
  (key = "number" -> number_from_text clean_text v) ->
  sourced clean_text (<[key := v]> result).
Proof.
  intros [H1 H2] Hv Hn. split.
  - intros k w. rewrite lookup_insert. case_decide.
    + subst k. intros [= <-] Hne. now apply Hv.
    + apply H1.
  - intros w. rewrite lookup_insert. case_decide.
    + intros [= <-]. now apply Hn.
    + apply H2.
Qed.

Lemma sourced_find_region (regions : list pystr) (clean_text : pystr) (result : plate) :
  sourced clean_text result -> sourced clean_text (find_region regions clean_text result).
Proof.
  intros H. induction regions as [| r rs IH]; simpl; [assumption |].
  destruct (contains r clean_text) eqn:E; [| assumption].
  apply sourced_insert; [assumption | | discriminate].
  intros _. now apply contains_spec.
Qed.

Lemma sourced_group (p : pattern) (clean_text : pystr) (m : re_match) :
  (forall m, matches p m -> group 1 m = text_of m) ->
  search p clean_text = Some m -> occurs_in (group 1 m) clean_text.
Proof.
  intros Hp Hs. destruct (search_sound _ _ _ Hs) as [Hm Ho]. now rewrite (Hp m Hm).
Qed.

Lemma sourced_backend_number_loop (ps : list pattern) (i : nat) (clean_text : pystr)
    (result : plate) :
  (forall p, In p ps -> forall m, matches p m -> group 1 m = text_of m) ->
  sourced clean_text result ->
  sourced clean_text (Backend.number_loop i ps clean_text result).
Proof.
  intros Hps H. revert i. induction ps as [| p ps IH]; intros i; simpl; [assumption |].
  destruct (search p clean_text) as [m |] eqn:E.
  - assert (Ho : occurs_in (group 1 m) clean_text).
    { apply (sourced_group p); [apply Hps; now left | assumption]. }
    destruct (i =? 0)%nat.
    { apply sourced_insert; [assumption | intros Hne; now destruct Hne | intros _; now left]. }
    destruct ((i =? 1)%nat && (length (group 1 m) =? 4)%nat) eqn:E4.
    { apply andb_true_iff in E4. destruct E4 as [_ E4]. apply Nat.eqb_eq in E4.
      apply sourced_insert; [assumption | intros Hne; now destruct Hne |].
      intros _. right. exists (group 1 m). auto. }
    destruct ((i =? 2)%nat && (length (group 1 m) =? 3)%nat); [| assumption].
    apply sourced_insert; [assumption | intros _; assumption | discriminate].
  - apply IH. intros q Hq. apply Hps. now right.
Qed.

Lemma sourced_api_number_loop (ps : list pattern) (clean_text : pystr) (result : plate) :
  (forall p, In p ps -> forall m, matches p m -> group 1 m = text_of m) ->
  sourced clean_text result ->
  sourced clean_text (Api.number_loop ps clean_text result).
Proof.
  intros Hps H. induction ps as [| p ps IH]; simpl; [assumption |].
  destruct (search p clean_text) as [m |] eqn:E.
  - assert (Ho : occurs_in (group 1 m) clean_text).
    { apply (sourced_group p); [apply Hps; now left | assumption]. }
    destruct ((length (group 1 m) =? 4)%nat && negb (contains [HYPHEN] (group 1 m))) eqn:E4.
    { apply andb_true_iff in E4. destruct E4 as [E4 _]. apply Nat.eqb_eq in E4.
      apply sourced_insert; [assumption | intros Hne; now destruct Hne |].
      intros _. right. exists (group 1 m). auto. }
    destruct (length (group 1 m) =? 3)%nat.
    { apply sourced_insert; [assumption | intros _; assumption | discriminate]. }
    apply sourced_insert; [assumption | intros Hne; now destruct Hne | intros _; now left].
  - apply IH. intros q Hq. apply Hps. now right.
Qed.

Lemma sourced_record_of (c r k h n : pystr) :
  occurs_in r c -> occurs_in k c -> occurs_in h c -> number_from_text c n ->
  sourced c (record_of c r k h n).
Proof.
  intros Hr Hk Hh Hn. unfold record_of.
  apply sourced_insert; [| intros Hne; now destruct Hne | intros _; assumption].
  apply sourced_insert; [| intros _; assumption | discriminate].
  apply sourced_insert; [| intros _; assumption | discriminate].
  apply sourced_insert; [| intros _; assumption | discriminate].
  apply sourced_new.
Qed.

Lemma number_patterns_groups :
  (forall p, In p Backend.number_patterns -> forall m, matches p m -> group 1 m = text_of m) /\
  (forall p, In p Api.number_patterns -> forall m, matches p m -> group 1 m = text_of m).
Proof.
  split; intros p [<- | [<- | [<- | []]]] m Hm.
  - exact (proj2 (serial_pattern_groups separators3 m Hm)).
  - exact (single_atom_group is_digit 4 4 m Hm).
  - exact (single_atom_group is_digit 3 3 m Hm).
  - exact (proj2 (serial_pattern_groups separators2 m Hm)).
  - exact (single_atom_group is_digit 4 4 m Hm).
  - exact (single_atom_group is_digit 3 3 m Hm).
Qed.

(** No parser invents text: region, classification and hiragana of every
    result occur verbatim in its [full_text], and the number either occurs
    verbatim or is four characters of the text with a hyphen put in the
    middle. *)
Theorem fields_come_from_text (text : pystr) :
  sourced (normalize_whitespace text) (Backend.parse_japanese_license_plate text) /\
  sourced (normalize_whitespace text) (Api.parse_japanese_license_plate text) /\
  sourced (normalize_whitespace text) (Simple.parse_simple_plate text).
Proof.
  change (normalize_whitespace text) with (Backend.clean text).
  destruct number_patterns_groups as [HB HA].
  split; [| split].
  - unfold Backend.parse_japanese_license_plate. cbv zeta.
    destruct (search Backend.pattern1 (Backend.clean text)) as [m |] eqn:E1.
    { destruct (search_sound _ _ _ E1) as [Hm Ho].
      destruct (full_pattern1_groups_occur 5 separators3 m Hm) as (G1 & G2 & G3 & G4).
      apply sourced_record_of; [| | | left]; eapply occurs_in_trans; eassumption. }
    destruct (search Backend.pattern2 (Backend.clean text)) as [m |] eqn:E2.
    { destruct (search_sound _ _ _ E2) as [Hm Ho].
      destruct (full_pattern2_groups_occur 5 m Hm) as (G1 & G2 & G3 & G4).
      destruct (full_pattern2_groups 5 m Hm) as (_ & _ & _ & [Hl _]).
      apply sourced_record_of; [| | | right; exists (group 4 m); split; [| now split]];
        eapply occurs_in_trans; eassumption. }
    apply sourced_backend_number_loop; [exact HB |].
    destruct (search Backend.hiragana_pattern (Backend.clean text)) as [m |] eqn:Eh.
    + apply sourced_insert; [| | discriminate].
      * apply sourced_find_region, sourced_new.
      * intros _. apply (sourced_group Backend.hiragana_pattern); [| assumption].
        apply single_atom_group.
    + apply sourced_find_region, sourced_new.
  - rewrite <- clean_variants_agree.
    unfold Api.parse_japanese_license_plate. cbv zeta.
    destruct (search Api.pattern1 (Api.clean text)) as [m |] eqn:E1.
    { destruct (search_sound _ _ _ E1) as [Hm Ho].
      destruct (full_pattern1_groups_occur 4 separators2 m Hm) as (G1 & G2 & G3 & G4).
      apply sourced_record_of; [| | | left]; eapply occurs_in_trans; eassumption. }
    destruct (search Api.pattern2 (Api.clean text)) as [m |] eqn:E2.
    { destruct (search_sound _ _ _ E2) as [Hm Ho].
      destruct (full_pattern2_groups_occur 4 m Hm) as (G1 & G2 & G3 & G4).
      destruct (full_pattern2_groups 4 m Hm) as (_ & _ & _ & [Hl _]).
      apply sourced_record_of; [| | | right; exists (group 4 m); split; [| now split]];
        eapply occurs_in_trans; eassumption. }
    apply sourced_api_number_loop; [exact HA |].
    destruct (search Api.hiragana_pattern (Api.clean text)) as [m |] eqn:Eh.
    + apply sourced_insert; [| | discriminate].
      * apply sourced_find_region, sourced_new.
      * intros _. apply (sourced_group Api.hiragana_pattern); [| assumption].
        apply single_atom_group.
    + apply sourced_find_region, sourced_new.
  - unfold Simple.parse_simple_plate. cbv zeta.
    change (Simple.clean text) with (Backend.clean text).
    assert (H0 : sourced (Backend.clean text)
                   (find_region Simple.regions (Backend.clean text)
                      (new_result (Backend.clean text))))
      by apply sourced_find_region, sourced_new.
    destruct (search Simple.number_pattern (Backend.clean text)) as [mn |] eqn:En.
    + assert (Hn : occurs_in (group 1 mn) (Backend.clean text))
        by (apply (sourced_group Simple.number_pattern); [apply simple_number_group | assumption]).
      destruct (search Simple.hiragana_pattern (Backend.clean text)) as [mh |] eqn:Eh;
        destruct (search Simple.class_pattern (Backend.clean text)) as [mc |] eqn:Ec;
        repeat first
          [ assumption
          | apply sourced_insert;
            [ | first [ intros Hne; now destruct Hne
                      | intros _; first [ assumption
                          | apply (sourced_group Simple.hiragana_pattern);
                            [apply single_atom_group | assumption]
                          | apply (sourced_group Simple.class_pattern);
                            [apply single_atom_group | assumption] ] ]
              | first [ discriminate | intros _; now left ] ] ].
    + destruct (search Simple.hiragana_pattern (Backend.clean text)) as [mh |] eqn:Eh;
        destruct (search Simple.class_pattern (Backend.clean text)) as [mc |] eqn:Ec;
        repeat first
          [ assumption
          | apply sourced_insert;
            [ | intros _; first
                  [ apply (sourced_group Simple.hiragana_pattern);
                    [apply single_atom_group | assumption]
                  | apply (sourced_group Simple.class_pattern);
                    [apply single_atom_group | assumption] ]
              | discriminate ] ].
Qed.

(** ** The order of the page does not matter to [backend/app.py] *)

Lemma bool_eq_iff (b1 b2 : bool) : (b1 = true <-> b2 = true) -> b1 = b2.
Proof.
  destruct b1, b2; intros [H1 H2]; try reflexivity.
  - symmetry. now apply H1.
  - now apply H2.
Qed.

Lemma tuple_lt_same (a a' b b' : Q * pystr) :
  same_tuple a a' -> same_tuple b b' -> tuple_lt a b = tuple_lt a' b'.
Proof.
  intros [Ha Ta] [Hb Tb]. unfold tuple_lt. rewrite Ta, Tb.
  assert (E : Qeq_bool (fst a) (fst b) = Qeq_bool (fst a') (fst b')).
  { apply bool_eq_iff. rewrite !Qeq_bool_iff, Ha, Hb. reflexivity. }
  assert (L : Qle_bool (fst b) (fst a) = Qle_bool (fst b') (fst a')).
  { apply bool_eq_iff. rewrite !Qle_bool_iff, Ha, Hb. reflexivity. }
  now rewrite E, L.
Qed.

Lemma same_tuple_refl (a : Q * pystr) : same_tuple a a.
Proof. split; reflexivity. Qed.

Lemma same_tuple_trans (a b c : Q * pystr) : same_tuple a b -> same_tuple b c -> same_tuple a c.
Proof. intros [H1 T1] [H2 T2]. split; [now rewrite H1 | congruence]. Qed.

Lemma same_tuples_refl (l : list (Q * pystr)) : Forall2 same_tuple l l.
Proof. induction l; constructor; [apply same_tuple_refl | assumption]. Qed.

Lemma same_tuples_trans (l1 l2 l3 : list (Q * pystr)) :
  Forall2 same_tuple l1 l2 -> Forall2 same_tuple l2 l3 -> Forall2 same_tuple l1 l3.
Proof.
  intros H. revert l3. induction H as [| a b l1 l2 Hab _ IH]; intros l3 H'.
  - inversion H'. constructor.
  - inversion H' as [| ? c ? l3' Hbc Hl]; subst. constructor.
    + now apply (same_tuple_trans a b c).
    + now apply IH.
Qed.

Lemma str_lt_total (a b : pystr) : str_lt a b = false -> str_lt b a = false -> a = b.
Proof.
  revert b. induction a as [| x a IH]; intros [| y b]; simpl; try congruence.
  destruct (N.eqb_spec x y) as [-> | Hne].
  - rewrite N.eqb_refl. intros H1 H2. f_equal. now apply IH.
  - destruct (N.eqb_spec y x) as [-> | _]; [congruence |].
    rewrite !N.ltb_ge. intros H1 H2. exfalso. apply Hne. lia.
Qed.

Lemma tuple_incomparable_same (a b : Q * pystr) :
  tuple_lt a b = false -> tuple_lt b a = false -> same_tuple a b.
Proof.
  rewrite !tuple_le_iff. intros [H1 | [H1 T1]] [H2 | [H2 T2]]; try lra.
  split; [assumption | now apply str_lt_total].
Qed.

Lemma tuple_le_lt_trans (x z y : Q * pystr) :
  tuple_lt z x = false -> tuple_lt z y = true -> tuple_lt x y = true.
Proof.
  intros H1 H2. destruct (tuple_lt x y) eqn:E; [reflexivity |].
  pose proof (tuple_le_trans y x z E H1). congruence.
Qed.

Lemma insert_sorted_same (x x' : Q * pystr) (s s' : list (Q * pystr)) :
  same_tuple x x' -> Forall2 same_tuple s s' ->
  Forall2 same_tuple (insert_sorted x s) (insert_sorted x' s').
Proof.
  intros Hx H. induction H as [| y y' s s' Hy Hs IH]; simpl.
  - constructor; [assumption | constructor].
  - rewrite (tuple_lt_same y y' x x' Hy Hx).
    destruct (tuple_lt y' x').
    + constructor; [exact Hy | exact IH].
    + constructor; [exact Hx |]. constructor; [exact Hy | exact Hs].
Qed.

Lemma insert_sorted_comm (x y : Q * pystr) (s : list (Q * pystr)) :
  Forall2 same_tuple (insert_sorted x (insert_sorted y s))
                     (insert_sorted y (insert_sorted x s)).
Proof.
  assert (Base : forall r,
    Forall2 same_tuple
      (if tuple_lt y x then y :: x :: r else x :: y :: r)
      (if tuple_lt x y then x :: y :: r else y :: x :: r)).
  { intros r. destruct (tuple_lt y x) eqn:E1.
    - rewrite (tuple_lt_asym _ _ E1). apply same_tuples_refl.
    - destruct (tuple_lt x y) eqn:E2; [apply same_tuples_refl |].
      pose proof (tuple_incomparable_same x y E2 E1) as Hxy.
      constructor; [assumption |].
      constructor; [| apply same_tuples_refl].
      destruct Hxy as [H1 H2]. split; [now symmetry | congruence]. }
  induction s as [| z r IH].
  - simpl. apply Base.
  - simpl. destruct (tuple_lt z y) eqn:Ey; destruct (tuple_lt z x) eqn:Ex; simpl;
      rewrite ?Ex, ?Ey.
    + constructor; [apply same_tuple_refl | exact IH].
    + rewrite (tuple_le_lt_trans x z y Ex Ey). simpl. rewrite ?Ey.
      apply same_tuples_refl.
    + rewrite (tuple_le_lt_trans y z x Ey Ex). simpl. rewrite ?Ex.
      apply same_tuples_refl.
    + apply Base.
Qed.

Lemma sorted_same (l l' : list (Q * pystr)) :
  Permutation l l' -> Forall2 same_tuple (sorted l) (sorted l').
Proof.
  intros H. induction H as [| x l l' _ IH | x y l | l1 l2 l3 _ IH1 _ IH2].
  - constructor.
  - simpl. apply insert_sorted_same; [apply same_tuple_refl | exact IH].
  - simpl. apply insert_sorted_comm.
  - now apply (same_tuples_trans _ (sorted l2)).
Qed.

Lemma same_tuples_app (a a' b b' : list (Q * pystr)) :
  Forall2 same_tuple a a' -> Forall2 same_tuple b b' -> Forall2 same_tuple (a ++ b) (a' ++ b').
Proof. intros H. induction H; simpl; [trivial |]. intros Hb. constructor; auto. Qed.

Lemma same_tuples_rev (l l' : list (Q * pystr)) :
  Forall2 same_tuple l l' -> Forall2 same_tuple (rev l) (rev l').
Proof.
  intros H. induction H; simpl; [constructor |].
  apply same_tuples_app; [assumption |]. constructor; [assumption | constructor].
Qed.

Lemma same_tuples_texts (l l' : list (Q * pystr)) :
  Forall2 same_tuple l l' -> List.map snd l = List.map snd l'.
Proof.
  intros H. induction H as [| a b l l' [_ Hab] _ IH]; simpl; [reflexivity |].
  now rewrite Hab, IH.
Qed.

Lemma survivors_permutation (threshold : Q) (lines lines' : list ocr_line) :
  Permutation lines lines' ->
  Permutation (survivors threshold lines) (survivors threshold lines').
Proof.
  unfold survivors. intros H.
  induction H as [| x l l' _ IH | x y l | l1 l2 l3 _ IH1 _ IH2]; simpl.
  - constructor.
  - destruct (Qgtb (line_confidence x) threshold); [now constructor | assumption].
  - destruct (Qgtb (line_confidence x) threshold), (Qgtb (line_confidence y) threshold);
      try reflexivity. apply perm_swap.
  - now transitivity (List.filter (fun line => Qgtb (line_confidence line) threshold) l2).
Qed.

(** The text [backend/app.py] extracts does not depend on the order in
    which the engine lists the lines of the page: permuting the lines gives
    the same text. *)
Theorem backend_extract_order_independent (result result' : paddle_result) :
  Permutation (page_lines result) (page_lines result') ->
  Backend.extract_text_from_paddle_result result =
  Backend.extract_text_from_paddle_result result'.
Proof.
  intros H. rewrite !backend_extract_spec. f_equal.
  apply same_tuples_texts. unfold sorted_reverse.
  apply same_tuples_rev, sorted_same.
  rewrite <- !Permutation_rev. unfold pairs_of.
  apply Permutation_map. now apply survivors_permutation.
Qed.

Lemma backend_extract_order_independent_witness :
  Backend.extract_text_from_paddle_result
    [Some [OcrLine (lit "12-34") (8 # 10); OcrLine (lit "品川") (9 # 10)]] =
  Backend.extract_text_from_paddle_result
    [Some [OcrLine (lit "品川") (9 # 10); OcrLine (lit "12-34") (8 # 10)]].
Proof.
  apply backend_extract_order_independent. apply perm_swap.
Defined.

(** ** The two thresholds *)

(** Every text [api/ocr.py] keeps (confidence above 0.5) is also kept by
    [backend/app.py] (confidence above 0.3), in the same relative order
    before sorting. *)
Theorem api_texts_kept_by_backend (lines : list ocr_line) :
  sublist (Api.collect lines) (fst (Backend.collect lines)).
Proof.
  induction lines as [| l r IH]; simpl; [constructor |].
  destruct (Backend.collect r) as [texts confidences] eqn:E. simpl in IH.
  destruct (Qgtb (line_confidence l) threshold_half) eqn:Eh.
  - assert (E3 : Qgtb (line_confidence l) threshold_03 = true).
    { apply Qgtb_spec. apply Qgtb_spec in Eh. unfold threshold_half, threshold_03 in *.
      eapply Qlt_trans; [| exact Eh]. reflexivity. }
    rewrite E3. simpl. now constructor.
  - destruct (Qgtb (line_confidence l) threshold_03); simpl; [now constructor | assumption].
Qed.

(** ** The image payload of a request *)

Lemma split_on_no_sep (sep : char) (b : pystr) : ~ In sep b -> split_on sep b = [b].
Proof.
  induction b as [| c r IH]; [reflexivity |]. simpl. intros H.
  destruct (N.eqb_spec c sep) as [-> | _]; [exfalso; apply H; now left |].
  rewrite IH; [reflexivity | intros Hin; apply H; now right].
Qed.

Lemma split_on_first (sep : char) (h t : pystr) :
  ~ In sep h -> split_on sep (h ++ sep :: t) = h :: split_on sep t.
Proof.
  induction h as [| c r IH]; simpl; intros H.
  - now rewrite N.eqb_refl.
  - destruct (N.eqb_spec c sep) as [-> | _]; [exfalso; apply H; now left |].
    rewrite IH; [reflexivity | intros Hin; apply H; now right].
Qed.

Lemma starts_with_app (p h t : pystr) :
  starts_with p h = true -> starts_with p (h ++ t) = true.
Proof.
  rewrite !starts_with_spec. intros (post & ->). exists (post ++ t).
  now rewrite app_assoc.
Qed.

(** The payload handed to the base64 decoder.  A string that does not
    start with [data:image] is passed as it is; of a data URI the part
    between the first and the second comma is passed (all that follows the
    comma when there is no second one); a string that starts with
    [data:image] and has no comma raises [list index out of range]. *)
Theorem image_payload_cases (s h b rest : pystr) :
  (starts_with (lit "data:image") s = false -> image_payload (VStr s) = inr s) /\
  (starts_with (lit "data:image") h = true -> ~ In 44 h -> ~ In 44 b ->
   image_payload (VStr (h ++ [44] ++ b)) = inr b /\
   image_payload (VStr (h ++ [44] ++ b ++ [44] ++ rest)) = inr b /\
   image_payload (VStr h) = inl (lit "list index out of range")).
Proof.
  split.
  - intros H. unfold image_payload. now rewrite H.
  - intros Hp Hh Hb. unfold image_payload.
    rewrite !starts_with_app, Hp by assumption.
    change (h ++ [44] ++ b) with (h ++ 44 :: b).
    change (h ++ [44] ++ b ++ [44] ++ rest) with (h ++ 44 :: (b ++ 44 :: rest)).
    rewrite !split_on_first by assumption.
    rewrite (split_on_no_sep 44 b Hb), (split_on_no_sep 44 h Hh).
    repeat split; reflexivity.
Qed.

Lemma image_payload_cases_witness :
  image_payload (VStr (lit "data:image/png;base64,iVBORw0KGgo=")) = inr (lit "iVBORw0KGgo=") /\
  image_payload (VStr (lit "data:image/png;base64")) = inl (lit "list index out of range").
Proof.
  destruct (image_payload_cases [] (lit "data:image/png;base64") (lit "iVBORw0KGgo=") [])
    as (_ & H).
  destruct H as (H1 & _ & H3).
  - reflexivity.
  - vm_compute. intuition discriminate.
  - vm_compute. intuition discriminate.
  - split; [exact H1 | exact H3].
Defined.

(** ** Shape of the answers of the handlers *)

Ltac body_lookup :=
  cbn [body status];
  repeat first [ rewrite lookup_insert_eq | rewrite lookup_insert_ne by discriminate
               | rewrite lookup_empty ];
  try reflexivity.

Lemma error_response_well_formed (e : exn) : well_formed_response (error_response e).
Proof.
  right. unfold error_response. split; [now right |].
  split; [body_lookup |]. split; [body_lookup |]. exists e. body_lookup.
Qed.

Lemma no_image_response_well_formed (message : pystr) :
  well_formed_response (no_image_response message).
Proof.
  right. unfold no_image_response. split; [now left |].
  split; [body_lookup |]. split; [body_lookup |]. exists message. body_lookup.
Qed.

Lemma api_success_well_formed (available : bool) (detected_text : pystr) :
  well_formed_response (ApiHandler.success_response available detected_text).
Proof.
  left. unfold ApiHandler.success_response. cbv zeta.
  split; [reflexivity |]. split; [body_lookup |]. split; [body_lookup |].
  exists detected_text, (Api.parse_japanese_license_plate detected_text).
  split; [body_lookup |]. split; [body_lookup |].
  change (normalize_whitespace detected_text) with (Backend.clean detected_text).
  rewrite <- clean_variants_agree. apply covers_api.
Qed.

Lemma backend_success_well_formed (detected_text : pystr) :
  well_formed_response (BackendHandler.success_response detected_text).
Proof.
  left. unfold BackendHandler.success_response. cbv zeta.
  split; [reflexivity |]. split; [body_lookup |]. split; [body_lookup |].
  exists detected_text, (Backend.parse_japanese_license_plate detected_text).
  split; [body_lookup |]. split; [body_lookup |]. apply covers_backend.
Qed.

Lemma simple_success_well_formed (detected_text : pystr) :
  well_formed_response (SimpleHandler.success_response detected_text).
Proof.
  left. unfold SimpleHandler.success_response. cbv zeta.
  split; [reflexivity |]. split; [body_lookup |]. split; [body_lookup |].
  exists detected_text, (Simple.parse_simple_plate detected_text).
  split; [body_lookup |]. split; [body_lookup |]. apply covers_simple.
Qed.

Ltac step_bind :=
  match goal with
  | |- context [bind ?x _] =>
      let E := fresh "E" in destruct x eqn:E; cbn [bind]
  end.

(** Whatever the request holds and whatever the image libraries and the
    engine do, a POST is answered either with 200, [success] true, the
    detected text and a plate of five keys whose [full_text] is the
    normalised detected text, or with 400 or 500, [success] false, an error
    message and no plate. *)
Theorem handlers_answer_well_formed (req : request) :
  method req = POST ->
  (forall env, well_formed_response (ApiHandler.ocr_endpoint env req)) /\
  (forall env, well_formed_response (BackendHandler.license_plate_ocr env req)) /\
  (forall env, well_formed_response (SimpleHandler.license_plate_ocr env req)).
Proof.
  intros Hm. split; [| split]; intros env.
  - unfold ApiHandler.ocr_endpoint, ApiHandler.try_body. rewrite Hm.
    step_bind; [apply error_response_well_formed |].
    step_bind; [apply error_response_well_formed |].
    match goal with |- context [if ?b then _ else _] => destruct b end;
      [apply no_image_response_well_formed |].
    repeat (step_bind; [apply error_response_well_formed |]).
    destruct (PADDLE_AVAILABLE env); cbn [bind].
    + repeat (step_bind; [apply error_response_well_formed |]).
      apply api_success_well_formed.
    + apply api_success_well_formed.
  - unfold BackendHandler.license_plate_ocr, BackendHandler.try_body. rewrite Hm.
    step_bind; [apply error_response_well_formed |].
    step_bind; [apply error_response_well_formed |].
    match goal with |- context [if ?b then _ else _] => destruct b end;
      [apply no_image_response_well_formed |].
    repeat (step_bind; [apply error_response_well_formed |]).
    destruct (PADDLE_AVAILABLE env); cbn [negb bind].
    + repeat (step_bind; [apply error_response_well_formed |]).
      apply backend_success_well_formed.
    + apply error_response_well_formed.
  - unfold SimpleHandler.license_plate_ocr, SimpleHandler.try_body. rewrite Hm.
    step_bind; [apply error_response_well_formed |].
    step_bind; [apply error_response_well_formed |].
    match goal with |- context [if ?b then _ else _] => destruct b end;
      [apply no_image_response_well_formed |].
    repeat (step_bind; [apply error_response_well_formed |]).
    apply simple_success_well_formed.
Qed.

Lemma handlers_answer_well_formed_witness :
  well_formed_response
    (BackendHandler.license_plate_ocr
       (PaddleEnv unit unit unit (fun _ => inr tt) (fun _ => inr tt) (fun _ => inr tt)
          (fun _ => inr [Some [OcrLine (lit "品川 500 あ 12-34") (9 # 10)]]) true)
       (Request POST (inr (VDict {[ "image" := VStr (lit "data:image/png;base64,AAAA") ]})))).
Proof.
  apply handlers_answer_well_formed. reflexivity.
Defined.

(** ** When a request is refused *)

Ltac walk_handler :=
  repeat first
    [ step_bind
    | match goal with
      | |- context [if ?b then _ else _] => destruct b eqn:?; cbn [negb bind]
      end ].

Lemma no_image_spec (data : pyvalue) : no_image data = inr true <-> lacks_image data.
Proof.
  unfold no_image. destruct data as [| b | n | f | s | l | d]; cbn [truthy lacks_image].
  - cbn [negb]. tauto.
  - destruct b; cbn [negb bind contains_image]; split; congruence.
  - destruct (Z.eqb_spec n 0) as [-> | Hn]; cbn [negb bind contains_image]; split; congruence.
  - destruct f; cbn [negb bind contains_image]; split;
      first [ discriminate | intros _; eexists; reflexivity | intros [sign [=]] | reflexivity ].
  - rewrite <- contains_false_iff. destruct s as [| c s]; cbn [negb bind contains_image].
    + split; reflexivity.
    + destruct (contains _ _); cbn [negb]; split; congruence.
  - destruct l as [| v l]; cbn [negb bind contains_image]; [cbn [In]; tauto |].
    set (is_image := fun v => match v with
                              | VStr s => bool_decide (s = lit "image")
                              | _ => false
                              end).
    assert (Hin : existsb is_image (v :: l) = true <-> In (VStr (lit "image")) (v :: l)).
    { rewrite existsb_exists. split.
      - intros (x & Hx & Hi). destruct x; try discriminate.
        apply bool_decide_eq_true in Hi. now subst.
      - intros Hx. exists (VStr (lit "image")). split; [exact Hx |].
        unfold is_image. now apply bool_decide_eq_true. }
    destruct (existsb is_image (v :: l)); cbn [negb]; split; try congruence.
    + intros Hx. exfalso. apply Hx, Hin. reflexivity.
    + intros _ Hx. apply Hin in Hx. discriminate.
  - destruct (bool_decide (dom d = ∅)) eqn:Ed; cbn [negb bind contains_image].
    + apply bool_decide_eq_true, dom_empty_iff_L in Ed. subst d. split; [| reflexivity].
      intros _. apply lookup_empty.
    + destruct (d !! "image"); cbn [negb]; split; congruence.
Qed.

Lemma no_image_dict (d : gmap string pyvalue) (v : pyvalue) :
  d !! "image" = Some v ->
  no_image (VDict d) = inr false /\ subscript_image (VDict d) = inr v.
Proof.
  intros Hv. unfold no_image. cbn [truthy subscript_image contains_image]. rewrite Hv.
  destruct (bool_decide (dom d = ∅)) eqn:Ed; [| now split].
  apply bool_decide_eq_true, dom_empty_iff_L in Ed. subst d.
  rewrite lookup_empty in Hv. discriminate.
Qed.

(** A request is answered with 400 exactly when it is a POST whose JSON
    body was read and holds no image: the body is [None], [False], a zero,
    a string in which [image] does not occur, a list without the element
    ['image'] or a dictionary without the key [image].  The answer is then
    the fixed body of the variant, and the image libraries and the engine
    are not consulted. *)
Theorem bad_request_iff (req : request) :
  let refused :=
    method req = POST /\ exists data, get_json req = inr data /\ lacks_image data in
  (forall env, status (ApiHandler.ocr_endpoint env req) = 400%Z <-> refused) /\
  (forall env, status (BackendHandler.license_plate_ocr env req) = 400%Z <-> refused) /\
  (forall env, status (SimpleHandler.license_plate_ocr env req) = 400%Z <-> refused) /\
  (refused ->
   (forall env, ApiHandler.ocr_endpoint env req =
                no_image_response (lit "No image data provided")) /\
   (forall env, BackendHandler.license_plate_ocr env req =
                no_image_response (lit "画像データが提供されていません")) /\
   (forall env, SimpleHandler.license_plate_ocr env req =
                no_image_response (lit "画像データが提供されていません"))).
Proof.
  cbv zeta. destruct req as [m j].
  cbn [method get_json].
  split; [| split; [| split]].
  - intros env. unfold ApiHandler.ocr_endpoint, ApiHandler.try_body. cbn [method get_json].
    destruct m; [| split; [discriminate | intros [H _]; discriminate]].
    destruct j as [e | data]; cbn [bind].
    { split; [discriminate | intros (_ & d & H & _); discriminate]. }
    destruct (no_image data) as [e | [|]] eqn:Ef; cbn [bind].
    + split; [discriminate | intros (_ & d & [= <-] & H)].
      apply no_image_spec in H. congruence.
    + split; [intros _; split; [reflexivity |]; exists data; split; [reflexivity |];
              now apply no_image_spec | reflexivity].
    + split; [| intros (_ & d & [= <-] & H); apply no_image_spec in H; congruence].
      walk_handler; cbn [status error_response ApiHandler.success_response]; discriminate.
  - intros env. unfold BackendHandler.license_plate_ocr, BackendHandler.try_body.
    cbn [method get_json].
    destruct m; [| split; [discriminate | intros [H _]; discriminate]].
    destruct j as [e | data]; cbn [bind].
    { split; [discriminate | intros (_ & d & H & _); discriminate]. }
    destruct (no_image data) as [e | [|]] eqn:Ef; cbn [bind].
    + split; [discriminate | intros (_ & d & [= <-] & H)].
      apply no_image_spec in H. congruence.
    + split; [intros _; split; [reflexivity |]; exists data; split; [reflexivity |];
              now apply no_image_spec | reflexivity].
    + split; [| intros (_ & d & [= <-] & H); apply no_image_spec in H; congruence].
      walk_handler; cbn [status error_response BackendHandler.success_response]; discriminate.
  - intros env. unfold SimpleHandler.license_plate_ocr, SimpleHandler.try_body.
    cbn [method get_json].
    destruct m; [| split; [discriminate | intros [H _]; discriminate]].
    destruct j as [e | data]; cbn [bind].
    { split; [discriminate | intros (_ & d & H & _); discriminate]. }
    destruct (no_image data) as [e | [|]] eqn:Ef; cbn [bind].
    + split; [discriminate | intros (_ & d & [= <-] & H)].
      apply no_image_spec in H. congruence.
    + split; [intros _; split; [reflexivity |]; exists data; split; [reflexivity |];
              now apply no_image_spec | reflexivity].
    + split; [| intros (_ & d & [= <-] & H); apply no_image_spec in H; congruence].
      walk_handler; cbn [status error_response SimpleHandler.success_response]; discriminate.
  - intros (-> & data & -> & Hf). apply no_image_spec in Hf.
    unfold ApiHandler.ocr_endpoint, ApiHandler.try_body,
      BackendHandler.license_plate_ocr, BackendHandler.try_body,
      SimpleHandler.license_plate_ocr, SimpleHandler.try_body.
    cbn [method get_json bind]. rewrite Hf. repeat split.
Qed.

Lemma bad_request_iff_witness :
  BackendHandler.license_plate_ocr
    (PaddleEnv unit unit unit (fun _ => inr tt) (fun _ => inr tt) (fun _ => inr tt)
       (fun _ => inr [Some [OcrLine (lit "品川 500 あ 12-34") (9 # 10)]]) true)
    (Request POST (inr (VList [VStr (lit "picture"); VInt 5]))) =
  no_image_response (lit "画像データが提供されていません").
Proof.
  destruct (bad_request_iff (Request POST (inr (VList [VStr (lit "picture"); VInt 5]))))
    as (_ & _ & _ & H).
  apply H. split; [reflexivity |]. eexists. split; [reflexivity |].
  cbn. intros [[=] | [[=] | []]].
Defined.

(** A body that is read and holds an image of the wrong kind is answered
    with 500 and the message of the exception: a number is no container,
    a string or a list in which [image] occurs has no key, and an image
    that is no string has no [startswith]. *)
Lemma wrong_body_examples (env : paddle_env) :
  ApiHandler.ocr_endpoint env (Request POST (inr (VInt 5))) =
    error_response (lit "argument of type 'int' is not iterable") /\
  ApiHandler.ocr_endpoint env (Request POST (inr (VStr (lit "ximagex")))) =
    error_response (lit "string indices must be integers, not 'str'") /\
  ApiHandler.ocr_endpoint env (Request POST (inr (VList [VStr (lit "image")]))) =
    error_response (lit "list indices must be integers or slices, not str") /\
  ApiHandler.ocr_endpoint env (Request POST (inr (VDict {[ "image" := VInt 7 ]}))) =
    error_response (lit "'int' object has no attribute 'startswith'").
Proof. split; [| split; [| split]]; vm_compute; reflexivity. Qed.

(** ** Without the engine *)

Lemma api_parse_mock :
  Api.parse_japanese_license_plate (lit "品川 500 あ 12-34") =
  record_of (lit "品川 500 あ 12-34") (lit "品川") (lit "500") (lit "あ") (lit "12-34").
Proof.
  apply (api_tier1 (lit "品川 500 あ 12-34")
           [(1%nat, lit "品川"); (0%nat, lit " "); (2%nat, lit "500"); (0%nat, lit " ");
            (3%nat, lit "あ"); (0%nat, lit " "); (4%nat, lit "12"); (4%nat, lit "-");
            (4%nat, lit "34")]).
  vm_compute. reflexivity.
Qed.

(** When PaddleOCR could not be imported and the image of the request
    decodes, [api/ocr.py] answers 200 with the fixed plate 品川 500 あ 12-34
    and confidence 85, whatever the image shows, while [backend/app.py]
    answers 500 with the message that PaddleOCR is not available. *)
Theorem answers_without_paddle (env : paddle_env) (req : request)
    (data : gmap string pyvalue) (field : pyvalue) (payload : pystr)
    (image_bytes : pe_bytes env) (image : pe_image env) :
  PADDLE_AVAILABLE env = false ->
  method req = POST -> get_json req = inr (VDict data) -> data !! "image" = Some field ->
  image_payload field = inr payload ->
  b64decode env payload = inr image_bytes -> image_open env image_bytes = inr image ->
  ApiHandler.ocr_endpoint env req =
    Response 200
      (<["success" := JBool true]>
         (<["detected_text" := JStr (lit "品川 500 あ 12-34")]>
            (<["plate_info" := JPlate (record_of (lit "品川 500 あ 12-34") (lit "品川")
                                         (lit "500") (lit "あ") (lit "12-34"))]>
               (<["confidence" := JNum 85]> ∅)))) [] /\
  BackendHandler.license_plate_ocr env req =
    error_response (lit "PaddleOCRが利用できません").
Proof.
  intros Hp Hm Hj Hf Hpay Hb Ho. destruct (no_image_dict data field Hf) as [Hg Hs]. split.
  - unfold ApiHandler.ocr_endpoint, ApiHandler.try_body.
    rewrite Hm, Hj. cbn [bind]. rewrite Hg. cbn [bind]. rewrite Hs. cbn [bind].
    rewrite Hpay. cbn [bind]. rewrite Hb. cbn [bind].
    rewrite Ho. cbn [bind]. rewrite Hp. cbn [bind].
    unfold ApiHandler.success_response. cbv zeta. now rewrite api_parse_mock.
  - unfold BackendHandler.license_plate_ocr, BackendHandler.try_body.
    rewrite Hm, Hj. cbn [bind]. rewrite Hg. cbn [bind]. rewrite Hs. cbn [bind].
    rewrite Hpay. cbn [bind]. rewrite Hb. cbn [bind].
    rewrite Ho. cbn [bind]. now rewrite Hp.
Qed.

Lemma answers_without_paddle_witness :
  BackendHandler.license_plate_ocr
    (PaddleEnv unit unit unit (fun _ => inr tt) (fun _ => inr tt) (fun _ => inr tt)
       (fun _ => inr []) false)
    (Request POST (inr (VDict {[ "image" := VStr (lit "AAAA") ]})))
  = error_response (lit "PaddleOCRが利用できません").
Proof.
  refine (proj2 (answers_without_paddle
            (PaddleEnv unit unit unit (fun _ => inr tt) (fun _ => inr tt) (fun _ => inr tt)
               (fun _ => inr []) false)
            (Request POST (inr (VDict {[ "image" := VStr (lit "AAAA") ]})))
            {[ "image" := VStr (lit "AAAA") ]} (VStr (lit "AAAA")) (lit "AAAA") tt tt
            _ _ _ _ _ _ _)); reflexivity.
Defined.

(** ** When Tesseract fails *)

(** In [backend/simple_app.py] a failure of the engine is not an error of
    the request: when the image was read and prepared and
    [image_to_string] raises, the answer is 200 with [success] true, an
    empty detected text and the plate whose five fields are empty. *)
Theorem simple_engine_failure_is_success (env : tesseract_env) (req : request)
    (data : gmap string pyvalue) (field : pyvalue) (payload : pystr)
    (image_bytes : te_bytes env) (image : te_image env) (gray img_array : te_array env)
    (ocr_error : exn) :
  method req = POST -> get_json req = inr (VDict data) -> data !! "image" = Some field ->
  image_payload field = inr payload ->
  te_b64decode env payload = inr image_bytes -> te_image_open env image_bytes = inr image ->
  to_gray_array env image = inr gray ->
  (if TESSERACT_AVAILABLE env then binarize env gray else inr gray) = inr img_array ->
  image_to_string env img_array = inl ocr_error ->
  SimpleHandler.license_plate_ocr env req =
    Response 200
      (<["success" := JBool true]>
         (<["detected_text" := JStr []]>
            (<["plate_info" := JPlate (new_result [])]>
               (<["confidence" := JNum 75]>
                  (<["ocr_engine" := JStr (lit "Tesseract")]>
                     (<["message" := JStr (lit "✅ 車番認識完了（Tesseract版）")]> ∅)))))) [].
Proof.
  intros Hm Hj Hf Hpay Hb Ho Hg Hbin Hocr. destruct (no_image_dict data field Hf) as [Hn Hs].
  unfold SimpleHandler.license_plate_ocr, SimpleHandler.try_body.
  rewrite Hm, Hj. cbn [bind]. rewrite Hn. cbn [bind]. rewrite Hs. cbn [bind].
  rewrite Hpay. cbn [bind]. rewrite Hb. cbn [bind].
  rewrite Ho. cbn [bind]. rewrite Hg. cbn [bind]. rewrite Hbin. cbn [bind].
  unfold SimpleHandler.recognise. rewrite Hocr.
  unfold SimpleHandler.success_response. cbv zeta. now rewrite simple_parse_nil.
Qed.

Lemma simple_engine_failure_is_success_witness :
  status (SimpleHandler.license_plate_ocr
    (TesseractEnv unit unit unit (fun _ => inr tt) (fun _ => inr tt) (fun _ => inr tt)
       (fun _ => inr tt) (fun _ => inl (lit "tesseract is not installed")) true)
    (Request POST (inr (VDict {[ "image" := VStr (lit "AAAA") ]})))) = 200%Z.
Proof.
  rewrite (simple_engine_failure_is_success
            (TesseractEnv unit unit unit (fun _ => inr tt) (fun _ => inr tt) (fun _ => inr tt)
               (fun _ => inr tt) (fun _ => inl (lit "tesseract is not installed")) true)
            (Request POST (inr (VDict {[ "image" := VStr (lit "AAAA") ]})))
            {[ "image" := VStr (lit "AAAA") ]} (VStr (lit "AAAA")) (lit "AAAA")
            tt tt tt tt (lit "tesseract is not installed")); reflexivity.
Defined.

Lemma region_and_hiragana_formats_witness :
  forallb not_digit_space (lit "ノイズ横浜") = true /\ (length (lit "ノイズ横浜") <= 5)%nat.
Proof.
  destruct (region_and_hiragana_formats (lit "99-88 ノイズ横浜 500 あ 12-34 品川"))
    as (_ & _ & _ & H).
  apply H. left. vm_compute. reflexivity.
Defined.

(** * The parsers with their console output *)

(** ** What the console can write *)

Lemma write_from_spec (pos : nat) (line : pystr) :
  write_from pos line = inr tt <-> printable line.
Proof.
  unfold printable. revert pos. induction line as [| c rest IH]; intros pos.
  - cbn. tauto.
  - cbn [write_from forallb]. destruct (is_surrogate c); cbn [negb andb].
    + split; discriminate.
    + apply IH.
Qed.

Lemma print_spec (line : pystr) : print line = inr tt <-> printable line.
Proof. apply write_from_spec. Qed.

Lemma print_cases (line : pystr) :
  (printable line /\ print line = inr tt) \/ (~ printable line /\ exists e, print line = inl e).
Proof.
  destruct (print line) as [e | []] eqn:E.
  - right. split; [| now exists e]. intros H. apply print_spec in H. congruence.
  - left. split; [now apply print_spec | reflexivity].
Qed.

Lemma printable_app (a b : pystr) : printable (a ++ b) <-> printable a /\ printable b.
Proof. unfold printable. rewrite forallb_app. apply andb_true_iff. Qed.

Lemma printable_occurs (v s : pystr) : occurs_in v s -> printable s -> printable v.
Proof.
  intros (pre & post & ->) H. apply printable_app in H. destruct H as [_ H].
  apply printable_app in H. tauto.
Qed.

Lemma surrogate_not_space (c : char) : is_surrogate c = true -> is_space c = false.
Proof.
  unfold is_surrogate. rewrite andb_true_iff, !N.leb_le. intros [Hlo _].
  unfold is_space, whitespace_chars. cbn [existsb].
  repeat match goal with
         | |- context [c =? ?k] => destruct (N.eqb_spec c k) as [-> | _]; [lia |]
         end.
  reflexivity.
Qed.

Lemma filter_non_space_clean (text : pystr) :
  List.filter (fun c => negb (is_space c)) (Backend.clean text) =
  List.filter (fun c => negb (is_space c)) text.
Proof.
  unfold Backend.clean, strip, sub_spaces.
  rewrite filter_non_space_rstrip, filter_non_space_lstrip, filter_non_space_sub_spaces.
  now rewrite !filter_non_space_replace_char.
Qed.

Lemma printable_clean (text : pystr) : printable text -> printable (Backend.clean text).
Proof.
  unfold printable. rewrite !forallb_forall. intros H c Hc.
  destruct (is_surrogate c) eqn:Es; [| reflexivity]. exfalso.
  assert (Hf : In c (List.filter (fun c => negb (is_space c)) (Backend.clean text))).
  { apply filter_In. split; [exact Hc |]. now rewrite (surrogate_not_space c Es). }
  rewrite filter_non_space_clean in Hf. apply filter_In in Hf. destruct Hf as [Hin _].
  specialize (H c Hin). rewrite Es in H. discriminate.
Qed.

(** ** The log lines of [backend/app.py] *)

Lemma print_ok (line : pystr) : printable line -> print line = inr tt.
Proof. apply print_spec. Qed.

Lemma find_region_logged_ok (regions : list pystr) (clean_text : pystr) (result : plate) :
  Forall printable regions ->
  Backend.find_region_logged regions clean_text result =
  inr (find_region regions clean_text result).
Proof.
  intros H. induction H as [| r rs Hr _ IH]; [reflexivity |].
  cbn [Backend.find_region_logged find_region].
  destruct (contains r clean_text); [| exact IH]. cbv zeta.
  rewrite print_ok; [reflexivity |].
  apply printable_app. split; [reflexivity | exact Hr].
Qed.

Lemma backend_regions_printable : Forall printable Backend.regions.
Proof.
  apply List.Forall_forall. intros r Hr.
  assert (A : forallb (forallb (fun c => negb (is_surrogate c))) Backend.regions = true)
    by (vm_compute; reflexivity).
  rewrite forallb_forall in A. exact (A r Hr).
Qed.

Lemma printable_found (p : pattern) (clean_text : pystr) (m : re_match) :
  printable clean_text -> search p clean_text = Some m -> printable (text_of m).
Proof.
  intros H Hs. destruct (search_sound _ _ _ Hs) as [_ Ho].
  exact (printable_occurs _ _ Ho H).
Qed.

Lemma group_found_printable (p : pattern) (clean_text : pystr) (m : re_match) :
  (forall m, matches p m -> group 1 m = text_of m) ->
  printable clean_text -> search p clean_text = Some m -> printable (group 1 m).
Proof.
  intros Hg H E. destruct (search_sound _ _ _ E) as [Hm _].
  rewrite (Hg m Hm). exact (printable_found _ _ _ H E).
Qed.

Ltac next_search E :=
  match goal with
  | |- context [search ?p ?s] => destruct (search p s) as [? |] eqn:E
  end.

Lemma number_loop_logged_ok (clean_text : pystr) (result : plate) :
  printable clean_text ->
  Backend.number_loop_logged 0 Backend.number_patterns clean_text result =
  inr (Backend.number_loop 0 Backend.number_patterns clean_text result).
Proof.
  intros H. unfold Backend.number_patterns.
  cbn [Backend.number_loop_logged Backend.number_loop].
  next_search E1.
  { cbv beta iota zeta. rewrite print_ok; [reflexivity |].
    rewrite !printable_app. repeat split; try reflexivity.
    refine (group_found_printable _ _ _ _ H E1).
    intros m' Hm'. exact (proj2 (serial_pattern_groups separators3 m' Hm')). }
  next_search E2.
  { cbv beta iota zeta. rewrite print_ok; [reflexivity |].
    rewrite !printable_app. repeat split; try reflexivity.
    exact (group_found_printable _ _ _ (single_atom_group is_digit 4 4) H E2). }
  next_search E3; [| reflexivity].
  cbv beta iota zeta. rewrite print_ok; [reflexivity |].
  rewrite !printable_app. repeat split; try reflexivity.
  exact (group_found_printable _ _ _ (single_atom_group is_digit 3 3) H E3).
Qed.

Lemma backend_logged_spec (text : pystr) :
  Backend.parse_japanese_license_plate_logged text =
  bind (print (lit "🔍 パース対象: '" ++ text ++ lit "'")) (fun _ =>
  inr (Backend.parse_japanese_license_plate text)).
Proof.
  unfold Backend.parse_japanese_license_plate_logged, Backend.parse_japanese_license_plate.
  destruct (print_cases (lit "🔍 パース対象: '" ++ text ++ lit "'")) as [[Hp ->] | [_ [e ->]]];
    [| reflexivity].
  cbn [bind]. cbv zeta.
  apply printable_app in Hp. destruct Hp as [_ Hp].
  apply printable_app in Hp. destruct Hp as [Hp _].
  apply printable_clean in Hp.
  destruct (search Backend.pattern1 _); [reflexivity |].
  destruct (search Backend.pattern2 _); [reflexivity |].
  rewrite (find_region_logged_ok _ _ _ backend_regions_printable). cbn [bind].
  destruct (search Backend.hiragana_pattern _) as [hm |] eqn:Eh; cbn [bind].
  - rewrite print_ok.
    + cbn [bind]. rewrite number_loop_logged_ok by exact Hp. reflexivity.
    + apply printable_app. split; [reflexivity |].
      exact (group_found_printable _ _ _ (single_atom_group is_hiragana 1 1) Hp Eh).
  - rewrite number_loop_logged_ok by exact Hp. reflexivity.
Qed.

(** ** The numeric fields the third tier leaves empty *)

Lemma some_match_spec (p : pattern) (clean_text : pystr) :
  some_match p clean_text <-> exists m, search p clean_text = Some m.
Proof.
  split.
  - intros H. destruct (search_finds _ _ H) as (m & Hs & _). now exists m.
  - intros [m Hs]. exists m. exact (search_sound _ _ _ Hs).
Qed.

(** Which of the two numeric fields the third tier of [api/ocr.py] leaves
    empty. *)
Lemma api_tier3_undetermined (text : pystr) :
  search Api.pattern1 (Api.clean text) = None ->
  search Api.pattern2 (Api.clean text) = None ->
  let clean_text := Api.clean text in
  let result := Api.parse_japanese_license_plate text in
  (search (serial_pattern separators2) clean_text = None ->
   search (digits_pattern 4) clean_text = None -> result !! "number" = Some []) /\
  ((exists m, search (serial_pattern separators2) clean_text = Some m) \/
   (exists m, search (digits_pattern 4) clean_text = Some m) \/
   search (digits_pattern 3) clean_text = None -> result !! "classification" = Some []).
Proof.
  intros H1 H2. cbv zeta.
  destruct (api_tier3_numeric text H1 H2) as (R & Hn & Hc & ->).
  unfold Api.number_patterns, digits_pattern. cbn [Api.number_loop].
  change [rep is_digit 1 2 1; rep (one_of separators2) 1 1 1; rep is_digit 2 2 1]
    with (serial_pattern separators2).
  destruct (search (serial_pattern separators2) (Api.clean text)) as [m |] eqn:Es.
  { split; [discriminate |]. intros _.
    destruct (search_sound _ _ _ Es) as [Hm _].
    destruct (serial_pattern_groups _ m Hm) as [Hser _].
    pose proof (serial_length _ _ Hser) as Hlen.
    destruct ((length (group 1 m) =? 4)%nat && negb (contains [HYPHEN] (group 1 m)));
      [now rewrite lookup_insert_ne |].
    destruct (length (group 1 m) =? 3)%nat eqn:E3; [apply Nat.eqb_eq in E3; lia |].
    now rewrite lookup_insert_ne. }
  destruct (search [rep is_digit 4 4 1] (Api.clean text)) as [m |] eqn:E4.
  { split; [discriminate |]. intros _.
    destruct (search_sound _ _ _ E4) as [Hm _].
    destruct (digit_pattern_groups 4 m Hm) as [[Hl Hall] _].
    rewrite Hl, (contains_hyphen_digits _ Hall). cbn [Nat.eqb andb negb].
    now rewrite lookup_insert_ne. }
  destruct (search [rep is_digit 3 3 1] (Api.clean text)) as [m |] eqn:E3.
  { destruct (search_sound _ _ _ E3) as [Hm _].
    destruct (digit_pattern_groups 3 m Hm) as [[Hl _] _]. rewrite Hl.
    cbn [Nat.eqb andb]. split.
    - intros _ _. now rewrite lookup_insert_ne.
    - intros [[m' H] | [[m' H] | H]]; discriminate. }
  split; intros; assumption.
Qed.

Lemma backend_tier3_undetermined (text : pystr) :
  search Backend.pattern1 (Backend.clean text) = None ->
  search Backend.pattern2 (Backend.clean text) = None ->
  let clean_text := Backend.clean text in
  let result := Backend.parse_japanese_license_plate text in
  (search (serial_pattern separators3) clean_text = None ->
   search (digits_pattern 4) clean_text = None -> result !! "number" = Some []) /\
  ((exists m, search (serial_pattern separators3) clean_text = Some m) \/
   (exists m, search (digits_pattern 4) clean_text = Some m) \/
   search (digits_pattern 3) clean_text = None -> result !! "classification" = Some []).
Proof.
  intros H1 H2. cbv zeta. unfold digits_pattern.
  destruct (backend_tier3_cases text H1 H2) as (Cs & C4 & C3 & C0). cbv zeta in Cs, C4, C3, C0.
  destruct (search (serial_pattern separators3) (Backend.clean text)) as [m |] eqn:Es.
  { split; [discriminate |]. intros _. exact (proj2 (Cs m eq_refl)). }
  destruct (search [rep is_digit 4 4 1] (Backend.clean text)) as [m |] eqn:E4.
  { split; [discriminate |]. intros _. exact (proj2 (C4 eq_refl m eq_refl)). }
  destruct (search [rep is_digit 3 3 1] (Backend.clean text)) as [m |] eqn:E3.
  { split.
    - intros _ _. exact (proj2 (C3 eq_refl eq_refl m eq_refl)).
    - intros [[m' H] | [[m' H] | H]]; discriminate. }
  split; intros; apply (C0 eq_refl eq_refl eq_refl).
Qed.

(** ** C1: total field coverage *)

(** C1, as the claim states it, fails on a text with a lone surrogate: the
    first statement of each parser writes the text to the console, and the
    UTF-8 encoder of the console refuses the surrogate.  The call raises
    [UnicodeEncodeError] and returns no dictionary. *)
Lemma surrogate_text_raises :
  Api.parse_japanese_license_plate_logged [55296] =
    inl (lit "'utf-8' codec can't encode character '\ud800' in position 11: surrogates not allowed") /\
  Simple.parse_simple_plate_logged [55296] =
    inl (lit "'utf-8' codec can't encode character '\ud800' in position 10: surrogates not allowed") /\
  Backend.parse_japanese_license_plate_logged [55296] =
    inl (lit "'utf-8' codec can't encode character '\ud800' in position 10: surrogates not allowed").
Proof. split; [| split]; vm_compute; reflexivity. Qed.

(** C1, amended.  For every input text that the console can write (a text
    without surrogate code points) the call of each of the three parsers
    raises nothing and returns a dictionary with exactly the keys region,
    classification, hiragana, number and full_text, whose full_text is the
    white-space-normalised input.  A field that is not determined holds
    exactly the empty string: when neither full pattern matches, the region
    is empty if no entry of the catalogue occurs, the hiragana is empty if
    no character of the class occurs, the number is empty if neither the
    serial nor the four-digit pattern matches, and the classification is
    empty if the serial or the four-digit pattern matches (the loop stops
    there) or no run of three digits exists; in [backend/simple_app.py]
    each field is empty if its own search finds nothing. *)
Theorem total_field_coverage (text : pystr) :
  printable text ->
  let clean_text := normalize_whitespace text in
  (Api.parse_japanese_license_plate_logged text =
     inr (Api.parse_japanese_license_plate text) /\
   Backend.parse_japanese_license_plate_logged text =
     inr (Backend.parse_japanese_license_plate text) /\
   Simple.parse_simple_plate_logged text = inr (Simple.parse_simple_plate text)) /\
  (covers clean_text (Api.parse_japanese_license_plate text) /\
   covers clean_text (Backend.parse_japanese_license_plate text) /\
   covers clean_text (Simple.parse_simple_plate text)) /\
  (no_match Api.pattern1 clean_text -> no_match Api.pattern2 clean_text ->
   let result := Api.parse_japanese_license_plate text in
   (no_region Api.regions clean_text -> result !! "region" = Some []) /\
   (no_char (one_of Api.hiragana_list) clean_text -> result !! "hiragana" = Some []) /\
   (no_match (serial_pattern separators2) clean_text ->
    no_match (digits_pattern 4) clean_text -> result !! "number" = Some []) /\
   (some_match (serial_pattern separators2) clean_text \/
    some_match (digits_pattern 4) clean_text \/
    no_match (digits_pattern 3) clean_text -> result !! "classification" = Some [])) /\
  (no_match Backend.pattern1 clean_text -> no_match Backend.pattern2 clean_text ->
   let result := Backend.parse_japanese_license_plate text in
   (no_region Backend.regions clean_text -> result !! "region" = Some []) /\
   (no_char is_hiragana clean_text -> result !! "hiragana" = Some []) /\
   (no_match (serial_pattern separators3) clean_text ->
    no_match (digits_pattern 4) clean_text -> result !! "number" = Some []) /\
   (some_match (serial_pattern separators3) clean_text \/
    some_match (digits_pattern 4) clean_text \/
    no_match (digits_pattern 3) clean_text -> result !! "classification" = Some [])) /\
  (let result := Simple.parse_simple_plate text in
   (no_region Simple.regions clean_text -> result !! "region" = Some []) /\
   (no_match Simple.number_pattern clean_text -> result !! "number" = Some []) /\
   (no_char is_hiragana clean_text -> result !! "hiragana" = Some []) /\
   (no_match Simple.class_pattern clean_text -> result !! "classification" = Some [])).
Proof.
  intros Hp. cbv zeta.
  change (normalize_whitespace text) with (Backend.clean text).
  split; [| split; [| split; [| split]]].
  - split; [| split].
    + unfold Api.parse_japanese_license_plate_logged. rewrite print_ok; [reflexivity |].
      apply printable_app. split; [reflexivity | exact Hp].
    + rewrite backend_logged_spec, print_ok; [reflexivity |].
      rewrite !printable_app. repeat split; try reflexivity. exact Hp.
    + unfold Simple.parse_simple_plate_logged. rewrite print_ok; [reflexivity |].
      rewrite !printable_app. repeat split; try reflexivity. exact Hp.
  - split; [| split].
    + rewrite <- clean_variants_agree. apply covers_api.
    + apply covers_backend.
    + apply covers_simple.
  - rewrite <- clean_variants_agree. intros H1 H2.
    apply no_match_spec in H1, H2.
    destruct (api_tier3_undetermined text H1 H2) as [Un Uc]. cbv zeta in Un, Uc.
    split; [| split; [| split]].
    + intros Hr. rewrite api_tier3_region by assumption.
      pose proof (proj1 (no_region_spec _ _) Hr) as Hr'.
      destruct (List.find _ Api.regions) as [r |] eqn:E; [| reflexivity].
      apply find_some in E. destruct E as [Hin Hc]. rewrite (Hr' r Hin) in Hc. discriminate.
    + intros Hh. rewrite api_tier3_hiragana by assumption.
      apply find_none_iff in Hh. now rewrite Hh.
    + intros Hs H4. apply no_match_spec in Hs, H4. now apply Un.
    + intros H. apply Uc. rewrite <- !some_match_spec, <- no_match_spec. exact H.
  - intros H1 H2. apply no_match_spec in H1, H2.
    destruct (backend_tier3_undetermined text H1 H2) as [Un Uc]. cbv zeta in Un, Uc.
    split; [| split; [| split]].
    + intros Hr. rewrite backend_tier3_region by assumption.
      pose proof (proj1 (no_region_spec _ _) Hr) as Hr'.
      destruct (List.find _ Backend.regions) as [r |] eqn:E; [| reflexivity].
      apply find_some in E. destruct E as [Hin Hc]. rewrite (Hr' r Hin) in Hc. discriminate.
    + intros Hh. rewrite backend_tier3_hiragana by assumption.
      apply find_none_iff in Hh. now rewrite Hh.
    + intros Hs H4. apply no_match_spec in Hs, H4. now apply Un.
    + intros H. apply Uc. rewrite <- !some_match_spec, <- no_match_spec. exact H.
  - destruct (simple_lookups text) as (Hr & Hn & Hh & Hc).
    cbv zeta in Hr, Hn, Hh, Hc. change (Simple.clean text) with (Backend.clean text) in *.
    split; [| split; [| split]].
    + intros H. etransitivity; [exact Hr |]. pose proof (proj1 (no_region_spec _ _) H) as H'.
      destruct (List.find _ Simple.regions) as [r |] eqn:E; [| reflexivity].
      apply find_some in E. destruct E as [Hin Hc']. rewrite (H' r Hin) in Hc'. discriminate.
    + intros H. etransitivity; [exact Hn |]. apply no_match_spec in H. now rewrite H.
    + intros H. etransitivity; [exact Hh |]. apply find_none_iff in H. now rewrite H.
    + intros H. etransitivity; [exact Hc |]. apply no_match_spec in H. now rewrite H.
Qed.

Lemma total_field_coverage_witness :
  Api.parse_japanese_license_plate_logged (lit "580") =
    inr (Api.parse_japanese_license_plate (lit "580")) /\
  Api.parse_japanese_license_plate (lit "580") !! "number" = Some [] /\
  Api.parse_japanese_license_plate (lit "580") !! "region" = Some [] /\
  Api.parse_japanese_license_plate (lit "580") !! "hiragana" = Some [] /\
  Api.parse_japanese_license_plate (lit "580") !! "full_text" = Some (lit "580").
Proof.
  destruct (total_field_coverage (lit "580")) as ((Hl & _) & ((_ & Hf) & _) & HA & _);
    [reflexivity |].
  cbv zeta in HA. change (normalize_whitespace (lit "580")) with (lit "580") in *.
  assert (E : forall p, search p (lit "580") = None -> no_match p (lit "580")).
  { intros p Hs. now apply no_match_spec. }
  destruct HA as (Hr & Hh & Hn & _); try (apply E; vm_compute; reflexivity).
  split; [exact Hl |]. split; [| split; [| split]].
  - apply Hn; apply E; vm_compute; reflexivity.
  - apply Hr. intros r Hin. apply contains_false_iff.
    assert (A : forallb (fun r => negb (contains r (lit "580"))) Api.regions = true)
      by (vm_compute; reflexivity).
    rewrite forallb_forall in A. specialize (A r Hin).
    now destruct (contains r (lit "580")).
  - apply Hh. apply find_none_iff. vm_compute. reflexivity.
  - exact Hf.
Defined.
